(** * Consonance: pairwise-interval consonance scores and weight fitting

    A shallow embedding of [consonance.py] and [optimise_weights.py].

    Conventions of the embedding:
    - Python integers (pitches, intervals, labels) are [Z]; positions in a
      list (the [i] of [enumerate]) are [nat].
    - A Python exception is the [Raise] case of [result].
    - numpy's float arrays of counts hold whole numbers only and are lists of
      [nat]; every other float is a [pyfloat]: an exact rational or one of the
      IEEE special values, so rounding is abstracted away while the values
      that a division by zero produces are kept.
    - Python's [None] inside a weight list is the [None] of [option pyfloat].
    - The ratings of the optimisers are a Python list or a numpy array
      ([ratings_arg]); the two differ where the code indexes them by a
      boolean mask. *)

From Stdlib Require Import ZArith QArith Lia.
From stdpp Require Import base option list sorting gmap strings.

(** ** Exceptions *)

Inductive exn :=
  | IndexError
  | ValueError
  | TypeError
  | UnboundLocalError
  | LinAlgError
  | Exception (msg : string).

Inductive result (A : Type) :=
  | Ok (a : A)
  | Raise (e : exn).
Arguments Ok {A} a.
Arguments Raise {A} e.

Global Instance result_ret : MRet result := λ A a, Ok a.
Global Instance result_bind : MBind result := λ A B f m,
  match m with
  | Ok a => f a
  | Raise e => Raise e
  end.
Global Instance result_fmap : FMap result := λ A B f m,
  match m with
  | Ok a => Ok (f a)
  | Raise e => Raise e
  end.

(** A [for] loop whose body may raise. *)
Fixpoint for_each {A S} (body : S → A → result S) (s : S) (l : list A) : result S :=
  match l with
  | [] => Ok s
  | x :: l' => s' ← body s x; for_each body s' l'
  end.

(** ** Floats *)

Inductive pyfloat :=
  | Fin (q : Q)
  | PInf
  | NInf
  | NaN.

Definition num_add (x y : pyfloat) : pyfloat :=
  match x, y with
  | NaN, _ | _, NaN => NaN
  | PInf, NInf | NInf, PInf => NaN
  | PInf, _ | _, PInf => PInf
  | NInf, _ | _, NInf => NInf
  | Fin a, Fin b => Fin (a + b)
  end.

Definition inf_of_sign (c : comparison) : pyfloat :=
  match c with
  | Gt => PInf
  | Lt => NInf
  | Eq => NaN
  end.

Definition num_sign (x : pyfloat) : comparison :=
  match x with
  | Fin a => (a ?= 0)%Q
  | PInf => Gt
  | NInf => Lt
  | NaN => Eq
  end.

Definition num_mul (x y : pyfloat) : pyfloat :=
  match x, y with
  | NaN, _ | _, NaN => NaN
  | Fin a, Fin b => Fin (a * b)
  | PInf, _ | _, PInf => inf_of_sign (match x with PInf => num_sign y | _ => num_sign x end)
  | NInf, _ | _, NInf => inf_of_sign (CompOpp (match x with NInf => num_sign y | _ => num_sign x end))
  end.

(** [counts / n] for a whole-number count and a Python int [n]: numpy
    yields [nan] for [0 / 0] and [inf] for [c / 0] with [c > 0]. *)
Definition count_div (c n : nat) : pyfloat :=
  match n with
  | O => if decide (c = 0) then NaN else PInf
  | S _ => Fin (Z.of_nat c # Pos.of_nat n)
  end.

Definition num_of_count (c : nat) : pyfloat := Fin (inject_Z (Z.of_nat c)).

(** ** itertools and list helpers *)

(** [range(a, b)] *)
Definition range (a b : Z) : list Z := (λ i, a + Z.of_nat i)%Z <$> seq 0 (Z.to_nat (b - a)).

(** [itertools.combinations(l, k)], each tuple as a list, in the order
    itertools emits them. *)
Fixpoint combinations {A} (l : list A) (k : nat) {struct l} : list (list A) :=
  match k, l with
  | O, _ => [[]]
  | S _, [] => []
  | S k', x :: l' => ((x ::.) <$> combinations l' k') ++ combinations l' k
  end.

(** [list.sort()] and [sorted]: a stable sort that only uses [<]. *)
Section py_sort.
Context {A} (lt : A → A → bool).

Fixpoint py_insert (x : A) (l : list A) : list A :=
  match l with
  | [] => [x]
  | y :: l' => if lt y x then y :: py_insert x l' else x :: l
  end.

Fixpoint py_sort (l : list A) : list A :=
  match l with
  | [] => []
  | x :: l' => py_insert x (py_sort l')
  end.
End py_sort.

(** [l1 < l2] on Python lists: lexicographic, a proper prefix is smaller. *)
Section list_lt.
Context `{EqDecision A} (lt : A → A → bool).

Fixpoint list_lt (l1 l2 : list A) : bool :=
  match l1, l2 with
  | _, [] => false
  | [], _ :: _ => true
  | x :: l1', y :: l2' => if decide (x = y) then list_lt l1' l2' else lt x y
  end.
End list_lt.

(** [items.index(x)] *)
Definition list_index `{EqDecision A} (x : A) (items : list A) : result nat :=
  match list_find (x =.) items with
  | Some (i, _) => Ok i
  | None => Raise ValueError
  end.

(** ** consonance.py *)

Definition get_octave_intervals (pitches : list Z) : list Z :=
  let raw_intervals :=
    (λ c, match c with [p1; p2] => p2 - p1 | _ => 0 end)%Z <$> combinations pitches 2 in
  let oct_intervals := (λ ivl, ivl `mod` 12)%Z <$> raw_intervals in
  let oct_intervals := (λ ivl, if decide (ivl = 0%Z) then 12%Z else ivl) <$> oct_intervals in
  py_sort Z.ltb oct_intervals.

Definition interval_class (interval : Z) : Z := Z.min interval (12 - interval).

(** The body of the loop in [count]: [counts[items.index(x)] += 1]. *)
Definition count_body (items : list Z) (counts : list nat) (x : Z) : result (list nat) :=
  i ← list_index x items; Ok (alter S i counts).

Definition count (lst items : list Z) : result (list nat) :=
  for_each (count_body items) (replicate (length items) 0) lst.

(** [sorted([i for i, w in enumerate(weights) if w == None])]: the
    exclusion signature of one weight table. *)
Definition null_ixs (weights : list (option pyfloat)) : list nat :=
  py_sort Nat.ltb (filter (λ iw, iw.2 = None) (imap pair weights)).*1.

Section exclusion_combinations.
Context `{EqDecision A} (lt : A → A → bool).

Definition exclusion_combinations (exclusion_ixs : list A) : list (list A) :=
  let output := [[]] in
  let output := output ++
    (py_sort lt <$>
       (i ← seq 1 (length exclusion_ixs); combinations exclusion_ixs i)) in
  py_sort (list_lt lt) output.
End exclusion_combinations.

(** Lines 79-83 of [check_weight_exclusions]: the positions that occur in
    the signatures, each kept once, in the order of first occurrence. *)
Definition first_occurrences (ixs_lst : list nat) : list nat :=
  foldl (λ ixs ix, if decide (ix ∈ ixs) then ixs else ixs ++ [ix]) [] ixs_lst.

Definition check_weight_exclusions (weights_lsts : list (list (option pyfloat))) : result () :=
  (* Check lengths *)
  size_first ← match weights_lsts with
               | [] => Raise IndexError
               | first :: _ => Ok (length first)
               end;
  _ ← for_each (λ _ lst,
         if decide (length lst ≠ size_first)
         then Raise (Exception "weights lists must all have the same length")
         else Ok ()) () (tail weights_lsts);
  (* Check exclusions *)
  let lst_ixs := null_ixs <$> weights_lsts in
  let lst_ixs := py_sort (list_lt Nat.ltb) lst_ixs in
  let ixs := first_occurrences (mjoin lst_ixs) in
  let test_ixs := exclusion_combinations Nat.ltb ixs in
  if decide (lst_ixs ≠ test_ixs)
  then Raise (Exception "exclusion combinations are not complete")
  else Ok ().

(** [any(counts[j] > 0 for j in ixs)]: the generator is consumed lazily, so
    a position outside [counts] raises only when it is reached. *)
Fixpoint any_positive (counts : list nat) (ixs : list nat) : result bool :=
  match ixs with
  | [] => Ok false
  | j :: ixs' =>
      match counts !! j with
      | None => Raise IndexError
      | Some c => if decide (0 < c) then Ok true else any_positive counts ixs'
      end
  end.

(** [np.argsort(keys)]: positions ordered by ascending key. numpy's default
    kind is not stable beyond short arrays; positions with equal keys are
    kept here in their original order. *)
Definition np_argsort (keys : list nat) : list nat :=
  py_sort (λ i j, bool_decide (keys !!! i < keys !!! j)) (seq 0 (length keys)).

Definition fill_none (x : option pyfloat) : option pyfloat :=
  match x with
  | None => Some (Fin 0)
  | Some w => Some w
  end.

(** The loop of [get_inclusion_weights] over [order]; falling off its end
    is Python's implicit [return None]. *)
Fixpoint first_inclusion (counts : list nat) (weights_lsts : list (list (option pyfloat)))
    (lst_ixs : list (list nat)) (order : list nat)
    : result (option (list (option pyfloat))) :=
  match order with
  | [] => Ok None
  | i :: order' =>
      match lst_ixs !! i, weights_lsts !! i with
      | Some ixs, Some weights =>
          b ← any_positive counts ixs;
          if b : bool then first_inclusion counts weights_lsts lst_ixs order'
          else Ok (Some (fill_none <$> weights))
      | _, _ => Raise IndexError
      end
  end.

Definition get_inclusion_weights (counts : list nat)
    (weights_lsts : list (list (option pyfloat))) : result (option (list (option pyfloat))) :=
  let lst_ixs := null_ixs <$> weights_lsts in
  let order := reverse (np_argsort (length <$> lst_ixs)) in
  first_inclusion counts weights_lsts lst_ixs order.

(** [np.inner(xs, weights)]; a [None] among the weights makes the product
    fail with a [TypeError]. *)
Fixpoint np_inner (xs : list pyfloat) (weights : list (option pyfloat)) : result pyfloat :=
  match xs, weights with
  | [], [] => Ok (Fin 0)
  | x :: xs', w :: weights' =>
      r ← np_inner xs' weights';
      match w with
      | Some w => Ok (num_add (num_mul x w) r)
      | None => Raise TypeError
      end
  | _, _ => Raise ValueError
  end.

(** The [weights] argument: a flat list of weights, or a list of weight
    lists ([type(weights[0]) == list]). *)
Inductive weights_arg :=
  | Flat (weights : list (option pyfloat))
  | Piecewise (weights_lsts : list (list (option pyfloat))).

Definition interval_consonance (pitches : list Z) (weights : weights_arg)
    (agg_method : string) : result pyfloat :=
  let intervals := get_octave_intervals pitches in
  counts ← count intervals (range 1 13);
  (* type(weights[0]) == list *)
  weights ← match weights with
            | Flat [] | Piecewise [] => Raise IndexError
            | Flat weights => Ok (Some weights)
            | Piecewise weights_lsts =>
                _ ← check_weight_exclusions weights_lsts;
                get_inclusion_weights counts weights_lsts
            end;
  (* len(None) is a TypeError *)
  weights ← match weights with
            | None => Raise TypeError
            | Some weights => Ok weights
            end;
  if decide (length weights ≠ 12)
  then Raise (Exception "weights must be of length 12") else
  let score := None in
  score ← (if decide (agg_method = "sum")
           then Some <$> np_inner (num_of_count <$> counts) weights
           else Ok score);
  score ← (if decide (agg_method = "type")
           then Some <$> np_inner ((λ c, count_div c (length intervals)) <$> counts) weights
           else Ok score);
  match score with
  | None => Raise UnboundLocalError
  | Some score => Ok score
  end.

Definition interval_class_consonance (pitches : list Z) (weights : weights_arg)
    (agg_method : string) : result pyfloat :=
  let intervals := get_octave_intervals pitches in
  let interval_classes := interval_class <$> intervals in
  counts ← count interval_classes (range 0 7);
  (* type(weights[0]) == list *)
  weights ← match weights with
            | Flat [] | Piecewise [] => Raise IndexError
            | Flat weights => Ok (Some weights)
            | Piecewise weights_lsts =>
                _ ← check_weight_exclusions weights_lsts;
                get_inclusion_weights counts weights_lsts
            end;
  (* len(None) is a TypeError *)
  weights ← match weights with
            | None => Raise TypeError
            | Some weights => Ok weights
            end;
  if decide (length weights ≠ 7)
  then Raise (Exception "weights must be of length 7") else
  let score := None in
  score ← (if decide (agg_method = "sum")
           then Some <$> np_inner (num_of_count <$> counts) weights
           else Ok score);
  score ← (if decide (agg_method = "type")
           then Some <$> np_inner ((λ c, count_div c (length intervals)) <$> counts) weights
           else Ok score);
  match score with
  | None => Raise UnboundLocalError
  | Some score => Ok score
  end.

(** Lines 17-29 of [interval_consonance] and 45-58 of
    [interval_class_consonance] are the same up to the number of labels;
    the proofs go through this common form. *)
Definition resolve_weights (counts : list nat) (weights : weights_arg)
    : result (option (list (option pyfloat))) :=
  match weights with
  | Flat [] | Piecewise [] => Raise IndexError
  | Flat weights => Ok (Some weights)
  | Piecewise weights_lsts =>
      _ ← check_weight_exclusions weights_lsts;
      get_inclusion_weights counts weights_lsts
  end.

Definition consonance_score (n_intervals : nat) (counts : list nat) (n_labels : nat)
    (msg : string) (weights : weights_arg) (agg_method : string) : result pyfloat :=
  weights ← resolve_weights counts weights;
  weights ← match weights with
            | None => Raise TypeError
            | Some weights => Ok weights
            end;
  if decide (length weights ≠ n_labels) then Raise (Exception msg) else
  let score := None in
  score ← (if decide (agg_method = "sum")
           then Some <$> np_inner (num_of_count <$> counts) weights
           else Ok score);
  score ← (if decide (agg_method = "type")
           then Some <$> np_inner ((λ c, count_div c n_intervals) <$> counts) weights
           else Ok score);
  match score with
  | None => Raise UnboundLocalError
  | Some score => Ok score
  end.

(** ** optimise_weights.py *)

(** [intervals_lst.size] of [np.array(rows, dtype=object)]: numpy builds a
    two-dimensional array when every row has the same length, and a
    one-dimensional array of lists otherwise. *)
Definition np_size (rows : list (list Z)) : nat :=
  match rows with
  | [] => 0
  | row :: rows' =>
      if decide (Forall (λ row', length row' = length row) rows')
      then length rows * length row
      else length rows
  end.

(** [xs[mask]] for a boolean array [mask]: the lengths must agree. *)
Definition np_mask {A} (xs : list A) (mask : list bool) : result (list A) :=
  if decide (length xs = length mask)
  then Ok ((filter (λ xb, xb.2 = true) (zip xs mask)).*1)
  else Raise IndexError.

(** The ratings reach the optimisers as a Python list or as a numpy array
    of numbers. [len] and [np.matmul] take either; [ratings[mask]] with a
    boolean array [mask] selects from an array, and is a [TypeError] on a
    list. *)
Inductive ratings_arg :=
  | RatingsList (ratings : list pyfloat)
  | RatingsArray (ratings : list pyfloat).

Definition ratings_values (ratings : ratings_arg) : list pyfloat :=
  match ratings with
  | RatingsList ratings | RatingsArray ratings => ratings
  end.

Definition ratings_mask (ratings : ratings_arg) (mask : list bool)
    : result (list pyfloat) :=
  match ratings with
  | RatingsList _ => Raise TypeError
  | RatingsArray ratings => np_mask ratings mask
  end.

Definition include_missing (weights : list pyfloat) (interval_set : gset Z)
    (full_range : list Z) : result (list (option pyfloat)) :=
  fst <$> for_each (λ '(full_weights, j) i,
    if decide (i ∈ interval_set) then
      match weights !! j with
      | Some w => Ok (full_weights ++ [Some w], S j)
      | None => Raise IndexError
      end
    else Ok (full_weights ++ [None], j)) ([], 0) full_range.

(** [np.empty] leaves its entries uninitialised: they are [None] here until
    the loop assigns them. The loop assigns one entry per chord, so an entry
    stays uninitialised only when the array is longer than the batch, and
    then the masks built from it do not fit the batch. *)
Definition get_exclusion_groups (intervals_lst : list (list Z))
    (exclusions : list (list Z)) : result (list (option nat)) :=
  let exclusion_group := replicate (np_size intervals_lst) None in
  for_each (λ exclusion_group '(i, ivls),
    match list_find (λ ex, Forall (λ ivl, ivl ∉ ex) ivls) exclusions with
    | Some (j, _) =>
        if decide (i < length exclusion_group)
        then Ok (<[i := Some j]> exclusion_group)
        else Raise IndexError
    | None => Ok exclusion_group
    end) exclusion_group (imap pair intervals_lst).

Section optimise.
(** [list(interval_set)], a listing of the elements of the set: Python
    leaves the order in which a set is listed unspecified, so the listing
    is a parameter. *)
Variable list_of_set : gset Z → list Z.

(** Lines 91-93 of [optimise_weights]: numpy's [inv] and [matmul] applied
    to a design matrix of [m] columns, given row by row. *)
Variable normal_equations :
  nat → list (list pyfloat) → list pyfloat → result (list pyfloat).

Definition optimise_weights (intervals_lst : list (list Z)) (ratings : list pyfloat)
    (interval_set : gset Z) (agg_method : string) : result (list pyfloat) :=
  if decide (length intervals_lst ≠ length ratings)
  then Raise (Exception "lists of chords and ratings must be same length") else
  let m := size interval_set in
  A ← for_each (λ A ivls,
         counts ← count ivls (list_of_set interval_set);
         let row := replicate m (Fin 0) in
         let row := if decide (agg_method = "sum")
                    then num_of_count <$> counts else row in
         let row := if decide (agg_method = "type")
                    then (λ c, count_div c (length ivls)) <$> counts else row in
         Ok (A ++ [row])) [] intervals_lst;
  normal_equations m A ratings.

(** The [else] branch of [optimise_interval_weights], one group at a time. *)
Definition group_weights (intervals_lst : list (list Z)) (ratings : ratings_arg)
    (interval_set : gset Z) (exclusion_groups : list (option nat))
    (agg_method : string) (i : nat) (ex : list Z) : result (list (option pyfloat)) :=
  let ex_ivl_set := filter (λ x, x ∉ ex) interval_set in
  let mask := (λ g, bool_decide (g = Some i)) <$> exclusion_groups in
  ivls ← np_mask intervals_lst mask;
  rs ← ratings_mask ratings mask;
  ex_weights ← optimise_weights ivls rs ex_ivl_set agg_method;
  include_missing ex_weights ex_ivl_set (range 1 13).

Definition optimise_interval_weights (pitches_lst : list (list Z))
    (ratings : ratings_arg) (exclude_ivls : list Z) (agg_method : string)
    : result weights_arg :=
  let intervals_lst := get_octave_intervals <$> pitches_lst in
  (* np.concatenate needs at least one array *)
  if decide (intervals_lst = []) then Raise ValueError else
  let interval_set : gset Z := list_to_set (mjoin intervals_lst) in
  if decide (exclude_ivls = []) then
    weights ← optimise_weights intervals_lst (ratings_values ratings) interval_set
                agg_method;
    weights ← include_missing weights interval_set (range 1 13);
    Ok (Flat weights)
  else
    let exclusions := exclusion_combinations Z.ltb exclude_ivls in
    let exclusions :=
      py_sort (λ a b, bool_decide (length b < length a)) exclusions in
    exclusion_groups ← get_exclusion_groups intervals_lst exclusions;
    weights ← for_each (λ weights '(i, ex),
      ex_weights ← group_weights intervals_lst ratings interval_set
                     exclusion_groups agg_method i ex;
      Ok (weights ++ [ex_weights])) [] (imap pair exclusions);
    Ok (Piecewise weights).
End optimise.

(** An instance of the listing order: ascending. *)
Definition ascending_list (s : gset Z) : list Z := py_sort Z.ltb (elements s).

(** An instance of the normal equations in exact arithmetic: Cramer's rule
    on [AᵗA]. As in lines 92-93 the matrix is inverted before the ratings
    are looked at, so a singular matrix is reported whatever the ratings.
    A row of [A] that is not finite is a row of nan (the proportions 0/0 of
    a chord without intervals); it makes every entry of [AᵗA], and so every
    weight, nan. Ratings that are not finite are taken to give nan weights
    as well; numpy may give infinities for infinite ratings, which nothing
    below relies on. *)
Definition to_Q (x : pyfloat) : option Q :=
  match x with
  | Fin q => Some q
  | _ => None
  end.

Definition Qsum (l : list Q) : Q := foldr Qplus 0%Q l.
Definition Qdot (u v : list Q) : Q := Qsum (zip_with Qmult u v).
Definition Qcolumn (j : nat) (M : list (list Q)) : list Q :=
  (λ row, default 0%Q (row !! j)) <$> M.

Fixpoint Qdet (n : nat) (M : list (list Q)) : Q :=
  match n with
  | O => 1%Q
  | S n' =>
      Qsum (imap (λ i row,
        (if Nat.even i then 1 else -1) * default 0 (head row)
        * Qdet n' (tail <$> delete i M))%Q M)
  end.

Definition exact_normal_equations (m : nat) (A : list (list pyfloat))
    (ratings : list pyfloat) : result (list pyfloat) :=
  match mapM (mapM to_Q) A with
  | Some A =>
      let cols := (λ j, Qcolumn j A) <$> seq 0 m in
      let AtA := (λ cj, Qdot cj <$> cols) <$> cols in
      let d := Qdet m AtA in
      if Qeq_bool d 0 then Raise LinAlgError else
      match mapM to_Q ratings with
      | Some ratings =>
          let Atr := (λ cj, Qdot cj ratings) <$> cols in
          Ok ((λ j, Fin (Qred (Qdet m (zip_with (λ row b, <[j := b]> row) AtA Atr) / d)))
                <$> seq 0 m)
      | None => Ok (replicate m NaN)
      end
  | None => Ok (replicate m NaN)
  end.

(** Weight tables used in the scenarios. *)
Definition major_third_weights : list (option pyfloat) :=
  <[3 := Some (Fin 1)]> (replicate 12 (Some (Fin 0))).

Definition unit_weights : list (option pyfloat) := replicate 12 (Some (Fin 1)).

Definition finite_weight (w : option pyfloat) : Prop := ∃ q, w = Some (Fin q).

(** C(n, k), the number of k-element combinations of n items. *)
Fixpoint binomial (n k : nat) : nat :=
  match k, n with
  | O, _ => 1
  | S _, O => 0
  | S k', S n' => binomial n' k' + binomial n' k
  end.

(** The orders Python's sort is used with. [lt] is the [<] of the elements;
    [lt y x = false] plays the role of [x <= y]. *)
Class SortLt {A} (lt : A → A → bool) := {
  lt_asym x y : lt x y = true → lt y x = false;
  lt_le_trans x y z : lt y x = false → lt z y = false → lt z x = false;
}.
Class TotalLt {A} (lt : A → A → bool) := {
  total_sort_lt :: SortLt lt;
  lt_antisym x y : lt x y = false → lt y x = false → x = y;
}.

Definition le_of {A} (lt : A → A → bool) : relation A := λ x y, lt y x = false.

(** ** The properties stated of the validation *)

(** A list in strictly ascending order. *)
Definition strictly_sorted {A} (lt : A → A → bool) : list A → Prop :=
  StronglySorted (λ x y, lt x y = true).

(** The union of the null positions of the tables. *)
Definition exclusion_union (weights_lsts : list (list (option pyfloat))) (j : nat) : Prop :=
  ∃ weights, weights ∈ weights_lsts ∧ weights !! j = Some None.

(** A combination of excluded positions: a sorted subset of the union. *)
Definition is_exclusion_combination (weights_lsts : list (list (option pyfloat)))
    (s : list nat) : Prop :=
  strictly_sorted Nat.ltb s ∧ ∀ j, j ∈ s → exclusion_union weights_lsts j.

(** All tables have the same length. *)
Definition same_lengths (weights_lsts : list (list (option pyfloat))) : Prop :=
  ∀ w1 w2, w1 ∈ weights_lsts → w2 ∈ weights_lsts → length w1 = length w2.

(** Table [i] has the exclusion signature [s]. *)
Definition has_signature (weights_lsts : list (list (option pyfloat)))
    (s : list nat) (i : nat) : Prop :=
  ∃ weights, weights_lsts !! i = Some weights ∧ null_ixs weights = s.

(** Every combination is the signature of exactly one table. *)
Definition one_table_per_combination (weights_lsts : list (list (option pyfloat))) : Prop :=
  ∀ s, is_exclusion_combination weights_lsts s →
    ∃ i, has_signature weights_lsts s i ∧
         ∀ i', has_signature weights_lsts s i' → i' = i.

(** ** The properties stated of the resolver *)

(** Every position of [ixs] has count zero in the histogram. *)
Definition zero_at (counts : list nat) (ixs : list nat) : Prop :=
  Forall (λ j, counts !! j = Some 0) ixs.

(** Table [i] excludes a position whose count is not zero. *)
Definition no_match (counts : list nat) (weights_lsts : list (list (option pyfloat)))
    (i : nat) : Prop :=
  ∀ weights, weights_lsts !! i = Some weights → ¬ zero_at counts (null_ixs weights).

(** [ws] is the table [weights] with every null entry replaced by 0 and
    every other entry kept. *)
Definition nulls_replaced_by_0 (weights ws : list (option pyfloat)) : Prop :=
  Forall2 (λ w r,
    match w with
    | None => r = Some (Fin 0)
    | Some x => r = Some x
    end) weights ws.


Definition long_class_tables : list (list (option pyfloat)) :=
  [replicate 7 (Some (Fin 0)) ++ [None]; replicate 8 (Some (Fin 0))].

(** A table of twelve weights 1 that excludes the positions [ixs]. *)
Definition excluding (ixs : list nat) : list (option pyfloat) :=
  (λ i, if decide (i ∈ ixs) then None else Some (Fin 1)) <$> seq 0 12.

(** ** The properties stated of the optimiser *)

(** An interval label occurs in some chord of the batch. *)
Definition observed (pitches_lst : list (list Z)) (label : Z) : Prop :=
  ∃ pitches, pitches ∈ pitches_lst ∧ label ∈ get_octave_intervals pitches.

(** The exclusion groups in the order of the returned tables. *)
Definition sorted_exclusions (exclude_ivls : list Z) : list (list Z) :=
  py_sort (λ a b, bool_decide (length b < length a))
    (exclusion_combinations Z.ltb exclude_ivls).

(** A batch in which the group that excludes interval 1 holds the single
    chord 60, 64, while intervals 2 and 3 occur in the other chord. *)
Definition split_batch : list (list Z) := [[60; 64]; [60; 61; 63]]%Z.


(** A batch in which every group sees all the labels it has to fit. *)
Definition full_batch : list (list Z) := [[60; 62]; [60; 61]; [60; 61; 62]]%Z.
Definition full_batch_ratings : ratings_arg := RatingsArray [Fin 5; Fin 7; Fin 7].
Definition full_batch_tables : list (list (option pyfloat)) :=
  [ <[1 := Some (Fin 5)]> (replicate 12 None);
    <[0 := Some (Fin 7)]> (<[1 := Some (Fin 7)]> (replicate 12 None)) ].

(** ** Further definitions: the helpers of the scores *)

(** The inversion of an octave interval: k goes to 12 - k, the octave to
    itself. *)
Definition invert_interval (ivl : Z) : Z :=
  if decide (ivl = 12%Z) then 12%Z else (12 - ivl)%Z.

(** The number of combinations of at most [m - 1] out of [n] items. *)
Fixpoint binomial_sum (n m : nat) : nat :=
  match m with
  | O => 0
  | S m' => binomial_sum n m' + binomial n m'
  end.

(** ** Further definitions: the optimisers *)

(** The row of the design matrix for a chord with the histogram [counts]
    over [m] labels: line 83 fills it with zeros, and lines 86-89 replace
    them under "sum" and under "type". *)
Definition design_row (agg_method : string) (m n_intervals : nat) (counts : list nat)
    : list pyfloat :=
  let row := replicate m (Fin 0) in
  let row := if decide (agg_method = "sum")
             then num_of_count <$> counts else row in
  let row := if decide (agg_method = "type")
             then (λ c, count_div c n_intervals) <$> counts else row in
  row.

Section optimise_classes.
Variable list_of_set : gset Z → list Z.
Variable normal_equations :
  nat → list (list pyfloat) → list pyfloat → result (list pyfloat).

(** The [else] branch of [optimise_interval_class_weights], one group at a
    time. *)
Definition group_class_weights (ivclasses_lst : list (list Z)) (ratings : ratings_arg)
    (ivclass_set : gset Z) (exclusion_groups : list (option nat))
    (agg_method : string) (i : nat) (ex : list Z) : result (list (option pyfloat)) :=
  let ex_ivc_set := filter (λ x, x ∉ ex) ivclass_set in
  let mask := (λ g, bool_decide (g = Some i)) <$> exclusion_groups in
  ivcs ← np_mask ivclasses_lst mask;
  rs ← ratings_mask ratings mask;
  ex_weights ← optimise_weights list_of_set normal_equations ivcs rs ex_ivc_set agg_method;
  include_missing ex_weights ex_ivc_set (range 0 7).

Definition optimise_interval_class_weights (pitches_lst : list (list Z))
    (ratings : ratings_arg) (exclude_ivcs : list Z) (agg_method : string)
    : result weights_arg :=
  let ivclasses_lst :=
    (λ ps, interval_class <$> get_octave_intervals ps) <$> pitches_lst in
  (* np.concatenate needs at least one array *)
  if decide (ivclasses_lst = []) then Raise ValueError else
  let ivclass_set : gset Z := list_to_set (mjoin ivclasses_lst) in
  if decide (exclude_ivcs = []) then
    weights ← optimise_weights list_of_set normal_equations ivclasses_lst
                (ratings_values ratings) ivclass_set agg_method;
    weights ← include_missing weights ivclass_set (range 0 7);
    Ok (Flat weights)
  else
    let exclusions := exclusion_combinations Z.ltb exclude_ivcs in
    let exclusions :=
      py_sort (λ a b, bool_decide (length b < length a)) exclusions in
    exclusion_groups ← get_exclusion_groups ivclasses_lst exclusions;
    weights ← for_each (λ weights '(i, ex),
      ex_weights ← group_class_weights ivclasses_lst ratings ivclass_set
                     exclusion_groups agg_method i ex;
      Ok (weights ++ [ex_weights])) [] (imap pair exclusions);
    Ok (Piecewise weights).

(** The two optimisers differ only in the labels they give a chord and in
    the range of the labels. [fit_labels] is their common body, over the
    lists of labels of the chords; it serves the proofs. *)
Definition fit_group (full_range : list Z) (labels_lst : list (list Z))
    (ratings : ratings_arg) (label_set : gset Z) (exclusion_groups : list (option nat))
    (agg_method : string) (i : nat) (ex : list Z) : result (list (option pyfloat)) :=
  let ex_set := filter (λ x, x ∉ ex) label_set in
  let mask := (λ g, bool_decide (g = Some i)) <$> exclusion_groups in
  ls ← np_mask labels_lst mask;
  rs ← ratings_mask ratings mask;
  ex_weights ← optimise_weights list_of_set normal_equations ls rs ex_set agg_method;
  include_missing ex_weights ex_set full_range.

Definition fit_labels (full_range : list Z) (labels_lst : list (list Z))
    (ratings : ratings_arg) (exclude : list Z) (agg_method : string)
    : result weights_arg :=
  if decide (labels_lst = []) then Raise ValueError else
  let label_set : gset Z := list_to_set (mjoin labels_lst) in
  if decide (exclude = []) then
    weights ← optimise_weights list_of_set normal_equations labels_lst
                (ratings_values ratings) label_set agg_method;
    weights ← include_missing weights label_set full_range;
    Ok (Flat weights)
  else
    let exclusions := exclusion_combinations Z.ltb exclude in
    let exclusions :=
      py_sort (λ a b, bool_decide (length b < length a)) exclusions in
    exclusion_groups ← get_exclusion_groups labels_lst exclusions;
    weights ← for_each (λ weights '(i, ex),
      ex_weights ← fit_group full_range labels_lst ratings label_set
                     exclusion_groups agg_method i ex;
      Ok (weights ++ [ex_weights])) [] (imap pair exclusions);
    Ok (Piecewise weights).
End optimise_classes.

(** The labels of the chords of a batch, for the two optimisers. *)
Definition chord_intervals (pitches_lst : list (list Z)) : list (list Z) :=
  get_octave_intervals <$> pitches_lst.
Definition chord_classes (pitches_lst : list (list Z)) : list (list Z) :=
  (λ ps, interval_class <$> get_octave_intervals ps) <$> pitches_lst.

(** An interval class occurs in some chord of the batch. *)
Definition observed_class (pitches_lst : list (list Z)) (label : Z) : Prop :=
  ∃ pitches, pitches ∈ pitches_lst ∧
    label ∈ interval_class <$> get_octave_intervals pitches.

(** A listing that lists the elements of the set, and a solver that returns
    a weight for every column. *)
Definition faithful_listing (list_of_set : gset Z → list Z) : Prop :=
  ∀ (s : gset Z) x, x ∈ list_of_set s ↔ x ∈ s.
Definition full_solution
    (normal_equations : nat → list (list pyfloat) → list pyfloat → result (list pyfloat))
    : Prop :=
  ∀ m A ratings weights, normal_equations m A ratings = Ok weights → m ≤ length weights.

(** A batch of chords of different sizes, with its ratings. *)
Definition ragged_batch : list (list Z) := [[60; 62]; [60; 61; 62]; [60; 61]]%Z.
Definition ragged_batch_ratings : ratings_arg := RatingsArray [Fin 5; Fin 7; Fin 7].

(** A batch of two pairs, with its ratings. *)
Definition pair_batch : list (list Z) := [[60; 62]; [60; 61]]%Z.
Definition pair_batch_ratings : ratings_arg := RatingsArray [Fin 5; Fin 7].

(** The tables of interval classes fitted to [full_batch] with class 1
    excluded. *)
Definition full_batch_class_tables : list (list (option pyfloat)) :=
  [ <[2 := Some (Fin 5)]> (replicate 7 None);
    <[1 := Some (Fin 7)]> (<[2 := Some (Fin 7)]> (replicate 7 None)) ].

(** Chord by chord the second batch is the first one, moved by some number
    of semitones and with pitches moved by octaves. *)
Definition transposed_batch (pitches_lst pitches_lst' : list (list Z)) : Prop :=
  Forall2 (λ pitches pitches',
    ∃ t, Forall2 (λ p p', ((p' - p - t) `mod` 12 = 0)%Z) pitches pitches')
    pitches_lst pitches_lst'.

(** The call returns, or fails with an exception that the solver raised. *)
Definition fails_only_in
    (normal_equations : nat → list (list pyfloat) → list pyfloat → result (list pyfloat))
    {A} (r : result A) : Prop :=
  (∃ a, r = Ok a) ∨ (∃ m rows ratings e, normal_equations m rows ratings = Raise e ∧ r = Raise e).

(** A batch in which every interval class occurs, both among the chords
    without class 1 and among those with it; the ratings are the "sum"
    scores of the chords under the weights 1, 2, ..., 7. *)
Definition class_batch : list (list Z) :=
  [ [60; 72]; [60; 62]; [60; 63]; [60; 64]; [60; 65]; [60; 66];
    [60; 61]; [60; 61; 62]; [60; 61; 63]; [60; 61; 64]; [60; 61; 65];
    [60; 61; 66]; [60; 61; 72] ]%Z.
Definition class_batch_ratings : ratings_arg :=
  RatingsArray [Fin 1; Fin 3; Fin 4; Fin 5; Fin 6; Fin 7;
                Fin 2; Fin 7; Fin 9; Fin 11; Fin 13; Fin 15; Fin 5].
Definition class_batch_tables : list (list (option pyfloat)) :=
  [ [Some (Fin 1); None; Some (Fin 3); Some (Fin 4); Some (Fin 5);
     Some (Fin 6); Some (Fin 7)];
    [Some (Fin 1); Some (Fin 2); Some (Fin 3); Some (Fin 4); Some (Fin 5);
     Some (Fin 6); Some (Fin 7)] ].

(** * The scenarios of the specification, evaluated *)

(** A repeated pitch and an octave both count as interval 12. *)
Example unison_and_octave : get_octave_intervals [60; 60; 72]%Z = [12; 12; 12]%Z.
Proof. reflexivity. Qed.

(** The difference is taken in list order: 60 - 67 is 5 modulo 12. *)
Example descending_pair : get_octave_intervals [67; 60]%Z = [5]%Z.
Proof. reflexivity. Qed.

Example interval_class_values :
  interval_class <$> [1; 6; 11; 12]%Z = [1; 6; 1; 0]%Z.
Proof. reflexivity. Qed.

Example major_triad_histogram :
  count (get_octave_intervals [60; 64; 67]%Z) (range 1 13)
    = Ok [0; 0; 1; 1; 0; 0; 1; 0; 0; 0; 0; 0].
Proof. reflexivity. Qed.

(** The two tables [1, 2, None] and [None, None, 3] do not cover the
    combinations of their null positions. *)
Example incomplete_tables :
  check_weight_exclusions
    [[Some (Fin 1); Some (Fin 2); None]; [None; None; Some (Fin 3)]]
    = Raise (Exception "exclusion combinations are not complete").
Proof. vm_compute. reflexivity. Qed.

(** Tables of thirteen entries pass the validation; their thirteenth
    position is then looked up in the twelve counts before the length of
    the weights is checked. *)
Example thirteen_entry_tables :
  interval_consonance [60; 64]%Z
    (Piecewise [replicate 12 (Some (Fin 0)) ++ [None]; replicate 13 (Some (Fin 0))])
    "type" = Raise IndexError.
Proof. vm_compute. reflexivity. Qed.

(** Chords of equal size make [intervals_lst] two-dimensional, and the
    boolean mask of the groups no longer fits its rows. *)
Example equal_sized_chords :
  optimise_interval_weights ascending_list exact_normal_equations
    [[60; 64; 67]; [60; 61; 62]]%Z (RatingsArray [Fin 1; Fin 2]) [1]%Z "type"
    = Raise IndexError.
Proof. vm_compute. reflexivity. Qed.

(** * Facts about the helpers *)

Section result_facts.
Context {A B : Type}.

Lemma bind_Ok (m : result A) (f : A → result B) b :
  m ≫= f = Ok b ↔ ∃ a, m = Ok a ∧ f a = Ok b.
Proof.
  destruct m as [a|e]; simpl; split.
  - by exists a.
  - by intros (a' & [= <-] & ?).
  - done.
  - by intros (a' & [=] & ?).
Qed.

Lemma fmap_Ok (m : result A) (f : A → B) b :
  f <$> m = Ok b ↔ ∃ a, m = Ok a ∧ b = f a.
Proof.
  destruct m as [a|e]; simpl; split.
  - intros [= <-]. by exists a.
  - by intros (a' & [= <-] & ->).
  - done.
  - by intros (a' & [=] & ?).
Qed.
End result_facts.

Section py_sort_facts.
Context {A} (lt : A → A → bool).

Lemma py_insert_perm x l : py_insert lt x l ≡ₚ x :: l.
Proof.
  induction l as [|y l IH]; simpl; [done|].
  destruct (lt y x); [|done].
  by rewrite IH, Permutation_swap.
Qed.

Lemma py_sort_perm l : py_sort lt l ≡ₚ l.
Proof.
  induction l as [|x l IH]; simpl; [done|].
  by rewrite py_insert_perm, IH.
Qed.

Lemma py_sort_length l : length (py_sort lt l) = length l.
Proof. by rewrite py_sort_perm. Qed.

Lemma elem_of_py_sort x l : x ∈ py_sort lt l ↔ x ∈ l.
Proof. by rewrite py_sort_perm. Qed.

Context `{!SortLt lt}.

Lemma py_insert_sorted x l :
  StronglySorted (le_of lt) l → StronglySorted (le_of lt) (py_insert lt x l).
Proof.
  induction 1 as [|y l Hl IH Hy]; simpl.
  { repeat constructor. }
  destruct (lt y x) eqn:Hyx.
  - constructor; [done|].
    rewrite py_insert_perm. constructor; [|done].
    by apply lt_asym.
  - constructor; [by constructor|].
    constructor; [done|].
    eapply Forall_impl; [done|]. intros z Hz. unfold le_of in *.
    by eapply lt_le_trans.
Qed.

Lemma py_sort_sorted l : StronglySorted (le_of lt) (py_sort lt l).
Proof.
  induction l; simpl; [constructor|]. by apply py_insert_sorted.
Qed.

(** A list in which no element is [<] its predecessor is left alone. *)
Lemma py_sort_id l : StronglySorted (le_of lt) l → py_sort lt l = l.
Proof.
  induction 1 as [|x l Hl IH Hx]; simpl; [done|].
  rewrite IH. destruct Hx as [|y l Hy _]; simpl; [done|].
  unfold le_of in Hy. by rewrite Hy.
Qed.
End py_sort_facts.

Section total_sort_facts.
Context {A} (lt : A → A → bool) `{!TotalLt lt}.

Lemma py_sort_unique l1 l2 : l1 ≡ₚ l2 → py_sort lt l1 = py_sort lt l2.
Proof.
  intros Hp.
  apply (StronglySorted_unique_strong (le_of lt)).
  - intros x y _ _ Hxy Hyx. by apply (lt_antisym (lt:=lt)).
  - apply py_sort_sorted, _.
  - apply py_sort_sorted, _.
  - by rewrite !py_sort_perm.
Qed.

Lemma py_sort_eq_iff l1 l2 : py_sort lt l1 = py_sort lt l2 ↔ l1 ≡ₚ l2.
Proof.
  split; [|apply py_sort_unique].
  intros Heq. by rewrite <-(py_sort_perm lt l1), Heq, py_sort_perm.
Qed.
End total_sort_facts.

Global Instance nat_ltb_total : TotalLt Nat.ltb.
Proof.
  split; [split|]; intros *; rewrite ?Nat.ltb_lt, ?Nat.ltb_ge; lia.
Qed.

Global Instance Z_ltb_total : TotalLt Z.ltb.
Proof.
  split; [split|]; intros *; rewrite ?Z.ltb_lt, ?Z.ltb_ge; lia.
Qed.

Global Instance key_lt_sort {A} (key : A → nat) :
  SortLt (λ x y, bool_decide (key x < key y)).
Proof.
  split; intros *; rewrite ?bool_decide_eq_true, ?bool_decide_eq_false; lia.
Qed.

Global Instance key_gt_sort {A} (key : A → nat) :
  SortLt (λ x y, bool_decide (key y < key x)).
Proof.
  split; intros *; rewrite ?bool_decide_eq_true, ?bool_decide_eq_false; lia.
Qed.

Section list_lt_facts.
Context `{EqDecision A} (lt : A → A → bool) `{!TotalLt lt}.

Lemma list_lt_asym l1 l2 : list_lt lt l1 l2 = true → list_lt lt l2 l1 = false.
Proof.
  revert l2. induction l1 as [|x l1 IH]; intros [|y l2]; simpl; try done.
  repeat case_decide; simplify_eq; try done; [apply IH|apply lt_asym].
Qed.

Lemma list_lt_antisym l1 l2 :
  list_lt lt l1 l2 = false → list_lt lt l2 l1 = false → l1 = l2.
Proof.
  revert l2. induction l1 as [|x l1 IH]; intros [|y l2]; simpl; try done.
  repeat case_decide; simplify_eq.
  - intros. f_equal. eauto.
  - intros H1 H2. by destruct (lt_antisym (lt:=lt) x y).
Qed.

Lemma list_lt_le_trans l1 l2 l3 :
  list_lt lt l2 l1 = false → list_lt lt l3 l2 = false → list_lt lt l3 l1 = false.
Proof.
  revert l2 l3. induction l1 as [|x l1 IH]; intros [|y l2] [|z l3]; simpl; try done.
  repeat case_decide; simplify_eq; try done.
  - apply IH.
  - intros H1 H2. by destruct (lt_antisym (lt:=lt) x y).
  - apply lt_le_trans.
Qed.

Global Instance list_lt_total : TotalLt (list_lt lt).
Proof.
  split; [split|].
  - apply list_lt_asym.
  - apply list_lt_le_trans.
  - apply list_lt_antisym.
Qed.
End list_lt_facts.

Section combinations_facts.
Context {A : Type}.
Implicit Types l c : list A.

Lemma combinations_length l k : length (combinations l k) = binomial (length l) k.
Proof.
  revert k. induction l as [|x l IH]; intros [|k]; simpl; try done.
  by rewrite length_app, length_fmap, !IH.
Qed.

Lemma elem_of_combinations c l k :
  c ∈ combinations l k ↔ c `sublist_of` l ∧ length c = k.
Proof.
  revert c k. induction l as [|x l IH]; intros c [|k]; simpl.
  - rewrite list_elem_of_singleton. split; [intros ->; split; [constructor|done]|].
    intros [_ ?]. by apply nil_length_inv.
  - rewrite elem_of_nil. split; [done|]. intros [->%sublist_nil_r ?]. done.
  - rewrite list_elem_of_singleton. split.
    + intros ->. split; [apply sublist_nil_l|done].
    + intros [_ ?]. by apply nil_length_inv.
  - rewrite elem_of_app, list_elem_of_fmap. setoid_rewrite IH. split.
    + intros [(c' & -> & Hc' & <-)|[Hc <-]].
      * split; [by constructor|done].
      * split; [by constructor|done].
    + intros [Hc Hlen]. apply sublist_cons_r in Hc as [Hc|(c' & -> & Hc')].
      * by right.
      * left. exists c'. simpl in Hlen. split_and!; [done..|lia].
Qed.

Lemma combinations_elem_length c l k : c ∈ combinations l k → length c = k.
Proof. rewrite elem_of_combinations. by intros [_ ?]. Qed.
End combinations_facts.

Lemma choose_2 n : 2 * binomial n 2 = n * (n - 1).
Proof.
  assert (∀ m, binomial m 1 = m) as H1.
  { induction m as [|m IH]; simpl; [done|]. destruct m; simpl in *; lia. }
  induction n as [|n IH]; [done|].
  change (binomial (S n) 2) with (binomial n 1 + binomial n 2).
  rewrite H1. destruct n; simpl in *; lia.
Qed.

Lemma for_each_cons {A S} (body : S → A → result S) s x l :
  for_each body s (x :: l) = body s x ≫= λ s', for_each body s' l.
Proof. done. Qed.

Lemma bind_Ok_l {A B} (a : A) (f : A → result B) : Ok a ≫= f = f a.
Proof. done. Qed.

Section count_facts.
Implicit Types lst items : list Z.
Implicit Types counts : list nat.

Lemma list_index_Ok `{EqDecision A} (x : A) (items : list A) i :
  list_index x items = Ok i ↔
    items !! i = Some x ∧ ∀ j, j < i → items !! j ≠ Some x.
Proof.
  unfold list_index. destruct (list_find _ _) as [[i' y]|] eqn:Hfind.
  - apply list_find_Some in Hfind as (Hi & Hxy & Hlt). subst y. split.
    + intros [= <-]. split; [done|]. intros j Hj Hx. by eapply Hlt.
    + intros [Hi' Hlt']. f_equal.
      destruct (Nat.lt_trichotomy i i') as [?|[?|?]]; [|done|].
      * by destruct (Hlt i x).
      * by destruct (Hlt' i').
  - split; [done|]. intros [Hi _].
    apply list_find_None in Hfind. rewrite Forall_forall in Hfind.
    destruct (Hfind x); [|done]. by eapply list_elem_of_lookup_2.
Qed.

Lemma list_index_elem_of `{EqDecision A} (x : A) (items : list A) :
  x ∈ items → ∃ i, list_index x items = Ok i.
Proof.
  intros Hx. unfold list_index.
  destruct (list_find _ _) as [[i y]|] eqn:Hfind; [by eexists|].
  apply list_find_None in Hfind. rewrite Forall_forall in Hfind.
  by destruct (Hfind x).
Qed.

Lemma sum_list_alter_S counts i :
  i < length counts → sum_list (alter S i counts) = S (sum_list counts).
Proof.
  revert i. induction counts as [|c counts IH]; intros [|i] ?; simpl in *; try lia.
  specialize (IH i). unfold alter in IH. rewrite IH; lia.
Qed.

Lemma count_loop_sum items lst counts h :
  length counts = length items →
  for_each (count_body items) counts lst = Ok h →
  length h = length items ∧ sum_list h = sum_list counts + length lst.
Proof.
  revert counts. induction lst as [|x lst IH]; intros counts Hlen.
  { intros [= <-]. split; [done|simpl; lia]. }
  rewrite for_each_cons. intros (counts' & Hbody & Hrest)%bind_Ok.
  apply bind_Ok in Hbody as (i & [Hi _]%list_index_Ok & [= <-]).
  apply lookup_lt_Some in Hi.
  apply IH in Hrest as [-> ->]; [|by rewrite length_alter].
  rewrite sum_list_alter_S by lia. split; [done|simpl; lia].
Qed.

Lemma count_loop_Ok items lst counts :
  Forall (.∈ items) lst → ∃ h, for_each (count_body items) counts lst = Ok h.
Proof.
  intros Hall. revert counts.
  induction Hall as [|x lst Hx _ IH]; intros counts; [by eexists|].
  destruct (list_index_elem_of x items Hx) as [i Hi].
  rewrite for_each_cons.
  change (count_body items counts x) with (list_index x items ≫= λ i, Ok (alter S i counts)).
  rewrite Hi, !bind_Ok_l. apply IH.
Qed.

(** Each label's entry is the number of its occurrences. *)
Lemma count_loop_lookup items lst counts h i x :
  NoDup items →
  items !! i = Some x →
  for_each (count_body items) counts lst = Ok h →
  h !! i = (λ c, c + length (filter (x =.) lst)) <$> counts !! i.
Proof.
  intros Hnd Hi. revert counts.
  induction lst as [|y lst IH]; intros counts.
  { intros [= <-]. destruct (counts !! i); simpl; f_equal; lia. }
  rewrite for_each_cons. intros (counts' & Hbody & Hrest)%bind_Ok.
  apply bind_Ok in Hbody as (j & [Hj _]%list_index_Ok & [= <-]).
  rewrite (IH _ Hrest). rewrite filter_cons. case_decide as Hxy.
  - subst y. assert (j = i) as -> by by eapply NoDup_lookup.
    rewrite list_lookup_alter_eq. destruct (counts !! i); simpl; f_equal; lia.
  - rewrite list_lookup_alter_ne; [done|]. intros ->. congruence.
Qed.
End count_facts.

Section range_facts.
Lemma elem_of_range a b x : x ∈ range a b ↔ (a ≤ x < b)%Z.
Proof.
  unfold range. rewrite list_elem_of_fmap. setoid_rewrite elem_of_seq. split.
  - intros (i & -> & ?). lia.
  - intros ?. exists (Z.to_nat (x - a)). lia.
Qed.

Lemma NoDup_range a b : NoDup (range a b).
Proof.
  unfold range. apply NoDup_fmap_2; [|apply NoDup_seq].
  intros i j ?. lia.
Qed.

Lemma range_lookup a b i :
  (Z.of_nat i < b - a)%Z → range a b !! i = Some (a + Z.of_nat i)%Z.
Proof.
  intros ?. unfold range. rewrite list_lookup_fmap, lookup_seq_lt by lia. done.
Qed.
End range_facts.

Section octave_facts.
Implicit Types pitches : list Z.

Lemma get_octave_intervals_length pitches :
  length (get_octave_intervals pitches) = binomial (length pitches) 2.
Proof.
  unfold get_octave_intervals.
  by rewrite py_sort_length, !length_fmap, combinations_length.
Qed.

Lemma get_octave_intervals_bounds pitches :
  Forall (λ ivl, 1 ≤ ivl ≤ 12)%Z (get_octave_intervals pitches).
Proof.
  unfold get_octave_intervals. rewrite py_sort_perm.
  rewrite !Forall_fmap. apply Forall_true. intros c. simpl.
  pose proof (Z.mod_pos_bound (match c with [p1; p2] => p2 - p1 | _ => 0 end) 12)%Z.
  case_decide; lia.
Qed.

Lemma get_octave_intervals_short pitches :
  length pitches < 2 → get_octave_intervals pitches = [].
Proof. destruct pitches as [|? [|??]]; simpl; [done..|lia]. Qed.
End octave_facts.

(** C1: the histogram of the octave intervals over the labels 1..12 is
    defined for every pitch list, has twelve entries that sum to C(n, 2)
    for a list of n pitches, and its entry for a label is the number of
    pairs whose interval is that label; every interval lies in 1..12. *)
Theorem interval_histogram_sum (pitches : list Z) :
  let n := length pitches in
  let intervals := get_octave_intervals pitches in
  ∃ histogram,
    count intervals (range 1 13) = Ok histogram ∧
    length histogram = 12 ∧
    sum_list histogram = binomial n 2 ∧
    2 * sum_list histogram = n * (n - 1) ∧
    length intervals = binomial n 2 ∧
    Forall (λ ivl, 1 ≤ ivl ≤ 12)%Z intervals ∧
    ∀ i, i < 12 →
      histogram !! i = Some (length (filter (Z.of_nat (S i) =.) intervals)).
Proof.
  intros n intervals.
  pose proof (get_octave_intervals_bounds pitches) as Hbounds.
  pose proof (get_octave_intervals_length pitches) as Hlen.
  fold intervals in Hbounds, Hlen. fold n in Hlen.
  destruct (count_loop_Ok (range 1 13) intervals (replicate 12 0)) as [h Hh].
  { eapply Forall_impl; [done|]. intros x ?. apply elem_of_range. simpl in *. lia. }
  exists h. split; [done|].
  pose proof (count_loop_sum (range 1 13) intervals (replicate 12 0) h eq_refl Hh)
    as [Hh1 Hh2].
  change (sum_list (replicate 12 0)) with 0 in Hh2.
  split_and!; [done|lia|rewrite <-choose_2; lia|done|done|].
  intros i Hi.
  rewrite (count_loop_lookup (range 1 13) intervals (replicate 12 0) h i
             (Z.of_nat (S i))); [|apply NoDup_range| |done].
  - by rewrite lookup_replicate_2 by done.
  - rewrite range_lookup by lia. f_equal. lia.
Qed.

(** C7: on the intervals 1..12 the interval class is symmetric under
    k -> 12 - k (for k up to 11), maps 12 to 0 and lies in 0..6. *)
Theorem interval_class_symmetric (k : Z) :
  (1 ≤ k ≤ 12)%Z →
  ((k ≤ 11)%Z → interval_class k = interval_class (12 - k)) ∧
  interval_class 12 = 0%Z ∧
  (0 ≤ interval_class k ≤ 6)%Z.
Proof. unfold interval_class. lia. Qed.

Lemma interval_class_symmetric_witness :
  (1 ≤ 5 ≤ 12)%Z ∧
  (((5 ≤ 11)%Z → interval_class 5 = interval_class (12 - 5)) ∧
   interval_class 12 = 0%Z ∧
   (0 ≤ interval_class 5 ≤ 6)%Z).
Proof. split; [lia|apply (interval_class_symmetric 5); lia]. Defined.

(** C5, as stated: the intervals of the major triad are not 3, 4, 5. *)
Lemma major_triad_intervals_not_3_4_5 :
  get_octave_intervals [60; 64; 67]%Z ≠ [3; 4; 5]%Z.
Proof. vm_compute. discriminate. Qed.

(** C5, amended: the octave intervals of 60, 64, 67 are 3, 4, 7 in
    ascending order, and with weight 1 on interval 4 only the score under
    "type" is one third. *)
Theorem major_triad_score :
  get_octave_intervals [60; 64; 67]%Z = [3; 4; 7]%Z ∧
  ∃ q, interval_consonance [60; 64; 67]%Z (Flat major_third_weights) "type" = Ok (Fin q) ∧
       (q == 1 # 3)%Q.
Proof.
  split; [done|]. eexists. split; [vm_compute; reflexivity|]. done.
Qed.

(** C6, as stated: the pair [2] does not come before [1, 2]. *)
Lemma exclusion_combinations_1_2_order :
  exclusion_combinations Z.ltb [1; 2]%Z ≠ [[]; [1]; [2]; [1; 2]]%Z.
Proof. vm_compute. discriminate. Qed.

(** C6, amended: for labels a < b the combinations of [a, b] are
    [], [a], [a, b], [b], in Python's list order. *)
Theorem exclusion_combinations_pair (a b : Z) :
  (a < b)%Z →
  exclusion_combinations Z.ltb [a; b] = [[]; [a]; [a; b]; [b]].
Proof.
  intros Hab.
  assert ((a <? b)%Z = true) as Hlt by by apply Z.ltb_lt.
  assert ((b <? a)%Z = false) as Hgt by (apply Z.ltb_ge; lia).
  unfold exclusion_combinations. cbn. rewrite Hgt. cbn.
  repeat (case_decide; [lia|]).
  rewrite ?Hlt, ?Hgt. cbn.
  repeat (case_decide; [|done]). rewrite ?Hlt, ?Hgt. cbn.
  done.
Qed.

Lemma exclusion_combinations_pair_witness :
  (1 < 2)%Z ∧ exclusion_combinations Z.ltb [1; 2]%Z = [[]; [1]; [1; 2]; [2]]%Z.
Proof. split; [lia|apply (exclusion_combinations_pair 1 2); lia]. Defined.
Section score_facts.
Implicit Types weights : list (option pyfloat).

Lemma interval_consonance_score pitches wa agg_method :
    interval_consonance pitches wa agg_method =
      counts ← count (get_octave_intervals pitches) (range 1 13);
      consonance_score (length (get_octave_intervals pitches)) counts 12
        "weights must be of length 12" wa agg_method.
Proof. done. Qed.

Lemma interval_class_consonance_score pitches wa agg_method :
    interval_class_consonance pitches wa agg_method =
      counts ← count (interval_class <$> get_octave_intervals pitches) (range 0 7);
      consonance_score (length (get_octave_intervals pitches)) counts 7
        "weights must be of length 7" wa agg_method.
Proof. done. Qed.

Lemma np_inner_zeros xs weights :
  Forall (λ x, ∃ a, x = Fin a ∧ (a == 0)%Q) xs →
  Forall finite_weight weights →
  length xs = length weights →
  ∃ q, np_inner xs weights = Ok (Fin q) ∧ (q == 0)%Q.
Proof.
  intros Hxs. revert weights.
  induction Hxs as [|x xs (a & -> & Ha) _ IH]; intros [|w weights] Hw Hlen;
    simplify_eq/=.
  { by exists 0%Q. }
  apply Forall_cons in Hw as [[b ->] Hw].
  destruct (IH weights Hw) as (q & -> & Hq); [done|]. simpl.
  eexists. split; [done|]. rewrite Ha, Hq. ring.
Qed.

Lemma np_inner_nans xs weights :
  Forall (NaN =.) xs → xs ≠ [] →
  Forall is_Some weights →
  length xs = length weights →
  np_inner xs weights = Ok NaN.
Proof.
  intros Hxs. revert weights.
  induction Hxs as [|x xs <- Hxs' IH]; intros [|w weights] Hne Hw Hlen;
    simplify_eq/=.
  apply Forall_cons in Hw as [[b ->] Hw].
  destruct xs as [|x xs].
  - destruct weights; [|done]. simpl. by destruct b.
  - rewrite IH by done. simpl. by destruct b.
Qed.

Lemma consonance_score_sum n_intervals counts n_labels msg weights :
  weights ≠ [] → length weights = n_labels →
  consonance_score n_intervals counts n_labels msg (Flat weights) "sum"
    = np_inner (num_of_count <$> counts) weights.
Proof.
  intros Hne Hlen. unfold consonance_score.
  destruct weights as [|w weights]; [done|]. unfold resolve_weights.
  rewrite !bind_Ok_l, decide_False by (intros ?; congruence).
  destruct (np_inner (num_of_count <$> counts) _); reflexivity.
Qed.

Lemma consonance_score_type n_intervals counts n_labels msg weights :
  weights ≠ [] → length weights = n_labels →
  consonance_score n_intervals counts n_labels msg (Flat weights) "type"
    = np_inner ((λ c, count_div c n_intervals) <$> counts) weights.
Proof.
  intros Hne Hlen. unfold consonance_score.
  destruct weights as [|w weights]; [done|]. unfold resolve_weights.
  rewrite !bind_Ok_l, decide_False by (intros ?; congruence).
  destruct (np_inner ((λ c, count_div c n_intervals) <$> counts) _); reflexivity.
Qed.

(** An aggregation method other than "sum" and "type" leaves [score]
    unbound, unless an earlier step has failed already, whatever the
    method. *)
Lemma consonance_score_unknown n_intervals counts n_labels msg wa agg_method :
  agg_method ≠ "sum" → agg_method ≠ "type" →
  consonance_score n_intervals counts n_labels msg wa agg_method
    = Raise UnboundLocalError ∨
  ∃ e, ∀ agg_method',
    consonance_score n_intervals counts n_labels msg wa agg_method' = Raise e.
Proof.
  intros Hsum Htype. unfold consonance_score.
  destruct (resolve_weights counts wa) as [[weights|]|e]; simpl.
  - case_decide; [right; exists (Exception msg); by intros|].
    left. rewrite decide_False by done. simpl. by rewrite decide_False by done.
  - right. exists TypeError. by intros.
  - right. exists e. by intros.
Qed.
End score_facts.

(** C10: with an aggregation method other than "sum" and "type" neither
    scoring function returns a score: the call ends in the unbound-result
    failure, unless an earlier step fails, and then it fails in the same
    way for every aggregation method. *)
Theorem unknown_agg_method_fails (agg_method : string) (pitches : list Z)
    (weights : weights_arg) :
  agg_method ≠ "sum" → agg_method ≠ "type" →
  ((∀ score, interval_consonance pitches weights agg_method ≠ Ok score) ∧
   (interval_consonance pitches weights agg_method = Raise UnboundLocalError ∨
    ∃ e, ∀ agg_method', interval_consonance pitches weights agg_method' = Raise e)) ∧
  ((∀ score, interval_class_consonance pitches weights agg_method ≠ Ok score) ∧
   (interval_class_consonance pitches weights agg_method = Raise UnboundLocalError ∨
    ∃ e, ∀ agg_method',
      interval_class_consonance pitches weights agg_method' = Raise e)).
Proof.
  intros Hsum Htype.
  assert (∀ r : string → result pyfloat,
    (r agg_method = Raise UnboundLocalError ∨ ∃ e, ∀ a, r a = Raise e) →
    (∀ score, r agg_method ≠ Ok score) ∧
    (r agg_method = Raise UnboundLocalError ∨ ∃ e, ∀ a, r a = Raise e)) as Hr.
  { intros r Hcases. split; [|done].
    intros score. destruct Hcases as [->|[e ->]]; done. }
  split.
  - apply (Hr (interval_consonance pitches weights)).
    setoid_rewrite interval_consonance_score.
    destruct (count _ _) as [counts|e]; simpl; [|by eauto].
    by apply consonance_score_unknown.
  - apply (Hr (interval_class_consonance pitches weights)).
    setoid_rewrite interval_class_consonance_score.
    destruct (count _ _) as [counts|e]; simpl; [|by eauto].
    by apply consonance_score_unknown.
Qed.

Lemma unknown_agg_method_fails_witness :
  let agg_method := "mean" in
  let pitches := [60; 64; 67]%Z in
  let weights := Flat unit_weights in
  ((∀ score, interval_consonance pitches weights agg_method ≠ Ok score) ∧
   (interval_consonance pitches weights agg_method = Raise UnboundLocalError ∨
    ∃ e, ∀ agg_method', interval_consonance pitches weights agg_method' = Raise e)) ∧
  ((∀ score, interval_class_consonance pitches weights agg_method ≠ Ok score) ∧
   (interval_class_consonance pitches weights agg_method = Raise UnboundLocalError ∨
    ∃ e, ∀ agg_method',
      interval_class_consonance pitches weights agg_method' = Raise e)).
Proof.
  apply (unknown_agg_method_fails "mean" [60; 64; 67]%Z (Flat unit_weights)); done.
Defined.

(** C2, as stated: a single pitch raises nothing; the score is NaN under
    "type" and 0 under "sum". *)
Lemma single_pitch_returns :
  interval_consonance [60]%Z (Flat unit_weights) "type" = Ok NaN ∧
  interval_consonance [60]%Z (Flat unit_weights) "sum" = Ok (Fin 0).
Proof. split; vm_compute; reflexivity. Qed.

(** C2, amended: for fewer than two pitches the interval reduction returns
    the empty list and raises nothing; with a flat table of twelve finite
    weights the score is 0 under "sum" and NaN, from 0/0, under "type". *)
Theorem short_pitch_list_scores (pitches : list Z) (weights : list (option pyfloat)) :
  length pitches < 2 →
  length weights = 12 →
  Forall finite_weight weights →
  get_octave_intervals pitches = [] ∧
  count (get_octave_intervals pitches) (range 1 13) = Ok (replicate 12 0) ∧
  (∃ q, interval_consonance pitches (Flat weights) "sum" = Ok (Fin q) ∧ (q == 0)%Q) ∧
  interval_consonance pitches (Flat weights) "type" = Ok NaN.
Proof.
  intros Hshort Hlen Hfin. rewrite !interval_consonance_score.
  rewrite (get_octave_intervals_short pitches Hshort).
  split; [done|]. split; [done|].
  change (count [] (range 1 13)) with (Ok (replicate 12 0)). rewrite !bind_Ok_l.
  assert (weights ≠ []) as Hne by by intros ->.
  rewrite consonance_score_sum, consonance_score_type by done.
  split.
  - apply np_inner_zeros; [|done|by rewrite Hlen].
    apply Forall_fmap, Forall_replicate. by eexists.
  - apply np_inner_nans; [| | |by rewrite Hlen].
    + apply Forall_fmap, Forall_replicate. done.
    + done.
    + eapply Forall_impl; [done|]. by intros ? [? ->].
Qed.

Lemma short_pitch_list_scores_witness :
  get_octave_intervals [60]%Z = [] ∧
  count (get_octave_intervals [60]%Z) (range 1 13) = Ok (replicate 12 0) ∧
  (∃ q, interval_consonance [60]%Z (Flat unit_weights) "sum" = Ok (Fin q) ∧ (q == 0)%Q) ∧
  interval_consonance [60]%Z (Flat unit_weights) "type" = Ok NaN.
Proof.
  apply (short_pitch_list_scores [60]%Z unit_weights).
  - simpl. lia.
  - reflexivity.
  - unfold unit_weights. apply Forall_replicate. by eexists.
Defined.

Section sublist_facts.
Context `{EqDecision A}.
Implicit Types l c : list A.

Lemma filter_iff_elem_of (P1 P2 : A → Prop)
    `{!∀ x, Decision (P1 x), !∀ x, Decision (P2 x)} l :
  (∀ x, x ∈ l → P1 x ↔ P2 x) → filter P1 l = filter P2 l.
Proof.
  induction l as [|y l IH]; intros Hiff; [done|].
  rewrite !filter_cons, IH by (intros; apply Hiff; by right).
  apply decide_ext, Hiff. left.
Qed.

(** A subsequence of a duplicate-free list is determined by its elements. *)
Lemma sublist_filter_id c l :
  NoDup l → c `sublist_of` l → filter (.∈ c) l = c.
Proof.
  intros Hnd Hsub. induction Hsub as [|x c l Hsub IH|x c l Hsub IH].
  - done.
  - apply NoDup_cons in Hnd as [Hx Hnd].
    rewrite filter_cons_True by left. f_equal.
    transitivity (filter (.∈ c) l); [|by apply IH]. apply filter_iff_elem_of.
    intros y Hy. rewrite elem_of_cons.
    split; [|by right]. intros [->|?]; done.
  - apply NoDup_cons in Hnd as [Hx Hnd].
    rewrite filter_cons_False; [by apply IH|].
    intros Hxc. apply Hx. by eapply sublist_subseteq.
Qed.

Lemma sublist_perm_eq c1 c2 l :
  NoDup l → c1 `sublist_of` l → c2 `sublist_of` l → c1 ≡ₚ c2 → c1 = c2.
Proof.
  intros Hnd H1 H2 Hp.
  rewrite <-(sublist_filter_id c1 l), <-(sublist_filter_id c2 l) by done.
  apply list_filter_iff. intros x. by rewrite Hp.
Qed.

Lemma NoDup_combinations l k : NoDup l → NoDup (combinations l k).
Proof.
  intros Hnd. revert k.
  induction Hnd as [|x l Hx Hnd IH]; intros [|k]; simpl;
    try apply NoDup_singleton; try apply NoDup_nil_2.
  apply NoDup_app. split_and!.
  - apply NoDup_fmap_2; [|done]. by intros ?? [=].
  - intros c (c' & -> & _)%list_elem_of_fmap [Hsub _]%elem_of_combinations.
    apply Hx. eapply sublist_subseteq; [done|]. left.
  - done.
Qed.
End sublist_facts.

Section strictly_sorted_facts.
Context {A} (lt : A → A → bool) `{!TotalLt lt}.
Implicit Types s : list A.

Lemma lt_true_iff x y : lt x y = true ↔ le_of lt x y ∧ x ≠ y.
Proof.
  unfold le_of. split.
  - intros Hxy. split; [by apply lt_asym|].
    intros ->. apply lt_asym in Hxy as Hyx. congruence.
  - intros [Hyx Hne]. destruct (lt x y) eqn:Hxy; [done|].
    destruct Hne. by apply (lt_antisym (lt:=lt)).
Qed.

Lemma strictly_sorted_iff s :
  strictly_sorted lt s ↔ StronglySorted (le_of lt) s ∧ NoDup s.
Proof.
  unfold strictly_sorted. induction s as [|x s IH].
  { split; [split|]; constructor. }
  rewrite !StronglySorted_cons, NoDup_cons, IH, !Forall_forall.
  setoid_rewrite lt_true_iff. split.
  - intros (Hx & ? & ?). split_and!; [|done| |done].
    + intros y Hy. by destruct (Hx y Hy).
    + intros Hxs. by destruct (Hx x Hxs).
  - intros ((Hx & ?) & Hxs & ?). split_and!; [|done..].
    intros y Hy. split; [by apply Hx|]. by intros ->.
Qed.

Lemma py_sort_strictly_sorted s : NoDup s → strictly_sorted lt (py_sort lt s).
Proof.
  intros Hnd. apply strictly_sorted_iff. split.
  - apply py_sort_sorted, _.
  - by rewrite py_sort_perm.
Qed.

Lemma py_sort_strictly_sorted_id s : strictly_sorted lt s → py_sort lt s = s.
Proof. intros [? _]%strictly_sorted_iff. by apply (py_sort_id lt). Qed.
End strictly_sorted_facts.

Section exclusion_combinations_facts.
Context `{EqDecision A} (lt : A → A → bool) `{!TotalLt lt}.
Implicit Types s c ixs : list A.

(** The list [output] of [exclusion_combinations] before it is sorted. *)
Local Abbreviation output ixs :=
  ([] :: (py_sort lt <$> (i ← seq 1 (length ixs); combinations ixs i))).

Lemma exclusion_combinations_unsorted ixs :
  exclusion_combinations lt ixs = py_sort (list_lt lt) (output ixs).
Proof. done. Qed.

Lemma elem_of_output s ixs :
  NoDup ixs → s ∈ output ixs ↔ strictly_sorted lt s ∧ s ⊆ ixs.
Proof.
  intros Hnd. rewrite elem_of_cons, list_elem_of_fmap.
  setoid_rewrite list_elem_of_bind. setoid_rewrite elem_of_combinations. split.
  - intros [->|(c & -> & i & [Hsub Hlen] & _)].
    { split; [constructor|]. by intros ? ?%elem_of_nil. }
    split.
    + apply py_sort_strictly_sorted; [done|]. by eapply sublist_NoDup.
    + intros x. rewrite elem_of_py_sort. by apply sublist_subseteq.
  - intros [Hs Hsub]. destruct s as [|x s]; [by left|right].
    apply strictly_sorted_iff in Hs as Hs'; [|done]. destruct Hs' as [_ Hnds].
    exists (filter (.∈ x :: s) ixs).
    assert (filter (.∈ x :: s) ixs ≡ₚ x :: s) as Hp.
    { apply NoDup_Permutation; [by apply NoDup_filter|done|].
      intros y. rewrite list_elem_of_filter.
      split; [by intros [??]|]. intros Hy. split; [done|by apply Hsub]. }
    split.
    { by rewrite (py_sort_unique lt _ _ Hp), py_sort_strictly_sorted_id. }
    exists (length (x :: s)). split_and!.
    + apply sublist_filter.
    + by rewrite Hp.
    + apply elem_of_seq. split; [simpl; lia|].
      rewrite <-Hp. pose proof (sublist_length _ _ (sublist_filter (.∈ x :: s) ixs)).
      lia.
Qed.

Lemma NoDup_output ixs : NoDup ixs → NoDup (output ixs).
Proof.
  intros Hnd. apply NoDup_cons. split.
  - intros (c & Hc%(f_equal length) & Hin)%list_elem_of_fmap.
    apply list_elem_of_bind in Hin
      as (i & [_ Hlen]%elem_of_combinations & Hi%elem_of_seq).
    rewrite py_sort_length in Hc. simpl in Hc. lia.
  - apply NoDup_fmap_2_strong.
    + intros c1 c2 (i1 & [H1 _]%elem_of_combinations & _)%list_elem_of_bind
        (i2 & [H2 _]%elem_of_combinations & _)%list_elem_of_bind Heq.
      apply (sublist_perm_eq c1 c2 ixs); [done..|].
      by apply (py_sort_eq_iff lt).
    + apply NoDup_bind; [| |apply NoDup_seq].
      * intros i1 i2 c _ _ <-%combinations_elem_length <-%combinations_elem_length.
        done.
      * intros i _. by apply NoDup_combinations.
Qed.

Lemma elem_of_exclusion_combinations s ixs :
  NoDup ixs →
  s ∈ exclusion_combinations lt ixs ↔ strictly_sorted lt s ∧ s ⊆ ixs.
Proof.
  intros Hnd. rewrite exclusion_combinations_unsorted, elem_of_py_sort.
  by apply elem_of_output.
Qed.

Lemma NoDup_exclusion_combinations ixs :
  NoDup ixs → NoDup (exclusion_combinations lt ixs).
Proof.
  intros Hnd. rewrite exclusion_combinations_unsorted, py_sort_perm.
  by apply NoDup_output.
Qed.

(** Sorting a list of signatures yields the sorted combinations exactly
    when the signatures are the combinations, each one once. *)
Lemma py_sort_eq_exclusion_combinations (sigs : list (list A)) ixs :
  NoDup ixs →
  py_sort (list_lt lt) sigs = exclusion_combinations lt ixs ↔
    NoDup sigs ∧ ∀ s, s ∈ sigs ↔ strictly_sorted lt s ∧ s ⊆ ixs.
Proof.
  intros Hnd. rewrite exclusion_combinations_unsorted.
  rewrite (py_sort_eq_iff (list_lt lt)). split.
  - intros Hp. split.
    + rewrite Hp. by apply NoDup_output.
    + intros s. rewrite Hp. by apply elem_of_output.
  - intros [Hnds Hs]. apply NoDup_Permutation; [done|by apply NoDup_output|].
    intros s. rewrite Hs. symmetry. by apply elem_of_output.
Qed.
End exclusion_combinations_facts.

Section null_ixs_facts.
Implicit Types weights : list (option pyfloat).

Local Abbreviation unsorted_ixs weights :=
  ((filter (λ iw : nat * option pyfloat, iw.2 = None) (imap pair weights)).*1).

Lemma elem_of_unsorted_ixs weights i :
  i ∈ unsorted_ixs weights ↔ weights !! i = Some None.
Proof.
  rewrite list_elem_of_fmap. setoid_rewrite list_elem_of_filter.
  setoid_rewrite elem_of_lookup_imap. split.
  - intros ([i' w] & -> & Hw & j & w' & [= -> ->] & Hj). simpl in *. by subst.
  - intros Hi. exists (i, None). split_and!; [done..|]. by exists i, None.
Qed.

Lemma unsorted_ixs_sorted weights k :
  strictly_sorted Nat.ltb
    (filter (λ iw : nat * option pyfloat, iw.2 = None)
       (imap (λ i w, (k + i, w)) weights)).*1.
Proof.
  revert k. induction weights as [|w weights IH]; intros k; [constructor|].
  rewrite imap_cons.
  assert (strictly_sorted Nat.ltb
    (filter (λ iw : nat * option pyfloat, iw.2 = None)
       (imap ((λ i w, (k + i, w)) ∘ S) weights)).*1) as Htail.
  { erewrite imap_ext; [apply (IH (S k))|]. intros i w' _. simpl. f_equal. lia. }
  rewrite filter_cons. case_decide; [|done].
  rewrite fmap_cons. constructor; [done|].
  apply Forall_forall. intros j (iw & -> & [_ Hin]%list_elem_of_filter)%list_elem_of_fmap.
  apply elem_of_lookup_imap in Hin as (i & w' & -> & _). simpl.
  apply Nat.ltb_lt. lia.
Qed.

Lemma null_ixs_strictly_sorted weights : strictly_sorted Nat.ltb (null_ixs weights).
Proof.
  pose proof (unsorted_ixs_sorted weights 0) as Hs.
  change (strictly_sorted Nat.ltb (unsorted_ixs weights)) in Hs.
  unfold null_ixs. by rewrite (py_sort_strictly_sorted_id Nat.ltb _ Hs).
Qed.

Lemma elem_of_null_ixs weights i : i ∈ null_ixs weights ↔ weights !! i = Some None.
Proof. unfold null_ixs. by rewrite elem_of_py_sort, elem_of_unsorted_ixs. Qed.

Lemma null_ixs_lt_length weights i : i ∈ null_ixs weights → i < length weights.
Proof. rewrite elem_of_null_ixs. apply lookup_lt_Some. Qed.
End null_ixs_facts.

Section first_occurrences_facts.
Implicit Types ixs : list nat.

Lemma first_occurrences_loop acc ixs :
  let r := foldl (λ ixs ix, if decide (ix ∈ ixs) then ixs else ixs ++ [ix]) acc ixs in
  NoDup acc → NoDup r ∧ ∀ x, x ∈ r ↔ x ∈ acc ∨ x ∈ ixs.
Proof.
  revert acc. induction ixs as [|ix ixs IH]; intros acc r Hnd; simpl in *.
  { split; [done|]. intros x. rewrite elem_of_nil. tauto. }
  subst r. case_decide as Hin.
  - destruct (IH acc Hnd) as [Hr Hx]. split; [done|].
    intros x. rewrite Hx, elem_of_cons. split; [tauto|]. intros [?|[->|?]]; tauto.
  - destruct (IH (acc ++ [ix])) as [Hr Hx].
    { apply NoDup_app. split_and!; [done| |apply NoDup_singleton].
      intros x ? ->%list_elem_of_singleton. done. }
    split; [done|]. intros x.
    rewrite Hx, elem_of_app, list_elem_of_singleton, elem_of_cons. tauto.
Qed.

Lemma NoDup_first_occurrences ixs : NoDup (first_occurrences ixs).
Proof. apply first_occurrences_loop, NoDup_nil_2. Qed.

Lemma elem_of_first_occurrences ixs x : x ∈ first_occurrences ixs ↔ x ∈ ixs.
Proof.
  destruct (first_occurrences_loop [] ixs) as [_ Hx]; [apply NoDup_nil_2|].
  unfold first_occurrences. rewrite Hx, elem_of_nil. tauto.
Qed.
End first_occurrences_facts.

Section check_weight_exclusions_facts.
Implicit Types weights_lsts : list (list (option pyfloat)).

Local Abbreviation length_check size_first :=
  (for_each (λ (_ : ()) (lst : list (option pyfloat)),
     if decide (length lst ≠ size_first)
     then Raise (Exception "weights lists must all have the same length")
     else Ok ()) ()).

Lemma length_check_Ok size_first rest :
  Forall (λ lst, length lst = size_first) rest → length_check size_first rest = Ok ().
Proof.
  induction 1 as [|lst rest Hlst _ IH]; [done|].
  rewrite for_each_cons, decide_False by (by intros ?). by rewrite bind_Ok_l.
Qed.

Lemma length_check_Raise size_first rest :
  ¬ Forall (λ lst, length lst = size_first) rest →
  length_check size_first rest
    = Raise (Exception "weights lists must all have the same length").
Proof.
  induction rest as [|lst rest IH]; intros Hnot.
  { destruct Hnot. constructor. }
  rewrite for_each_cons. case_decide as Hlst; [done|]. rewrite bind_Ok_l.
  apply IH. intros Hrest. apply Hnot. constructor; [|done].
  by destruct (decide (length lst = size_first)).
Qed.

Lemma same_lengths_cons first rest :
  same_lengths (first :: rest) ↔ Forall (λ lst, length lst = length first) rest.
Proof.
  unfold same_lengths. rewrite Forall_forall. split.
  - intros Hsame lst Hlst. apply Hsame; [by right|left].
  - intros Hall w1 w2 [->|H1]%elem_of_cons [->|H2]%elem_of_cons;
      rewrite ?(Hall w1), ?(Hall w2); done.
Qed.

(** The positions collected by the loop of lines 79-83 are those at which
    some table has a null. *)
Lemma elem_of_signature_union weights_lsts j :
  j ∈ first_occurrences
        (mjoin (py_sort (list_lt Nat.ltb) (null_ixs <$> weights_lsts)))
  ↔ exclusion_union weights_lsts j.
Proof.
  rewrite elem_of_first_occurrences, py_sort_perm, list_elem_of_join.
  setoid_rewrite list_elem_of_fmap. unfold exclusion_union. split.
  - intros (s & Hj & weights & -> & Hw). exists weights.
    by rewrite <-elem_of_null_ixs.
  - intros (weights & Hw & Hj). exists (null_ixs weights).
    rewrite elem_of_null_ixs. split; [done|]. by exists weights.
Qed.

(** The comparison of line 85 succeeds exactly when every combination of
    the null positions is the signature of one table. *)
Lemma sorted_signatures_complete weights_lsts :
  py_sort (list_lt Nat.ltb) (null_ixs <$> weights_lsts)
    = exclusion_combinations Nat.ltb
        (first_occurrences
           (mjoin (py_sort (list_lt Nat.ltb) (null_ixs <$> weights_lsts))))
  ↔ one_table_per_combination weights_lsts.
Proof.
  rewrite py_sort_eq_exclusion_combinations
    by (apply _ || apply NoDup_first_occurrences).
  assert (∀ s, (strictly_sorted Nat.ltb s ∧
                s ⊆ first_occurrences
                      (mjoin (py_sort (list_lt Nat.ltb) (null_ixs <$> weights_lsts))))
               ↔ is_exclusion_combination weights_lsts s) as Hcomb.
  { intros s. unfold is_exclusion_combination.
    by setoid_rewrite <-elem_of_signature_union. }
  setoid_rewrite Hcomb.
  assert (∀ s i, has_signature weights_lsts s i ↔
                 (null_ixs <$> weights_lsts) !! i = Some s) as Hsig.
  { intros s i. unfold has_signature. rewrite list_lookup_fmap.
    destruct (weights_lsts !! i) as [weights|]; simpl.
    - split; [by intros (? & [= <-] & ->)|]. intros [= <-]. by eexists.
    - split; [by intros (? & [=] & _)|done]. }
  unfold one_table_per_combination. setoid_rewrite Hsig.
  assert (∀ s, s ∈ null_ixs <$> weights_lsts →
               is_exclusion_combination weights_lsts s) as Hin.
  { intros s (weights & -> & Hw)%list_elem_of_fmap. split.
    - apply null_ixs_strictly_sorted.
    - intros j Hj. exists weights. by rewrite <-elem_of_null_ixs. }
  split.
  - intros [Hnd Hs] s [i Hi]%Hs%list_elem_of_lookup. exists i. split; [done|].
    intros i' Hi'. by eapply NoDup_lookup.
  - intros Hone. split.
    + apply NoDup_alt. intros i j s Hi Hj.
      destruct (Hone s) as (k & _ & Hk).
      { apply Hin. by eapply list_elem_of_lookup_2. }
      by rewrite (Hk i), (Hk j).
    + intros s. split; [apply Hin|].
      intros (i & Hi & _)%Hone. by eapply list_elem_of_lookup_2.
Qed.

Lemma check_weight_exclusions_cons first rest :
  same_lengths (first :: rest) →
  (one_table_per_combination (first :: rest) →
   check_weight_exclusions (first :: rest) = Ok ()) ∧
  (¬ one_table_per_combination (first :: rest) →
   check_weight_exclusions (first :: rest)
     = Raise (Exception "exclusion combinations are not complete")).
Proof.
  intros Hsame%same_lengths_cons. unfold check_weight_exclusions.
  rewrite bind_Ok_l. change (tail (first :: rest)) with rest.
  rewrite length_check_Ok, bind_Ok_l by done.
  pose proof (sorted_signatures_complete (first :: rest)) as Hiff.
  case_decide; split; tauto.
Qed.

Lemma check_weight_exclusions_lengths first rest :
  ¬ same_lengths (first :: rest) →
  check_weight_exclusions (first :: rest)
    = Raise (Exception "weights lists must all have the same length").
Proof.
  rewrite same_lengths_cons. intros Hnot. unfold check_weight_exclusions.
  rewrite bind_Ok_l. change (tail (first :: rest)) with rest.
  by rewrite length_check_Raise.
Qed.
End check_weight_exclusions_facts.

Lemma check_weight_exclusions_cases (weights_lsts : list (list (option pyfloat))) :
  (check_weight_exclusions weights_lsts = Ok () ↔
     same_lengths weights_lsts ∧ one_table_per_combination weights_lsts) ∧
  (weights_lsts ≠ [] → same_lengths weights_lsts →
   ¬ one_table_per_combination weights_lsts →
   check_weight_exclusions weights_lsts
     = Raise (Exception "exclusion combinations are not complete")).
Proof.
  destruct weights_lsts as [|first rest].
  { split; [|done]. split; [done|]. intros [_ Hone].
    destruct (Hone []) as (i & (weights & Hi & _) & _); [|done].
    split; [constructor|]. by intros j ?%elem_of_nil. }
  split.
  - split.
    + intros Hok. destruct (decide (Forall (λ lst, length lst = length first) rest))
        as [Hsame%same_lengths_cons|Hsame].
      * split; [done|].
        pose proof (sorted_signatures_complete (first :: rest)) as Hiff.
        apply Hiff. revert Hok. unfold check_weight_exclusions.
        apply same_lengths_cons in Hsame.
        rewrite bind_Ok_l. change (tail (first :: rest)) with rest.
        rewrite length_check_Ok, bind_Ok_l by done.
        by case_decide.
      * rewrite check_weight_exclusions_lengths in Hok; [done|].
        by rewrite same_lengths_cons.
    + intros [Hsame Hone]. by apply check_weight_exclusions_cons.
  - intros _ Hsame Hnot. by apply check_weight_exclusions_cons.
Qed.

Lemma check_weight_exclusions_spec (weights_lsts : list (list (option pyfloat))) :
  check_weight_exclusions weights_lsts = Ok () ↔
    same_lengths weights_lsts ∧ one_table_per_combination weights_lsts.
Proof. apply check_weight_exclusions_cases. Qed.

(** C4: the validation succeeds exactly when all tables have the same
    length and every combination of the null positions found in the tables
    (every sorted subset of their union) is the signature of exactly one
    table; with tables of equal length, a missing or repeated combination
    raises the incomplete-coverage error. *)
Theorem check_weight_exclusions_iff (weights_lsts : list (list (option pyfloat))) :
  (check_weight_exclusions weights_lsts = Ok () ↔
     same_lengths weights_lsts ∧ one_table_per_combination weights_lsts) ∧
  (weights_lsts ≠ [] → same_lengths weights_lsts →
   ¬ one_table_per_combination weights_lsts →
   check_weight_exclusions weights_lsts
     = Raise (Exception "exclusion combinations are not complete")).
Proof. apply check_weight_exclusions_cases. Qed.

Section inclusion_facts.
Implicit Types counts ixs order : list nat.
Implicit Types weights_lsts : list (list (option pyfloat)).

Lemma any_positive_zero counts ixs :
  zero_at counts ixs → any_positive counts ixs = Ok false.
Proof.
  induction 1 as [|j ixs Hj _ IH]; simpl; [done|]. rewrite Hj.
  by rewrite decide_False by lia.
Qed.

Lemma any_positive_false counts ixs :
  any_positive counts ixs = Ok false → zero_at counts ixs.
Proof.
  induction ixs as [|j ixs IH]; simpl; [constructor|].
  destruct (counts !! j) as [c|] eqn:Hj; [|done].
  case_decide; [done|]. intros ?%IH. constructor; [|done].
  rewrite Hj. f_equal. lia.
Qed.

Lemma any_positive_Raise counts ixs e :
  any_positive counts ixs = Raise e →
  e = IndexError ∧ ∃ j, j ∈ ixs ∧ length counts ≤ j.
Proof.
  induction ixs as [|j ixs IH]; simpl; [done|].
  destruct (counts !! j) as [c|] eqn:Hj.
  - case_decide; [done|]. intros (-> & j' & ? & ?)%IH.
    split; [done|]. exists j'. split; [by right|done].
  - intros [= <-]. split; [done|]. exists j. split; [left|].
    by apply lookup_ge_None.
Qed.

(** The three ways the loop over [order] can end. *)
Lemma first_inclusion_cases counts weights_lsts order :
  Forall (λ i, i < length weights_lsts) order →
  let r := first_inclusion counts weights_lsts (null_ixs <$> weights_lsts) order in
  (r = Ok None ∧ Forall (no_match counts weights_lsts) order) ∨
  (∃ pre i post weights,
     order = pre ++ i :: post ∧ weights_lsts !! i = Some weights ∧
     zero_at counts (null_ixs weights) ∧
     Forall (no_match counts weights_lsts) pre ∧
     r = Ok (Some (fill_none <$> weights))) ∨
  (r = Raise IndexError ∧
   ∃ i weights j, i ∈ order ∧ weights_lsts !! i = Some weights ∧
     j ∈ null_ixs weights ∧ length counts ≤ j).
Proof.
  induction 1 as [|i order Hi _ IH]; simpl; [left; by split|].
  apply lookup_lt_is_Some in Hi as [weights Hw].
  rewrite list_lookup_fmap, Hw. simpl.
  destruct (any_positive counts (null_ixs weights)) as [[|]|e] eqn:Hany; simpl.
  - assert (no_match counts weights_lsts i) as Hno.
    { intros weights' ? Hzero%any_positive_zero. congruence. }
    destruct IH as [[-> Hall]|[(pre & k & post & w & -> & ? & ? & ? & ->)|
                   [-> (k & w & j & ? & ? & ? & ?)]]].
    + left. split; [done|]. by constructor.
    + right; left. exists (i :: pre), k, post, w. split_and!; try done.
      by constructor.
    + right; right. split; [done|]. exists k, w, j. split_and!; try done. by right.
  - right; left. exists [], i, order, weights. split_and!; try done.
    by apply any_positive_false.
  - apply any_positive_Raise in Hany as (-> & j & ? & ?).
    right; right. split; [done|]. exists i, weights, j. split_and!; try done. left.
Qed.

Lemma StronglySorted_reverse {A} (R : relation A) (l : list A) :
  StronglySorted R l → StronglySorted (flip R) (reverse l).
Proof.
  induction 1 as [|x l _ IH Hx]; [constructor|].
  rewrite reverse_cons. apply StronglySorted_app_2; [|done|repeat constructor].
  intros y z Hy ->%list_elem_of_singleton. rewrite elem_of_reverse in Hy.
  rewrite Forall_forall in Hx. unfold flip. by apply Hx.
Qed.

Lemma StronglySorted_mono {A} (R1 R2 : relation A) (l : list A) :
  (∀ x y, R1 x y → R2 x y) → StronglySorted R1 l → StronglySorted R2 l.
Proof.
  intros HR. induction 1 as [|x l _ IH Hx]; constructor; [done|].
  eapply Forall_impl; [done|]. apply HR.
Qed.

(** The order in which the tables are tried: every table once, longer
    signatures first. *)
Lemma inclusion_order_perm (keys : list nat) :
  reverse (np_argsort keys) ≡ₚ seq 0 (length keys).
Proof. unfold np_argsort. by rewrite reverse_Permutation, py_sort_perm. Qed.

Lemma inclusion_order_sorted (keys : list nat) :
  StronglySorted (λ i j, keys !!! j ≤ keys !!! i) (reverse (np_argsort keys)).
Proof.
  unfold np_argsort.
  pose proof (py_sort_sorted (λ i j, bool_decide (keys !!! i < keys !!! j))
                (seq 0 (length keys))) as Hs.
  apply StronglySorted_reverse in Hs.
  eapply StronglySorted_mono; [|done].
  intros i j. unfold flip, le_of. rewrite bool_decide_eq_false. lia.
Qed.
End inclusion_facts.

Section get_inclusion_weights_facts.
Implicit Types counts ixs : list nat.
Implicit Types weights_lsts : list (list (option pyfloat)).

Local Abbreviation signature_lengths weights_lsts :=
  (length <$> (null_ixs <$> weights_lsts)).
Local Abbreviation inclusion_order weights_lsts :=
  (reverse (np_argsort (signature_lengths weights_lsts))).

Lemma signature_lengths_lookup weights_lsts i weights :
  weights_lsts !! i = Some weights →
  signature_lengths weights_lsts !!! i = length (null_ixs weights).
Proof.
  intros Hi. apply list_lookup_total_correct.
  by rewrite !list_lookup_fmap, Hi.
Qed.

Lemma elem_of_inclusion_order weights_lsts i :
  i ∈ inclusion_order weights_lsts ↔ i < length weights_lsts.
Proof.
  rewrite inclusion_order_perm, elem_of_seq, !length_fmap. lia.
Qed.

Lemma get_inclusion_weights_cases counts weights_lsts :
  let r := get_inclusion_weights counts weights_lsts in
  (r = Ok None ∧
   ∀ weights, weights ∈ weights_lsts → ¬ zero_at counts (null_ixs weights)) ∨
  (∃ i weights,
     weights_lsts !! i = Some weights ∧
     zero_at counts (null_ixs weights) ∧
     r = Ok (Some (fill_none <$> weights)) ∧
     ∀ weights', weights' ∈ weights_lsts → zero_at counts (null_ixs weights') →
       length (null_ixs weights') ≤ length (null_ixs weights)) ∨
  (r = Raise IndexError ∧
   ∃ weights j, weights ∈ weights_lsts ∧ j ∈ null_ixs weights ∧ length counts ≤ j).
Proof.
  intros r. subst r. unfold get_inclusion_weights.
  destruct (first_inclusion_cases counts weights_lsts (inclusion_order weights_lsts))
    as [[Hr Hall]|[(pre & i & post & weights & Horder & Hi & Hzero & Hpre & Hr)|
        [Hr (i & weights & j & _ & Hi & Hj & Hlen)]]].
  { apply Forall_forall. intros i. by rewrite elem_of_inclusion_order. }
  - left. split; [done|]. intros weights [i Hi]%list_elem_of_lookup.
    rewrite Forall_forall in Hall. apply (Hall i); [|done].
    apply elem_of_inclusion_order. by eapply lookup_lt_Some.
  - right; left. exists i, weights. split_and!; [done..|].
    intros weights' [k Hk]%list_elem_of_lookup Hzero'.
    assert (k ∈ pre ++ i :: post) as Hin.
    { rewrite <-Horder. apply elem_of_inclusion_order. by eapply lookup_lt_Some. }
    pose proof (inclusion_order_sorted (signature_lengths weights_lsts)) as Hs.
    rewrite Horder in Hs.
    apply elem_of_app in Hin as [Hin|Hin].
    { rewrite Forall_forall in Hpre. by destruct (Hpre k Hin weights'). }
    apply elem_of_cons in Hin as [->|Hin].
    { by simplify_eq. }
    apply StronglySorted_app_1_r, StronglySorted_cons in Hs as [Hs _].
    rewrite Forall_forall in Hs. specialize (Hs k Hin). simpl in Hs.
    by rewrite (signature_lengths_lookup _ _ _ Hi),
      (signature_lengths_lookup _ _ _ Hk) in Hs.
  - right; right. split; [done|]. exists weights, j. split_and!; [|done..].
    by eapply list_elem_of_lookup_2.
Qed.

(** A table that matches rules out falling off the end of the loop; if the
    histogram covers every position of the tables, one is returned. *)
Lemma get_inclusion_weights_not_None counts weights_lsts weights :
  weights ∈ weights_lsts → zero_at counts (null_ixs weights) →
  get_inclusion_weights counts weights_lsts ≠ Ok None.
Proof.
  intros Hw Hzero.
  destruct (get_inclusion_weights_cases counts weights_lsts)
    as [[_ Hall]|[(? & ? & _ & _ & -> & _)|[-> _]]]; [|done..].
  by destruct (Hall weights).
Qed.

Lemma get_inclusion_weights_Some counts weights_lsts ws :
  get_inclusion_weights counts weights_lsts = Ok (Some ws) →
  ∃ i weights,
    weights_lsts !! i = Some weights ∧
    zero_at counts (null_ixs weights) ∧
    ws = fill_none <$> weights ∧
    ∀ weights', weights' ∈ weights_lsts → zero_at counts (null_ixs weights') →
      length (null_ixs weights') ≤ length (null_ixs weights).
Proof.
  intros Hr.
  destruct (get_inclusion_weights_cases counts weights_lsts)
    as [[Hr' _]|[(i & weights & ? & ? & Hr' & ?)|[Hr' _]]];
    rewrite Hr in Hr'; [done| |done].
  exists i, weights. split_and!; try done. congruence.
Qed.

Lemma get_inclusion_weights_finds counts weights_lsts weights :
  weights ∈ weights_lsts → zero_at counts (null_ixs weights) →
  Forall (λ w, length w ≤ length counts) weights_lsts →
  ∃ ws, get_inclusion_weights counts weights_lsts = Ok (Some ws).
Proof.
  intros Hw Hzero Hlen.
  destruct (get_inclusion_weights_cases counts weights_lsts)
    as [[_ Hall]|[(? & ? & _ & _ & -> & _)|[_ (w & j & Hin & Hj & Hge)]]].
  - by destruct (Hall weights).
  - by eexists.
  - rewrite Forall_forall in Hlen. apply Hlen in Hin.
    apply null_ixs_lt_length in Hj. lia.
Qed.

Lemma fill_none_is_Some (weights : list (option pyfloat)) :
  Forall is_Some (fill_none <$> weights).
Proof. apply Forall_fmap, Forall_true. intros [w|]; simpl; by eexists. Qed.

Lemma fill_none_replaced (weights : list (option pyfloat)) :
  nulls_replaced_by_0 weights (fill_none <$> weights).
Proof.
  unfold nulls_replaced_by_0. induction weights as [|[w|] weights IH]; csimpl;
    by constructor.
Qed.
End get_inclusion_weights_facts.

Section validated_facts.
Implicit Types counts ixs : list nat.
Implicit Types weights_lsts : list (list (option pyfloat)).

Lemma zero_at_nil counts : zero_at counts [].
Proof. constructor. Qed.

(** Among validated tables exactly one excludes nothing. *)
Lemma validated_empty_signature weights_lsts :
  one_table_per_combination weights_lsts →
  ∃ i0 w0, weights_lsts !! i0 = Some w0 ∧ null_ixs w0 = [] ∧
    ∀ i w, weights_lsts !! i = Some w → null_ixs w = [] → i = i0.
Proof.
  intros Hone. destruct (Hone []) as (i0 & (w0 & Hi0 & Hw0) & Huniq).
  { split; [constructor|]. by intros j ?%elem_of_nil. }
  exists i0, w0. split_and!; [done..|].
  intros i w Hi Hw. apply Huniq. by exists w.
Qed.





(** The empty signature sorts to the end of the order of trial. *)
Lemma validated_empty_last weights_lsts i0 w0 :
  weights_lsts !! i0 = Some w0 → null_ixs w0 = [] →
  (∀ i w, weights_lsts !! i = Some w → null_ixs w = [] → i = i0) →
  last (reverse (np_argsort (length <$> (null_ixs <$> weights_lsts)))) = Some i0.
Proof.
  intros Hi0 Hw0 Huniq.
  set (order := reverse (np_argsort (length <$> (null_ixs <$> weights_lsts)))).
  assert (i0 ∈ order) as Hin.
  { apply elem_of_inclusion_order. by eapply lookup_lt_Some. }
  destruct (last order) as [k|] eqn:Hlast;
    [|apply last_None in Hlast; rewrite Hlast in Hin; by apply elem_of_nil in Hin].
  f_equal. apply last_Some in Hlast as [pre Hpre].
  assert (k ∈ order) as Hk by (rewrite Hpre, elem_of_app, list_elem_of_singleton; tauto).
  apply elem_of_inclusion_order, lookup_lt_is_Some in Hk as [wk Hwk].
  apply (Huniq k wk Hwk).
  rewrite Hpre, elem_of_app, list_elem_of_singleton in Hin.
  destruct Hin as [Hin| ->]; [|by simplify_eq].
  pose proof (inclusion_order_sorted (length <$> (null_ixs <$> weights_lsts))) as Hs.
  fold order in Hs. rewrite Hpre in Hs.
  pose proof (StronglySorted_app_1_elem_of _ _ _ i0 k Hs) as Hle.
  simpl in Hle. specialize (Hle Hin). rewrite list_elem_of_singleton in Hle.
  specialize (Hle eq_refl).
  rewrite (signature_lengths_lookup _ _ _ Hi0), (signature_lengths_lookup _ _ _ Hwk),
    Hw0 in Hle. simpl in Hle.
  apply nil_length_inv. lia.
Qed.
End validated_facts.



(** C9, amended: after a successful validation exactly one table has the
    empty signature; it is the last to be tried and matches every
    histogram. So the resolver never falls off the end of its loop. It
    returns a list, or raises [IndexError] because a table excludes a
    position that the histogram does not have; it returns a list whenever
    the histogram has an entry for every position of the tables. A list it
    returns is one of the tables, one whose excluded positions all have
    count zero, with every null entry replaced by 0 and every other entry
    kept; it has no null entry. *)
Theorem get_inclusion_weights_total (counts : list nat)
    (weights_lsts : list (list (option pyfloat))) :
  check_weight_exclusions weights_lsts = Ok () →
  (∃ i0 w0,
     weights_lsts !! i0 = Some w0 ∧ null_ixs w0 = [] ∧
     (∀ i w, weights_lsts !! i = Some w → null_ixs w = [] → i = i0) ∧
     last (reverse (np_argsort (length <$> (null_ixs <$> weights_lsts)))) = Some i0 ∧
     ∀ counts', any_positive counts' (null_ixs w0) = Ok false) ∧
  get_inclusion_weights counts weights_lsts ≠ Ok None ∧
  ((∃ ws, get_inclusion_weights counts weights_lsts = Ok (Some ws)) ∨
   get_inclusion_weights counts weights_lsts = Raise IndexError ∧
   ∃ weights j, weights ∈ weights_lsts ∧ j ∈ null_ixs weights ∧ length counts ≤ j) ∧
  (Forall (λ w, length w ≤ length counts) weights_lsts →
   ∃ ws, get_inclusion_weights counts weights_lsts = Ok (Some ws)) ∧
  (∀ ws, get_inclusion_weights counts weights_lsts = Ok (Some ws) →
     Forall is_Some ws ∧
     ∃ i weights,
       weights_lsts !! i = Some weights ∧
       zero_at counts (null_ixs weights) ∧
       nulls_replaced_by_0 weights ws).
Proof.
  intros [_ Hone]%check_weight_exclusions_spec.
  destruct (validated_empty_signature weights_lsts Hone) as (i0 & w0 & Hi0 & Hw0 & Huniq).
  assert (w0 ∈ weights_lsts) as Hin by by eapply list_elem_of_lookup_2.
  assert (zero_at counts (null_ixs w0)) as Hzero by (rewrite Hw0; apply zero_at_nil).
  split_and!.
  - exists i0, w0. split_and!; [done..|by eapply validated_empty_last|].
    intros counts'. by rewrite Hw0.
  - by eapply get_inclusion_weights_not_None.
  - destruct (get_inclusion_weights_cases counts weights_lsts)
      as [[_ Hall]|[(i & weights & _ & _ & Hr & _)|[Hr Hlong]]].
    + by destruct (Hall w0).
    + left. by eexists.
    + by right.
  - intros Hlen. by eapply get_inclusion_weights_finds.
  - intros ws (i & weights & Hi & Hz & -> & _)%get_inclusion_weights_Some.
    split; [apply fill_none_is_Some|].
    exists i, weights. split_and!; [done..|apply fill_none_replaced].
Qed.

(** C9, as stated: the tables of [long_class_tables] pass the validation,
    yet for the class histogram of the chord 60, 64 the resolver finds no
    table: the first table excludes the eighth position, whose count is
    looked up among the seven counts, and the call fails. *)
Lemma long_class_tables_not_resolved :
  check_weight_exclusions long_class_tables = Ok () ∧
  count (interval_class <$> get_octave_intervals [60; 64]%Z) (range 0 7)
    = Ok [0; 0; 0; 0; 1; 0; 0] ∧
  get_inclusion_weights [0; 0; 0; 0; 1; 0; 0] long_class_tables = Raise IndexError ∧
  interval_class_consonance [60; 64]%Z (Piecewise long_class_tables) "type"
    = Raise IndexError.
Proof. split_and!; by vm_compute. Qed.

Lemma check_weight_exclusions_iff_witness :
  same_lengths [excluding [3]; excluding []] ∧
  one_table_per_combination [excluding [3]; excluding []].
Proof.
  apply (proj1 (check_weight_exclusions_iff [excluding [3]; excluding []])).
  vm_compute. reflexivity.
Defined.


Lemma get_inclusion_weights_total_witness :
  let counts := [0; 0; 1; 1; 0; 0; 1; 0; 0; 0; 0; 0] in
  let weights_lsts := [excluding [3]; excluding []] in
  (∃ i0 w0,
     weights_lsts !! i0 = Some w0 ∧ null_ixs w0 = [] ∧
     (∀ i w, weights_lsts !! i = Some w → null_ixs w = [] → i = i0) ∧
     last (reverse (np_argsort (length <$> (null_ixs <$> weights_lsts)))) = Some i0 ∧
     ∀ counts', any_positive counts' (null_ixs w0) = Ok false) ∧
  get_inclusion_weights counts weights_lsts ≠ Ok None ∧
  ((∃ ws, get_inclusion_weights counts weights_lsts = Ok (Some ws)) ∨
   get_inclusion_weights counts weights_lsts = Raise IndexError ∧
   ∃ weights j, weights ∈ weights_lsts ∧ j ∈ null_ixs weights ∧ length counts ≤ j) ∧
  (Forall (λ w, length w ≤ length counts) weights_lsts →
   ∃ ws, get_inclusion_weights counts weights_lsts = Ok (Some ws)) ∧
  (∀ ws, get_inclusion_weights counts weights_lsts = Ok (Some ws) →
     Forall is_Some ws ∧
     ∃ i weights,
       weights_lsts !! i = Some weights ∧
       zero_at counts (null_ixs weights) ∧
       nulls_replaced_by_0 weights ws).
Proof.
  apply (get_inclusion_weights_total _ [excluding [3]; excluding []]).
  vm_compute. reflexivity.
Defined.

Section optimise_facts.
Context (list_of_set : gset Z → list Z).
Context (normal_equations :
  nat → list (list pyfloat) → list pyfloat → result (list pyfloat)).

Lemma for_each_collect {A B} (body : list B → A → result (list B))
    (f : A → result B) l acc r :
  (∀ acc x, body acc x = y ← f x; Ok (acc ++ [y])) →
  for_each body acc l = Ok r →
  ∃ ys, r = acc ++ ys ∧ Forall2 (λ x y, f x = Ok y) l ys.
Proof.
  intros Hbody. revert acc. induction l as [|x l IH]; intros acc.
  { intros [= <-]. exists []. by rewrite app_nil_r. }
  rewrite for_each_cons, Hbody.
  intros (acc' & (y & Hy & [= <-])%bind_Ok & (ys & -> & Hys)%IH)%bind_Ok.
  exists (y :: ys). split; [by rewrite <-app_assoc|]. by constructor.
Qed.

(** The padded list has one entry per label of the range, null exactly
    at the labels outside the set. *)
Lemma include_missing_loop (weights : list pyfloat) (interval_set : gset Z)
    (full_range : list Z) acc r :
  for_each (λ '(full_weights, j) i,
    if decide (i ∈ interval_set) then
      match weights !! j with
      | Some w => Ok (full_weights ++ [Some w], S j)
      | None => Raise IndexError
      end
    else Ok (full_weights ++ [None], j)) acc full_range = Ok r →
  ∃ ys, r.1 = acc.1 ++ ys ∧
    Forall2 (λ label y, y = None ↔ label ∉ interval_set) full_range ys.
Proof.
  revert acc. induction full_range as [|i full_range IH]; intros [full_weights j].
  { intros [= <-]. exists []. by rewrite app_nil_r. }
  rewrite for_each_cons. case_decide as Hi.
  - destruct (weights !! j) as [w|]; [|done]. rewrite bind_Ok_l.
    intros (ys & -> & Hys)%IH. exists (Some w :: ys). simpl.
    split; [by rewrite <-app_assoc|]. constructor; [|done]. by split.
  - rewrite bind_Ok_l.
    intros (ys & -> & Hys)%IH. exists (None :: ys). simpl.
    split; [by rewrite <-app_assoc|]. by constructor.
Qed.

Lemma include_missing_nulls weights (interval_set : gset Z) full_range table :
  include_missing weights interval_set full_range = Ok table →
  length table = length full_range ∧
  ∀ k label, full_range !! k = Some label →
    (table !! k = Some None ↔ label ∉ interval_set).
Proof.
  unfold include_missing.
  intros (r & (ys & Hr & Hys)%include_missing_loop & ->)%fmap_Ok.
  simpl in Hr. rewrite Hr. split; [symmetry; by eapply Forall2_length|].
  intros k label Hk.
  destruct (Forall2_lookup_l _ _ _ _ _ Hys Hk) as (y & -> & Hy).
  rewrite <-Hy. split; congruence.
Qed.


End optimise_facts.



(** When every chord of a group has an interval, a label that the group
    never observes gives its regression a column of zeros: on [split_batch]
    with interval 1 excluded the call fails. *)
Example split_batch_singular :
  optimise_interval_weights ascending_list exact_normal_equations
    split_batch (RatingsArray [Fin 1; Fin 2]) [1]%Z "type" = Raise LinAlgError.
Proof. vm_compute. reflexivity. Qed.


(** * Further properties of consonance.py *)

Section more_octave_facts.
Implicit Types pitches : list Z.

Lemma combinations_Forall2 {A B} (R : A → B → Prop) (l : list A) (l' : list B) k :
  Forall2 R l l' → Forall2 (Forall2 R) (combinations l k) (combinations l' k).
Proof.
  intros Hl. revert k. induction Hl as [|x y l l' Hxy Hl IH]; intros [|k]; simpl.
  - repeat constructor.
  - constructor.
  - repeat constructor.
  - apply Forall2_app; [|apply IH].
    apply Forall2_fmap, (Forall2_impl _ _ _ _ (IH k)).
    intros c c' Hc. by constructor.
Qed.

Lemma fmap_Forall2_eq {A B C} (f : A → C) (g : B → C) (l : list A) (l' : list B) :
  Forall2 (λ x y, f x = g y) l l' → f <$> l = g <$> l'.
Proof. induction 1 as [|???? Hxy _ IH]; csimpl; [done|]. by rewrite Hxy, IH. Qed.

Lemma get_octave_intervals_sorted pitches :
  StronglySorted Z.le (get_octave_intervals pitches).
Proof.
  unfold get_octave_intervals.
  eapply StronglySorted_mono; [|apply (py_sort_sorted Z.ltb)].
  intros x y. unfold le_of. rewrite Z.ltb_ge. lia.
Qed.

Lemma get_octave_intervals_congruent t pitches pitches' :
  Forall2 (λ p p', ((p' - p - t) `mod` 12 = 0)%Z) pitches pitches' →
  get_octave_intervals pitches' = get_octave_intervals pitches.
Proof.
  intros Hp. unfold get_octave_intervals. f_equal.
  rewrite <-!list_fmap_compose. symmetry. apply fmap_Forall2_eq.
  eapply Forall2_impl; [by apply combinations_Forall2|].
  intros c c' Hc. simpl.
  destruct Hc as [|p1 p1' c c' H1 Hc]; [done|].
  destruct Hc as [|p2 p2' c c' H2 Hc]; [done|].
  destruct Hc as [|p3 p3' c c' H3 Hc]; [|done].
  assert (((p2 - p1) `mod` 12 = (p2' - p1') `mod` 12)%Z) as ->; [|done].
  apply Z.mod_divide in H1, H2; [|lia..].
  destruct H1 as [k1 H1], H2 as [k2 H2].
  replace (p2' - p1')%Z with ((p2 - p1) + (k2 - k1) * 12)%Z by lia.
  by rewrite Z.mod_add by lia.
Qed.
End more_octave_facts.

(** X1: the octave intervals come out in ascending order, and they only
    depend on the pitches up to a common transposition and up to octaves:
    moving every pitch by the same amount, and any pitch by whole octaves,
    leaves them unchanged. *)
Theorem get_octave_intervals_transposition (t : Z) (pitches pitches' : list Z) :
  Forall2 (λ p p', ((p' - p - t) `mod` 12 = 0)%Z) pitches pitches' →
  get_octave_intervals pitches' = get_octave_intervals pitches ∧
  StronglySorted Z.le (get_octave_intervals pitches).
Proof.
  intros Hp. split.
  - by eapply get_octave_intervals_congruent.
  - apply get_octave_intervals_sorted.
Qed.

Lemma get_octave_intervals_transposition_witness :
  get_octave_intervals [65; 81; 60]%Z = get_octave_intervals [60; 64; 67]%Z ∧
  StronglySorted Z.le (get_octave_intervals [60; 64; 67]%Z).
Proof.
  apply (get_octave_intervals_transposition 5 [60; 64; 67]%Z [65; 81; 60]%Z).
  repeat constructor.
Defined.

Section more_count_facts.
Implicit Types lst items : list Z.

Lemma count_loop_Raise items lst counts :
  ¬ Forall (.∈ items) lst →
  for_each (count_body items) counts lst = Raise ValueError.
Proof.
  revert counts. induction lst as [|x lst IH]; intros counts Hnot.
  { destruct Hnot. constructor. }
  rewrite for_each_cons.
  change (count_body items counts x)
    with (list_index x items ≫= λ i, Ok (alter S i counts)).
  destruct (decide (x ∈ items)) as [Hx|Hx].
  - destruct (list_index_elem_of x items Hx) as [i ->]. rewrite !bind_Ok_l.
    apply IH. intros Hall. apply Hnot. by constructor.
  - unfold list_index. destruct (list_find _ _) as [[i y]|] eqn:Hfind; [|done].
    apply list_find_Some in Hfind as (Hi & -> & _).
    destruct Hx. by eapply list_elem_of_lookup_2.
Qed.

Lemma count_Ok_iff lst items :
  (∃ h, count lst items = Ok h) ↔ Forall (.∈ items) lst.
Proof.
  split.
  - intros [h Hh]. destruct (decide (Forall (.∈ items) lst)) as [|Hnot]; [done|].
    unfold count in Hh. by rewrite count_loop_Raise in Hh.
  - apply count_loop_Ok.
Qed.

(** The histogram only depends on how often each value occurs. *)
Lemma count_perm lst lst' items :
  NoDup items → lst ≡ₚ lst' → count lst items = count lst' items.
Proof.
  intros Hnd Hp. destruct (decide (Forall (.∈ items) lst)) as [Hall|Hnot].
  - destruct (count_loop_Ok items lst (replicate (length items) 0) Hall) as [h Hh].
    assert (Forall (.∈ items) lst') as Hall' by by rewrite <-Hp.
    destruct (count_loop_Ok items lst' (replicate (length items) 0) Hall')
      as [h' Hh'].
    unfold count. rewrite Hh, Hh'. f_equal.
    destruct (count_loop_sum items lst _ h (length_replicate _ _) Hh) as [Hl _].
    destruct (count_loop_sum items lst' _ h' (length_replicate _ _) Hh') as [Hl' _].
    apply list_eq. intros i.
    destruct (items !! i) as [x|] eqn:Hi.
    + rewrite (count_loop_lookup items lst _ h i x Hnd Hi Hh).
      rewrite (count_loop_lookup items lst' _ h' i x Hnd Hi Hh').
      assert (length (filter (x =.) lst) = length (filter (x =.) lst')) as ->
        by by rewrite Hp.
      done.
    + apply lookup_ge_None in Hi.
      rewrite !lookup_ge_None_2; [done|lia..].
  - assert (¬ Forall (.∈ items) lst') as Hnot' by by rewrite <-Hp.
    unfold count. by rewrite !count_loop_Raise.
Qed.
End more_count_facts.

(** X2: [count] returns a histogram exactly when every value of the list is
    among the items, and raises [ValueError] otherwise; a histogram has one
    entry per item and its entries sum to the length of the list. *)
Theorem count_defined_iff (lst items : list Z) :
  (Forall (.∈ items) lst →
   ∃ histogram, count lst items = Ok histogram ∧
     length histogram = length items ∧ sum_list histogram = length lst) ∧
  (¬ Forall (.∈ items) lst → count lst items = Raise ValueError).
Proof.
  split.
  - intros Hall.
    destruct (count_loop_Ok items lst (replicate (length items) 0) Hall) as [h Hh].
    exists h. split; [done|].
    destruct (count_loop_sum items lst _ h (length_replicate _ _) Hh) as [? Hsum].
    split; [done|]. rewrite Hsum. clear. induction (length items); simpl; lia.
  - apply count_loop_Raise.
Qed.

Lemma count_defined_iff_witness :
  (∃ histogram, count [2; 1; 2]%Z [1; 2]%Z = Ok histogram ∧
     length histogram = 2 ∧ sum_list histogram = 3) ∧
  count [2; 5]%Z [1; 2]%Z = Raise ValueError.
Proof.
  split.
  - apply (proj1 (count_defined_iff [2; 1; 2]%Z [1; 2]%Z)).
    repeat constructor.
  - apply (proj2 (count_defined_iff [2; 5]%Z [1; 2]%Z)).
    intros Hall. apply Forall_cons in Hall as [_ Hall].
    apply Forall_cons in Hall as [Hin _].
    apply elem_of_cons in Hin as [?|Hin]; [done|].
    apply elem_of_cons in Hin as [?|Hin]; [done|].
    by apply elem_of_nil in Hin.
Defined.

Section class_facts.
Implicit Types pitches : list Z.

Lemma interval_classes_bounds pitches :
  Forall (λ c, 0 ≤ c ≤ 6)%Z (interval_class <$> get_octave_intervals pitches).
Proof.
  apply Forall_fmap. eapply Forall_impl; [apply get_octave_intervals_bounds|].
  intros ivl ?. unfold interval_class. simpl in *. lia.
Qed.
End class_facts.

(** X3: the histogram of the interval classes over the labels 0..6 is
    defined for every pitch list, has seven entries that sum to C(n, 2) for
    a list of n pitches, and its entry for a class is the number of pairs
    of that class; every class lies in 0..6. *)
Theorem interval_class_histogram_sum (pitches : list Z) :
  let n := length pitches in
  let interval_classes := interval_class <$> get_octave_intervals pitches in
  ∃ histogram,
    count interval_classes (range 0 7) = Ok histogram ∧
    length histogram = 7 ∧
    sum_list histogram = binomial n 2 ∧
    Forall (λ c, 0 ≤ c ≤ 6)%Z interval_classes ∧
    ∀ i, i < 7 →
      histogram !! i = Some (length (filter (Z.of_nat i =.) interval_classes)).
Proof.
  intros n classes.
  pose proof (interval_classes_bounds pitches) as Hbounds. fold classes in Hbounds.
  assert (length classes = binomial n 2) as Hlen.
  { unfold classes. by rewrite length_fmap, get_octave_intervals_length. }
  destruct (count_loop_Ok (range 0 7) classes (replicate 7 0)) as [h Hh].
  { eapply Forall_impl; [done|]. intros x ?. apply elem_of_range. simpl in *. lia. }
  exists h. split; [done|].
  pose proof (count_loop_sum (range 0 7) classes (replicate 7 0) h eq_refl Hh)
    as [Hh1 Hh2].
  change (sum_list (replicate 7 0)) with 0 in Hh2.
  split_and!; [done|lia|done|].
  intros i Hi.
  assert (range 0 7 !! i = Some (Z.of_nat i)) as Hrange.
  { by rewrite range_lookup by lia. }
  rewrite (count_loop_lookup (range 0 7) classes (replicate 7 0) h i
             (Z.of_nat i) (NoDup_range 0 7) Hrange Hh).
  by rewrite lookup_replicate_2 by done.
Qed.

Section reorder_facts.
Implicit Types pitches : list Z.

Lemma combinations_1 {A} (l : list A) : combinations l 1 = (λ x, [x]) <$> l.
Proof.
  induction l as [|x l IH]; simpl; [done|]. rewrite IH. by destruct l.
Qed.

Lemma combinations_2_cons {A} (x : A) (l : list A) :
  combinations (x :: l) 2 = ((λ y, [x; y]) <$> l) ++ combinations l 2.
Proof.
  simpl. rewrite combinations_1, <-list_fmap_compose. done.
Qed.

(** A function of unordered pairs sees the same pairs, however the list
    is ordered. *)
Lemma combinations_2_perm {A B} (f : list A → B) (l l' : list A) :
  (∀ a b, f [a; b] = f [b; a]) →
  l ≡ₚ l' → f <$> combinations l 2 ≡ₚ f <$> combinations l' 2.
Proof.
  intros Hf. induction 1 as [|x l l' Hl IH|x y l|l1 l2 l3 _ IH1 _ IH2].
  - done.
  - rewrite !combinations_2_cons, !fmap_app, <-!list_fmap_compose.
    by rewrite IH, Hl.
  - rewrite !combinations_2_cons, !fmap_app, <-!list_fmap_compose. csimpl.
    rewrite (Hf y x). constructor.
    rewrite !(assoc (++)). f_equiv. apply Permutation_app_comm.
  - by etrans.
Qed.

Lemma pair_class_symmetric (a b : Z) :
  let class_of (c : list Z) :=
    interval_class
      (let ivl := (match c with [p1; p2] => p2 - p1 | _ => 0 end `mod` 12)%Z in
       if decide (ivl = 0%Z) then 12%Z else ivl) in
  class_of [a; b] = class_of [b; a].
Proof.
  simpl. unfold interval_class.
  pose proof (Z.mod_pos_bound (b - a) 12 ltac:(lia)).
  pose proof (Z.mod_pos_bound (a - b) 12 ltac:(lia)).
  pose proof (Z.div_mod (b - a) 12 ltac:(lia)).
  pose proof (Z.div_mod (a - b) 12 ltac:(lia)).
  repeat case_decide; lia.
Qed.

Lemma interval_classes_perm pitches pitches' :
  pitches ≡ₚ pitches' →
  interval_class <$> get_octave_intervals pitches
    ≡ₚ interval_class <$> get_octave_intervals pitches'.
Proof.
  intros Hp. unfold get_octave_intervals.
  rewrite !py_sort_perm, <-!list_fmap_compose.
  apply (combinations_2_perm _ _ _ pair_class_symmetric Hp).
Qed.
End reorder_facts.

(** X4: the interval-class score does not depend on the order in which the
    pitches of the chord are listed: for reordered pitches
    [interval_class_consonance] returns the same score, or fails in the
    same way. *)
Theorem interval_class_consonance_reorder (pitches pitches' : list Z)
    (weights : weights_arg) (agg_method : string) :
  pitches ≡ₚ pitches' →
  interval_class_consonance pitches weights agg_method
    = interval_class_consonance pitches' weights agg_method.
Proof.
  intros Hp. rewrite !interval_class_consonance_score.
  rewrite (count_perm _ _ _ (NoDup_range 0 7) (interval_classes_perm _ _ Hp)).
  assert (length pitches = length pitches') as Hlen by by rewrite Hp.
  by rewrite !get_octave_intervals_length, Hlen.
Qed.

Lemma interval_class_consonance_reorder_witness :
  interval_class_consonance [60; 64; 67]%Z (Flat (replicate 7 (Some (Fin 1)))) "type"
    = interval_class_consonance [67; 60; 64]%Z (Flat (replicate 7 (Some (Fin 1)))) "type".
Proof.
  apply (interval_class_consonance_reorder [60; 64; 67]%Z [67; 60; 64]%Z).
  symmetry. apply (Permutation_cons_append [60; 64]%Z 67%Z).
Defined.

Section reverse_facts.
Implicit Types pitches : list Z.

Lemma combinations_2_snoc {A} (l : list A) (x : A) :
  combinations (l ++ [x]) 2 ≡ₚ combinations l 2 ++ ((λ y, [y; x]) <$> l).
Proof.
  induction l as [|y l IH]; [done|].
  rewrite <-app_comm_cons, !combinations_2_cons, IH, fmap_app, fmap_cons. simpl.
  rewrite <-!(assoc (++)). f_equiv.
  rewrite (Permutation_app_comm (combinations l 2)). simpl.
  rewrite <-Permutation_middle. constructor.
  by rewrite (Permutation_app_comm (combinations l 2)).
Qed.

Lemma combinations_2_reverse {A B} (f g : list A → B) (l : list A) :
  (∀ a b, f [a; b] = g [b; a]) →
  f <$> combinations (reverse l) 2 ≡ₚ g <$> combinations l 2.
Proof.
  intros Hfg. induction l as [|x l IH]; [done|].
  rewrite reverse_cons, combinations_2_snoc, combinations_2_cons, !fmap_app.
  rewrite IH, <-!list_fmap_compose, reverse_Permutation.
  rewrite (Permutation_app_comm (g <$> combinations l 2)). f_equiv.
  rewrite (list_fmap_ext (f ∘ (λ y, [y; x])) (g ∘ (λ y, [x; y])) l); [done|].
  intros _ y _. simpl. apply Hfg.
Qed.

Lemma pair_interval_inverted (a b : Z) :
  let interval_of (c : list Z) :=
    let ivl := (match c with [p1; p2] => p2 - p1 | _ => 0 end `mod` 12)%Z in
    if decide (ivl = 0%Z) then 12%Z else ivl in
  interval_of [a; b] = invert_interval (interval_of [b; a]).
Proof.
  simpl. unfold invert_interval.
  pose proof (Z.mod_pos_bound (b - a) 12 ltac:(lia)).
  pose proof (Z.mod_pos_bound (a - b) 12 ltac:(lia)).
  pose proof (Z.div_mod (b - a) 12 ltac:(lia)).
  pose proof (Z.div_mod (a - b) 12 ltac:(lia)).
  repeat case_decide; lia.
Qed.
End reverse_facts.

(** X5: the interval score does depend on the order of the pitches:
    listing the chord backwards inverts every interval, k becoming 12 - k
    and the octave staying 12. *)
Theorem get_octave_intervals_reverse (pitches : list Z) :
  get_octave_intervals (reverse pitches)
    = py_sort Z.ltb (invert_interval <$> get_octave_intervals pitches).
Proof.
  unfold get_octave_intervals. apply (py_sort_unique Z.ltb).
  rewrite py_sort_perm, <-!list_fmap_compose.
  apply (combinations_2_reverse _ _ _ pair_interval_inverted).
Qed.

Section flat_error_facts.
Implicit Types weights : list (option pyfloat).

Lemma np_inner_cases xs weights :
  length xs = length weights →
  (∃ r, np_inner xs weights = Ok r) ∨ np_inner xs weights = Raise TypeError.
Proof.
  revert weights. induction xs as [|x xs IH]; intros [|w weights] Hlen;
    simplify_eq/=; [left; by eexists|].
  destruct (IH weights Hlen) as [[r ->]| ->]; simpl; [|by right].
  destruct w; [left; by eexists|by right].
Qed.

Lemma np_inner_None xs weights :
  length xs = length weights → None ∈ weights →
  np_inner xs weights = Raise TypeError.
Proof.
  revert weights. induction xs as [|x xs IH]; intros [|w weights] Hlen Hin;
    simplify_eq/=.
  { by apply elem_of_nil in Hin. }
  apply elem_of_cons in Hin as [<-|Hin].
  - by destruct (np_inner_cases xs weights Hlen) as [[r ->]| ->].
  - by rewrite IH.
Qed.

Lemma consonance_score_flat_errors n_intervals counts n_labels msg weights agg_method :
  length counts = n_labels →
  consonance_score n_intervals counts n_labels msg (Flat []) agg_method
    = Raise IndexError ∧
  (weights ≠ [] → length weights ≠ n_labels →
   consonance_score n_intervals counts n_labels msg (Flat weights) agg_method
     = Raise (Exception msg)) ∧
  (length weights = n_labels → None ∈ weights →
   agg_method = "sum" ∨ agg_method = "type" →
   consonance_score n_intervals counts n_labels msg (Flat weights) agg_method
     = Raise TypeError).
Proof.
  intros Hc. split_and!.
  - done.
  - intros Hne Hlen. unfold consonance_score.
    destruct weights as [|w weights]; [done|]. unfold resolve_weights.
    by rewrite !bind_Ok_l, decide_True.
  - intros Hlen Hin Hagg.
    assert (weights ≠ []) as Hne by (intros ->; by apply elem_of_nil in Hin).
    destruct Hagg as [-> | ->].
    + rewrite consonance_score_sum by done.
      apply np_inner_None; [|done]. rewrite length_fmap. congruence.
    + rewrite consonance_score_type by done.
      apply np_inner_None; [|done]. rewrite length_fmap. congruence.
Qed.
End flat_error_facts.

(** X9: how [interval_consonance] fails on a flat weight list, for every
    chord: an empty list raises [IndexError] at [weights[0]], any other
    list whose length is not 12 raises the length exception whatever the
    aggregation method, and a list of twelve entries with a [None] among
    them raises [TypeError] under "sum" and "type". *)
Theorem interval_consonance_flat_errors (pitches : list Z)
    (weights : list (option pyfloat)) (agg_method : string) :
  interval_consonance pitches (Flat []) agg_method = Raise IndexError ∧
  (weights ≠ [] → length weights ≠ 12 →
   interval_consonance pitches (Flat weights) agg_method
     = Raise (Exception "weights must be of length 12")) ∧
  (length weights = 12 → None ∈ weights →
   agg_method = "sum" ∨ agg_method = "type" →
   interval_consonance pitches (Flat weights) agg_method = Raise TypeError).
Proof.
  rewrite !interval_consonance_score.
  destruct (count_loop_Ok (range 1 13) (get_octave_intervals pitches) (replicate 12 0))
    as [h Hh].
  { eapply Forall_impl; [apply get_octave_intervals_bounds|].
    intros x ?. apply elem_of_range. simpl in *. lia. }
  destruct (count_loop_sum (range 1 13) _ (replicate 12 0) h eq_refl Hh) as [Hlen _].
  change (count (get_octave_intervals pitches) (range 1 13))
    with (for_each (count_body (range 1 13)) (replicate 12 0)
            (get_octave_intervals pitches)).
  rewrite Hh, !bind_Ok_l. by apply consonance_score_flat_errors.
Qed.

Lemma interval_consonance_flat_errors_witness :
  interval_consonance [60; 64]%Z (Flat []) "type" = Raise IndexError ∧
  interval_consonance [60; 64]%Z (Flat [Some (Fin 1)]) "type"
    = Raise (Exception "weights must be of length 12") ∧
  interval_consonance [60; 64]%Z (Flat (replicate 11 (Some (Fin 1)) ++ [None])) "type"
    = Raise TypeError.
Proof.
  split_and!.
  - apply (interval_consonance_flat_errors [60; 64]%Z [] "type").
  - apply (interval_consonance_flat_errors [60; 64]%Z [Some (Fin 1)] "type");
      [done|simpl; lia].
  - apply (interval_consonance_flat_errors [60; 64]%Z
             (replicate 11 (Some (Fin 1)) ++ [None]) "type"); [done| |by right].
    apply elem_of_app. right. left.
Defined.

Section binomial_facts.
Lemma binomial_gt n k : n < k → binomial n k = 0.
Proof.
  revert k. induction n as [|n IH]; intros [|k] ?; simpl; try lia.
  rewrite !IH by lia. lia.
Qed.

Lemma binomial_0 n : binomial n 0 = 1.
Proof. by destruct n. Qed.

Lemma binomial_sum_succ n m :
  binomial_sum (S n) (S m) = binomial_sum n m + binomial_sum n (S m).
Proof.
  induction m as [|m IH]; [simpl; by rewrite binomial_0|].
  change (binomial_sum (S n) (S (S m)))
    with (binomial_sum (S n) (S m) + binomial (S n) (S m)).
  rewrite IH. simpl. lia.
Qed.

Lemma binomial_sum_full n : binomial_sum n (S n) = 2 ^ n.
Proof.
  induction n as [|n IH]; [done|].
  rewrite binomial_sum_succ, IH.
  change (binomial_sum n (S (S n))) with (binomial_sum n (S n) + binomial n (S n)).
  rewrite IH, binomial_gt by lia. simpl. lia.
Qed.

Lemma binomial_sum_seq n m :
  sum_list (binomial n <$> seq 0 m) = binomial_sum n m.
Proof.
  induction m as [|m IH]; [done|].
  rewrite seq_S, fmap_app, sum_list_with_app, IH. simpl. lia.
Qed.

Lemma combinations_bind_length {A} (l : list A) (ks : list nat) :
  length (k ← ks; combinations l k) = sum_list (binomial (length l) <$> ks).
Proof.
  induction ks as [|k ks IH]; [done|]. csimpl.
  by rewrite length_app, combinations_length, IH.
Qed.
End binomial_facts.

Section power_set_facts.
Context `{EqDecision A} (lt : A → A → bool).

Lemma exclusion_combinations_length (ixs : list A) :
  length (exclusion_combinations lt ixs) = 2 ^ length ixs.
Proof.
  unfold exclusion_combinations.
  rewrite py_sort_length, length_app, length_fmap, combinations_bind_length.
  rewrite <-binomial_sum_full, <-binomial_sum_seq. simpl.
  by destruct (length ixs).
Qed.
End power_set_facts.

(** X10: for every list of n labels [exclusion_combinations] returns 2^n
    lists, in Python's list order with the empty list first; when the
    labels are distinct these are the ascending lists of labels drawn from
    the input, each one once. *)
Theorem exclusion_combinations_power_set (exclusion_ixs : list Z) :
  length (exclusion_combinations Z.ltb exclusion_ixs) = 2 ^ length exclusion_ixs ∧
  StronglySorted (le_of (list_lt Z.ltb)) (exclusion_combinations Z.ltb exclusion_ixs) ∧
  head (exclusion_combinations Z.ltb exclusion_ixs) = Some [] ∧
  (NoDup exclusion_ixs →
   NoDup (exclusion_combinations Z.ltb exclusion_ixs) ∧
   ∀ s, s ∈ exclusion_combinations Z.ltb exclusion_ixs ↔
        strictly_sorted Z.ltb s ∧ s ⊆ exclusion_ixs).
Proof.
  split_and!.
  - apply exclusion_combinations_length.
  - apply py_sort_sorted, _.
  - pose proof (py_sort_sorted (list_lt Z.ltb)
      ([[]] ++ (py_sort Z.ltb <$>
         (i ← seq 1 (length exclusion_ixs); combinations exclusion_ixs i)))) as Hs.
    assert ([] ∈ exclusion_combinations Z.ltb exclusion_ixs) as Hin.
    { unfold exclusion_combinations. rewrite elem_of_py_sort. left. }
    fold (exclusion_combinations Z.ltb exclusion_ixs) in Hs.
    destruct (exclusion_combinations Z.ltb exclusion_ixs) as [|s l]; [by apply elem_of_nil in Hin|].
    simpl. f_equal. apply elem_of_cons in Hin as [<-|Hin]; [done|].
    apply StronglySorted_cons in Hs as [Hs _]. rewrite Forall_forall in Hs.
    specialize (Hs [] Hin). unfold le_of in Hs. by destruct s.
  - intros Hnd. split.
    + by apply NoDup_exclusion_combinations; [apply _|].
    + intros s. by apply elem_of_exclusion_combinations; [apply _|].
Qed.

Lemma exclusion_combinations_power_set_witness :
  NoDup (exclusion_combinations Z.ltb [3; 1]%Z) ∧
  ∀ s, s ∈ exclusion_combinations Z.ltb [3; 1]%Z ↔
       strictly_sorted Z.ltb s ∧ s ⊆ [3; 1]%Z.
Proof.
  apply (proj2 (proj2 (proj2 (exclusion_combinations_power_set [3; 1]%Z)))).
  apply NoDup_cons. split; [|apply NoDup_singleton].
  intros Hin. by apply list_elem_of_singleton in Hin.
Defined.

Section more_validation_facts.
Implicit Types weights_lsts : list (list (option pyfloat)).

Lemma check_weight_exclusions_Ok_sorted weights_lsts :
  check_weight_exclusions weights_lsts = Ok () →
  py_sort (list_lt Nat.ltb) (null_ixs <$> weights_lsts)
    = exclusion_combinations Nat.ltb
        (first_occurrences
           (mjoin (py_sort (list_lt Nat.ltb) (null_ixs <$> weights_lsts)))).
Proof.
  intros [_ Hone]%check_weight_exclusions_spec.
  by apply sorted_signatures_complete.
Qed.

Lemma null_ixs_nil_iff (weights : list (option pyfloat)) :
  null_ixs weights = [] ↔ Forall is_Some weights.
Proof.
  split.
  - intros Hnil. apply Forall_forall. intros [w|] Hw; [by eexists|].
    apply list_elem_of_lookup in Hw as [i Hi].
    apply elem_of_null_ixs in Hi. rewrite Hnil in Hi. by apply elem_of_nil in Hi.
  - intros Hall. destruct (null_ixs weights) as [|i ixs] eqn:Hixs; [done|].
    assert (i ∈ null_ixs weights) as Hi by (rewrite Hixs; left).
    apply elem_of_null_ixs in Hi. rewrite Forall_forall in Hall.
    destruct (Hall None) as [? [=]]. by eapply list_elem_of_lookup_2.
Qed.

Lemma single_table_validated (weights : list (option pyfloat)) :
  check_weight_exclusions [weights] = Ok () ↔ Forall is_Some weights.
Proof.
  rewrite <-null_ixs_nil_iff, check_weight_exclusions_spec. split.
  - intros [_ Hone]. destruct (Hone []) as (i & (w & Hi & Hw) & _).
    { split; [constructor|]. by intros j ?%elem_of_nil. }
    destruct i; simplify_eq/=. done.
  - intros Hnil. split.
    { intros w1 w2 ->%list_elem_of_singleton ->%list_elem_of_singleton. done. }
    intros s [Hs Hsub]. assert (s = []) as ->.
    { destruct s as [|j s]; [done|]. destruct (Hsub j) as (w & Hw & Hj); [left|].
      apply list_elem_of_singleton in Hw as ->.
      apply elem_of_null_ixs in Hj. rewrite Hnil in Hj. by apply elem_of_nil in Hj. }
    exists 0. split; [by exists weights|].
    intros [|i'] (w & Hi & _); simplify_eq/=; done.
Qed.

Lemma fill_none_id (weights : list (option pyfloat)) :
  Forall is_Some weights → fill_none <$> weights = weights.
Proof. induction 1 as [|x l [y ->] _ IH]; [done|]. csimpl. by rewrite IH. Qed.

Lemma single_table_resolved counts (weights : list (option pyfloat)) :
  Forall is_Some weights → weights ≠ [] →
  resolve_weights counts (Piecewise [weights]) = resolve_weights counts (Flat weights).
Proof.
  intros Hall Hne. unfold resolve_weights.
  rewrite (proj2 (single_table_validated weights) Hall), bind_Ok_l.
  destruct weights as [|w weights]; [done|].
  unfold get_inclusion_weights. rewrite !fmap_cons, !fmap_nil.
  rewrite (proj2 (null_ixs_nil_iff (w :: weights)) Hall). simpl.
  change (Ok (Some (fill_none <$> w :: weights)) = Ok (Some (w :: weights))).
  by rewrite (fill_none_id _ Hall).
Qed.
End more_validation_facts.

(** X11: the validation rejects an empty list of tables with [IndexError]
    and tables of different lengths with the length exception, whether or
    not the exclusions are complete; otherwise it returns normally or
    raises the incomplete-coverage exception. *)
Theorem check_weight_exclusions_errors (weights_lsts : list (list (option pyfloat))) :
  (weights_lsts = [] → check_weight_exclusions weights_lsts = Raise IndexError) ∧
  (weights_lsts ≠ [] → ¬ same_lengths weights_lsts →
   check_weight_exclusions weights_lsts
     = Raise (Exception "weights lists must all have the same length")) ∧
  (weights_lsts ≠ [] → same_lengths weights_lsts →
   check_weight_exclusions weights_lsts = Ok () ∨
   check_weight_exclusions weights_lsts
     = Raise (Exception "exclusion combinations are not complete")).
Proof.
  split_and!.
  - by intros ->.
  - intros Hne Hnot. destruct weights_lsts as [|first rest]; [done|].
    by apply check_weight_exclusions_lengths.
  - intros Hne Hsame. destruct weights_lsts as [|first rest]; [done|].
    apply same_lengths_cons in Hsame. unfold check_weight_exclusions.
    rewrite bind_Ok_l. change (tail (first :: rest)) with rest.
    rewrite length_check_Ok, bind_Ok_l by done.
    case_decide; [by right|by left].
Qed.

Lemma check_weight_exclusions_errors_witness :
  check_weight_exclusions [] = Raise IndexError ∧
  check_weight_exclusions [[None]; [Some (Fin 1); Some (Fin 2)]]
    = Raise (Exception "weights lists must all have the same length").
Proof.
  split.
  - by apply (proj1 (check_weight_exclusions_errors [])).
  - apply (proj1 (proj2 (check_weight_exclusions_errors
                           [[None]; [Some (Fin 1); Some (Fin 2)]]))); [done|].
    intros Hsame. specialize (Hsame [None] [Some (Fin 1); Some (Fin 2)]).
    simpl in Hsame. assert (1 = 2) as Habs; [|lia].
    apply Hsame; [left|right; left].
Defined.

(** X12: validated tables come in a power of two: with u distinct null
    positions over all the tables there are exactly 2^u tables. *)
Theorem validated_tables_power_of_two (weights_lsts : list (list (option pyfloat))) :
  check_weight_exclusions weights_lsts = Ok () →
  ∃ ixs, NoDup ixs ∧ (∀ j, j ∈ ixs ↔ exclusion_union weights_lsts j) ∧
         length weights_lsts = 2 ^ length ixs.
Proof.
  intros Hok%check_weight_exclusions_Ok_sorted.
  eexists. split_and!.
  - apply NoDup_first_occurrences.
  - intros j. apply elem_of_signature_union.
  - apply (f_equal length) in Hok.
    by rewrite py_sort_length, length_fmap, exclusion_combinations_length in Hok.
Qed.

Lemma validated_tables_power_of_two_witness :
  ∃ ixs, NoDup ixs ∧
    (∀ j, j ∈ ixs ↔ exclusion_union [excluding [3]; excluding []] j) ∧
    length [excluding [3]; excluding []] = 2 ^ length ixs.
Proof.
  apply (validated_tables_power_of_two [excluding [3]; excluding []]).
  vm_compute. reflexivity.
Defined.

(** X13: a list of one table passes the validation exactly when the table
    has no null entry. For such a table that is not empty both scoring
    functions treat the list of the one table as the flat table. The empty
    table passes the validation as well, but there the two forms differ,
    for every chord and aggregation method: the list of the empty table
    raises the length exception, the empty flat list [IndexError]. *)
Theorem single_table_as_flat (weights : list (option pyfloat)) :
  (check_weight_exclusions [weights] = Ok () ↔ Forall is_Some weights) ∧
  (Forall is_Some weights → weights ≠ [] →
   ∀ pitches agg_method,
     interval_consonance pitches (Piecewise [weights]) agg_method
       = interval_consonance pitches (Flat weights) agg_method ∧
     interval_class_consonance pitches (Piecewise [weights]) agg_method
       = interval_class_consonance pitches (Flat weights) agg_method) ∧
  (∀ pitches agg_method,
     interval_consonance pitches (Piecewise [[]]) agg_method
       = Raise (Exception "weights must be of length 12") ∧
     interval_consonance pitches (Flat []) agg_method = Raise IndexError ∧
     interval_class_consonance pitches (Piecewise [[]]) agg_method
       = Raise (Exception "weights must be of length 7") ∧
     interval_class_consonance pitches (Flat []) agg_method = Raise IndexError).
Proof.
  split; [apply single_table_validated|]. split.
  - intros Hall Hne pitches agg_method.
    rewrite !interval_consonance_score, !interval_class_consonance_score.
    split.
    + destruct (count _ _) as [counts|e]; [|done]. rewrite !bind_Ok_l.
      unfold consonance_score. by rewrite single_table_resolved.
    + destruct (count _ _) as [counts|e]; [|done]. rewrite !bind_Ok_l.
      unfold consonance_score. by rewrite single_table_resolved.
  - intros pitches agg_method.
    rewrite !interval_consonance_score, !interval_class_consonance_score.
    destruct (count_loop_Ok (range 1 13) (get_octave_intervals pitches)
                (replicate 12 0)) as [h Hh].
    { eapply Forall_impl; [apply get_octave_intervals_bounds|].
      intros x ?. apply elem_of_range. simpl in *. lia. }
    destruct (count_loop_Ok (range 0 7)
                (interval_class <$> get_octave_intervals pitches) (replicate 7 0))
      as [h' Hh'].
    { eapply Forall_impl; [apply interval_classes_bounds|].
      intros x ?. apply elem_of_range. simpl in *. lia. }
    change (count (get_octave_intervals pitches) (range 1 13))
      with (for_each (count_body (range 1 13)) (replicate 12 0)
              (get_octave_intervals pitches)).
    change (count (interval_class <$> get_octave_intervals pitches) (range 0 7))
      with (for_each (count_body (range 0 7)) (replicate 7 0)
              (interval_class <$> get_octave_intervals pitches)).
    rewrite Hh, Hh', !bind_Ok_l. done.
Qed.

Lemma single_table_as_flat_witness :
  interval_consonance [60; 64; 67]%Z (Piecewise [unit_weights]) "type"
    = interval_consonance [60; 64; 67]%Z (Flat unit_weights) "type" ∧
  interval_class_consonance [60; 64; 67]%Z (Piecewise [unit_weights]) "type"
    = interval_class_consonance [60; 64; 67]%Z (Flat unit_weights) "type".
Proof.
  apply (proj1 (proj2 (single_table_as_flat unit_weights))).
  - unfold unit_weights. apply Forall_replicate. by eexists.
  - done.
Defined.

(** X14: on tables that were not validated the resolver can fall off the
    end of its loop: with a histogram that covers the positions of the
    tables it returns [None] exactly when every table excludes a position
    whose count is not zero. *)
Theorem get_inclusion_weights_None_iff (counts : list nat)
    (weights_lsts : list (list (option pyfloat))) :
  Forall (λ w, length w ≤ length counts) weights_lsts →
  get_inclusion_weights counts weights_lsts = Ok None ↔
    ∀ weights, weights ∈ weights_lsts → ¬ zero_at counts (null_ixs weights).
Proof.
  intros Hlen.
  destruct (get_inclusion_weights_cases counts weights_lsts)
    as [[Hr Hall]|[(i & w & Hi & Hz & Hr & _)|[Hr (w & j & Hin & Hj & Hge)]]].
  - by rewrite Hr.
  - rewrite Hr. split; [done|]. intros Hall. destruct (Hall w); [|done].
    by eapply list_elem_of_lookup_2.
  - rewrite Forall_forall in Hlen. apply Hlen in Hin.
    apply null_ixs_lt_length in Hj. lia.
Qed.

Lemma get_inclusion_weights_None_iff_witness :
  get_inclusion_weights [1; 0] [[None; Some (Fin 1)]] = Ok None ↔
    ∀ weights, weights ∈ [[None; Some (Fin 1)]] → ¬ zero_at [1; 0] (null_ixs weights).
Proof.
  apply (get_inclusion_weights_None_iff [1; 0] [[None; Some (Fin 1)]]).
  repeat constructor.
Defined.

(** * Further properties of optimise_weights.py *)

Section padding_facts.
Implicit Types (weights : list pyfloat) (interval_set : gset Z) (full_range : list Z).

Local Abbreviation padding_body weights interval_set :=
  (λ '(full_weights, j) i,
    if decide (i ∈ interval_set) then
      match weights !! j with
      | Some w => Ok (full_weights ++ [Some w], S j)
      | None => Raise IndexError
      end
    else Ok (full_weights ++ [None], j)).

Lemma include_missing_loop_Ok weights interval_set full_range
    (full_weights : list (option pyfloat)) j :
  j + length (filter (.∈ interval_set) full_range) ≤ length weights →
  ∃ ys, for_each (padding_body weights interval_set) (full_weights, j) full_range
          = Ok (full_weights ++ ys, j + length (filter (.∈ interval_set) full_range)) ∧
        omap id ys = take (length (filter (.∈ interval_set) full_range)) (drop j weights).
Proof.
  revert full_weights j.
  induction full_range as [|i full_range IH]; intros full_weights j Hlen.
  { exists []. by rewrite app_nil_r, Nat.add_0_r. }
  rewrite for_each_cons. destruct (decide (i ∈ interval_set)) as [Hi|Hi].
  - rewrite filter_cons_True in * by done. simpl in Hlen.
    destruct (lookup_lt_is_Some_2 weights j) as [w Hw]; [lia|]. rewrite Hw, bind_Ok_l.
    destruct (IH (full_weights ++ [Some w]) (S j)) as (ys & -> & Hys); [lia|].
    exists (Some w :: ys). split.
    + simpl. rewrite <-app_assoc. do 2 f_equal. lia.
    + csimpl. by rewrite Hys, (drop_S _ _ _ Hw).
  - rewrite filter_cons_False in * by done. rewrite bind_Ok_l.
    destruct (IH (full_weights ++ [None]) j) as (ys & -> & Hys); [lia|].
    exists (None :: ys). split; [by rewrite <-app_assoc|done].
Qed.

Lemma include_missing_loop_Raise weights interval_set full_range
    (full_weights : list (option pyfloat)) j :
  j ≤ length weights →
  length weights < j + length (filter (.∈ interval_set) full_range) →
  for_each (padding_body weights interval_set) (full_weights, j) full_range
    = Raise IndexError.
Proof.
  revert full_weights j.
  induction full_range as [|i full_range IH]; intros full_weights j Hj Hlen.
  { rewrite filter_nil in Hlen. simpl in Hlen. lia. }
  rewrite for_each_cons. destruct (decide (i ∈ interval_set)) as [Hi|Hi].
  - rewrite filter_cons_True in Hlen by done. simpl in Hlen.
    destruct (weights !! j) as [w|] eqn:Hw; [|done]. rewrite bind_Ok_l.
    apply lookup_lt_Some in Hw. apply IH; lia.
  - rewrite filter_cons_False in Hlen by done. rewrite bind_Ok_l. by apply IH.
Qed.

Lemma include_missing_Ok weights interval_set full_range :
  length (filter (.∈ interval_set) full_range) ≤ length weights →
  ∃ table, include_missing weights interval_set full_range = Ok table ∧
    omap id table = take (length (filter (.∈ interval_set) full_range)) weights.
Proof.
  intros Hlen. unfold include_missing.
  destruct (include_missing_loop_Ok weights interval_set full_range [] 0 Hlen)
    as (ys & -> & Hys).
  by exists ys.
Qed.

Lemma include_missing_Raise weights interval_set full_range :
  length weights < length (filter (.∈ interval_set) full_range) →
  include_missing weights interval_set full_range = Raise IndexError.
Proof.
  intros Hlen. unfold include_missing.
  rewrite include_missing_loop_Raise; [done|lia|done].
Qed.

(** A set within the range has one label of the range per element. *)
Lemma present_labels_length interval_set full_range :
  NoDup full_range → (∀ x, x ∈ interval_set → x ∈ full_range) →
  length (filter (.∈ interval_set) full_range) = size interval_set.
Proof.
  intros Hnd Hsub. unfold size, set_size. simpl. apply Permutation_length.
  apply NoDup_Permutation; [by apply NoDup_filter|apply NoDup_elements|].
  intros x. rewrite list_elem_of_filter, elem_of_elements. split; [tauto|].
  intros Hx. split; [done|by apply Hsub].
Qed.
End padding_facts.

(** X15: padding and dropping the nulls is a round trip. With c the number
    of labels of the range that are in the set, [include_missing] returns
    a table when there are at least c weights, and fails with [IndexError]
    when there are fewer; the table has one entry per label, null exactly
    at the labels outside the set, and its other entries are the first c
    weights in their order. *)
Theorem include_missing_round_trip (weights : list pyfloat) (interval_set : gset Z)
    (full_range : list Z) :
  let c := length (filter (.∈ interval_set) full_range) in
  (c ≤ length weights →
   ∃ table, include_missing weights interval_set full_range = Ok table ∧
     length table = length full_range ∧
     (∀ k label, full_range !! k = Some label →
        (table !! k = Some None ↔ label ∉ interval_set)) ∧
     omap id table = take c weights) ∧
  (length weights < c →
   include_missing weights interval_set full_range = Raise IndexError).
Proof.
  intros c. split.
  - intros Hlen.
    destruct (include_missing_Ok weights interval_set full_range Hlen)
      as (table & Htable & Hround).
    exists table. split; [done|].
    destruct (include_missing_nulls _ _ _ _ Htable) as [Hl Hnull]. done.
  - apply include_missing_Raise.
Qed.

Lemma include_missing_round_trip_witness :
  (∃ table,
     include_missing [Fin 5; Fin 7; Fin 9] {[3; 1]}%Z (range 1 5) = Ok table ∧
     length table = length (range 1 5) ∧
     (∀ k label, range 1 5 !! k = Some label →
        (table !! k = Some None ↔ label ∉ ({[3; 1]} : gset Z))%Z) ∧
     omap id table
       = take (length (filter (.∈ ({[3; 1]} : gset Z))%Z (range 1 5)))
           [Fin 5; Fin 7; Fin 9]) ∧
  include_missing [Fin 5] {[3; 1]}%Z (range 1 5) = Raise IndexError.
Proof.
  split.
  - apply (proj1 (include_missing_round_trip
                    [Fin 5; Fin 7; Fin 9] {[3; 1]}%Z (range 1 5))).
    vm_compute. lia.
  - apply (proj2 (include_missing_round_trip [Fin 5] {[3; 1]}%Z (range 1 5))).
    vm_compute. lia.
Defined.

Section fit_facts.
Context (list_of_set : gset Z → list Z).
Context (normal_equations :
  nat → list (list pyfloat) → list pyfloat → result (list pyfloat)).

Lemma optimise_interval_weights_fit pitches_lst ratings exclude_ivls agg_method :
  optimise_interval_weights list_of_set normal_equations pitches_lst ratings
    exclude_ivls agg_method
  = fit_labels list_of_set normal_equations (range 1 13) (chord_intervals pitches_lst)
      ratings exclude_ivls agg_method.
Proof. reflexivity. Qed.

Lemma optimise_interval_class_weights_fit pitches_lst ratings exclude_ivcs agg_method :
  optimise_interval_class_weights list_of_set normal_equations pitches_lst ratings
    exclude_ivcs agg_method
  = fit_labels list_of_set normal_equations (range 0 7) (chord_classes pitches_lst)
      ratings exclude_ivcs agg_method.
Proof. reflexivity. Qed.
End fit_facts.

Section np_facts.
Context {A : Type}.
Implicit Types (xs : list A) (mask : list bool).

Lemma np_mask_Raise xs mask :
  length xs ≠ length mask → np_mask xs mask = Raise IndexError.
Proof. intros Hlen. unfold np_mask. by rewrite decide_False. Qed.

Lemma np_mask_Ok xs mask :
  length xs = length mask → ∃ r, np_mask xs mask = Ok r.
Proof. intros Hlen. unfold np_mask. rewrite decide_True by done. by eexists. Qed.

Lemma np_mask_length xs mask r :
  np_mask xs mask = Ok r → length r = length (filter (λ b, b = true) mask).
Proof.
  unfold np_mask. case_decide as Hlen; [|done]. intros [= <-].
  rewrite length_fmap. revert mask Hlen.
  induction xs as [|x xs IH]; intros [|b mask] Hlen; try done.
  simpl in Hlen. change (zip (x :: xs) (b :: mask)) with ((x, b) :: zip xs mask).
  destruct b.
  - rewrite !filter_cons_True by done. simpl. f_equal. apply IH. lia.
  - rewrite !filter_cons_False by done. apply IH. lia.
Qed.

Lemma elem_of_np_mask xs mask r x :
  np_mask xs mask = Ok r → x ∈ r →
  ∃ i, xs !! i = Some x ∧ mask !! i = Some true.
Proof.
  unfold np_mask. case_decide as Hlen; [|done]. intros [= <-].
  intros ([x' b] & -> & [Hb Hin]%list_elem_of_filter)%list_elem_of_fmap.
  simpl in Hb. subst b. apply list_elem_of_lookup in Hin as [i Hi].
  apply lookup_zip_with_Some in Hi as (x1 & b1 & [= <- <-] & Hx & Hb).
  by exists i.
Qed.
End np_facts.

Section np_size_facts.
Implicit Types rows : list (list Z).

Lemma np_size_equal rows k :
  rows ≠ [] → Forall (λ row, length row = k) rows →
  np_size rows = length rows * k.
Proof.
  intros Hne Hall. destruct rows as [|row rows]; [done|].
  apply Forall_cons in Hall as [<- Hall]. unfold np_size.
  by rewrite decide_True.
Qed.

Lemma np_size_cases rows :
  np_size rows = length rows ∨
  ∃ k, rows ≠ [] ∧ Forall (λ row, length row = k) rows ∧
       np_size rows = length rows * k.
Proof.
  destruct rows as [|row rows]; [by left|]. unfold np_size.
  case_decide as Hall; [|by left].
  right. exists (length row). split_and!; [done| |done]. by constructor.
Qed.
End np_size_facts.

Section exclusion_groups_facts.
Implicit Types (exclusions : list (list Z)) (g : list (option nat)).

Local Abbreviation groups_body exclusions :=
  (λ (exclusion_group : list (option nat)) '(i, ivls),
    match list_find (λ ex : list Z, Forall (λ ivl, ivl ∉ ex) ivls) exclusions with
    | Some (j, _) =>
        if decide (i < length exclusion_group)
        then Ok (<[i := Some j]> exclusion_group)
        else Raise IndexError
    | None => Ok exclusion_group
    end).

Lemma exclusion_groups_loop exclusions (l : list (list Z)) k g :
  k + length l ≤ length g →
  ∃ g', for_each (groups_body exclusions) g (imap (λ i, pair (k + i)) l) = Ok g' ∧
    length g' = length g ∧
    (∀ i, i < k ∨ k + length l ≤ i → g' !! i = g !! i) ∧
    (∀ i ivls, l !! i = Some ivls →
       match list_find (λ ex : list Z, Forall (λ ivl, ivl ∉ ex) ivls) exclusions with
       | Some (j, _) => g' !! (k + i) = Some (Some j)
       | None => g' !! (k + i) = g !! (k + i)
       end).
Proof.
  revert k g. induction l as [|ivls l IH]; intros k g Hlen.
  { exists g. split_and!; [done..|]. by intros i ivls ?. }
  simpl in Hlen. rewrite imap_cons, for_each_cons.
  rewrite (imap_ext _ (λ i, pair (S k + i)) l)
    by (intros i x _; simpl; f_equal; lia).
  rewrite Nat.add_0_r.
  assert (∃ g1, groups_body exclusions g (k, ivls) = Ok g1 ∧ length g1 = length g ∧
            (∀ i, i ≠ k → g1 !! i = g !! i) ∧
            match list_find (λ ex : list Z, Forall (λ ivl, ivl ∉ ex) ivls) exclusions with
            | Some (j, _) => g1 !! k = Some (Some j)
            | None => g1 !! k = g !! k
            end) as (g1 & -> & Hlen1 & Hout1 & Hin1).
  { destruct (list_find _ exclusions) as [[j ex]|].
    - rewrite decide_True by lia. eexists. split_and!; [done|..].
      + by rewrite length_insert.
      + intros i Hi. by rewrite list_lookup_insert_ne.
      + apply list_lookup_insert_eq. lia.
    - by exists g. }
  rewrite bind_Ok_l.
  destruct (IH (S k) g1) as (g' & -> & Hlen' & Hout & Hin); [lia|].
  exists g'. split_and!; [done|lia|..].
  - intros i Hi. simpl in Hi. rewrite Hout by lia. apply Hout1. lia.
  - intros [|i] ivls' Hi.
    + injection Hi as <-. rewrite Nat.add_0_r, Hout by lia. done.
    + change (l !! i = Some ivls') in Hi. specialize (Hin i ivls' Hi).
      replace (k + S i) with (S k + i) by lia.
      destruct (list_find (λ ex : list Z, Forall (λ ivl, ivl ∉ ex) ivls') exclusions)
        as [[j ex]|]; [done|].
      rewrite Hin. apply Hout1. lia.
Qed.

Lemma exclusion_groups_loop_cases exclusions (l : list (nat * list Z)) g :
  (∃ g', for_each (groups_body exclusions) g l = Ok g' ∧ length g' = length g) ∨
  for_each (groups_body exclusions) g l = Raise IndexError.
Proof.
  revert g. induction l as [|[i ivls] l IH]; intros g; [left; by exists g|].
  rewrite for_each_cons.
  destruct (list_find _ exclusions) as [[j ex]|].
  - case_decide; [|by right]. rewrite bind_Ok_l.
    destruct (IH (<[i:=Some j]> g)) as [(g' & -> & Hlen)| ->]; [|by right].
    left. exists g'. by rewrite Hlen, length_insert.
  - rewrite bind_Ok_l. apply IH.
Qed.

Lemma get_exclusion_groups_cases intervals_lst exclusions :
  (∃ groups, get_exclusion_groups intervals_lst exclusions = Ok groups ∧
             length groups = np_size intervals_lst) ∨
  get_exclusion_groups intervals_lst exclusions = Raise IndexError.
Proof.
  unfold get_exclusion_groups.
  destruct (exclusion_groups_loop_cases exclusions (imap pair intervals_lst)
              (replicate (np_size intervals_lst) None)) as [(g' & -> & Hlen)| ->];
    [left|by right].
  exists g'. by rewrite Hlen, length_replicate.
Qed.

Lemma get_exclusion_groups_Ok intervals_lst exclusions :
  length intervals_lst ≤ np_size intervals_lst →
  ∃ groups, get_exclusion_groups intervals_lst exclusions = Ok groups ∧
    length groups = np_size intervals_lst ∧
    (∀ i, length intervals_lst ≤ i → i < np_size intervals_lst →
       groups !! i = Some None) ∧
    (∀ i ivls, intervals_lst !! i = Some ivls →
       match list_find (λ ex : list Z, Forall (λ ivl, ivl ∉ ex) ivls) exclusions with
       | Some (j, _) => groups !! i = Some (Some j)
       | None => groups !! i = Some None
       end).
Proof.
  intros Hlen. unfold get_exclusion_groups.
  destruct (exclusion_groups_loop exclusions intervals_lst 0
              (replicate (np_size intervals_lst) None))
    as (g' & Hg' & Hlen' & Hout & Hin).
  { by rewrite length_replicate. }
  exists g'. split_and!.
  - exact Hg'.
  - by rewrite Hlen', length_replicate.
  - intros i Hi Hi'. rewrite Hout by (right; simpl; lia).
    by apply lookup_replicate_2.
  - intros i ivls Hi. specialize (Hin i ivls Hi). simpl in Hin.
    destruct (list_find _ exclusions) as [[j ex]|]; [done|].
    rewrite Hin. apply lookup_replicate_2.
    apply lookup_lt_Some in Hi. lia.
Qed.

Lemma get_exclusion_groups_empty_rows intervals_lst exclusions :
  intervals_lst ≠ [] → Forall (λ row, row = []) intervals_lst → exclusions ≠ [] →
  get_exclusion_groups intervals_lst exclusions = Raise IndexError.
Proof.
  intros Hne Hall Hex. unfold get_exclusion_groups.
  rewrite (np_size_equal intervals_lst 0), Nat.mul_0_r; [|done|].
  2:{ eapply Forall_impl; [done|]. by intros ? ->. }
  destruct intervals_lst as [|row rows]; [done|].
  apply Forall_cons in Hall as [-> _].
  destruct exclusions as [|ex exclusions]; [done|].
  rewrite imap_cons, for_each_cons. done.
Qed.
End exclusion_groups_facts.

Section fit_labels_facts.
Context (list_of_set : gset Z → list Z).
Context (normal_equations :
  nat → list (list pyfloat) → list pyfloat → result (list pyfloat)).
Implicit Types (labels_lst : list (list Z)) (ratings : list pyfloat).
Implicit Types (full_range exclude : list Z) (agg_method : string).

Local Abbreviation design_body items m agg_method :=
  (λ (A : list (list pyfloat)) (ivls : list Z),
     counts ← count ivls items;
     let row := replicate m (Fin 0) in
     let row := if decide (agg_method = "sum")
                then num_of_count <$> counts else row in
     let row := if decide (agg_method = "type")
                then (λ c, count_div c (length ivls)) <$> counts else row in
     Ok (A ++ [row])).

Lemma optimise_weights_mismatch labels_lst ratings (label_set : gset Z) agg_method :
  length labels_lst ≠ length ratings →
  optimise_weights list_of_set normal_equations labels_lst ratings label_set agg_method
    = Raise (Exception "lists of chords and ratings must be same length").
Proof. intros Hlen. unfold optimise_weights. by rewrite decide_True. Qed.

Lemma design_loop_Ok (items : list Z) m agg_method labels_lst acc :
  Forall (Forall (.∈ items)) labels_lst →
  ∃ A, for_each (design_body items m agg_method) acc labels_lst = Ok A.
Proof.
  revert acc. induction labels_lst as [|ivls labels_lst IH]; intros acc Hall.
  { by exists acc. }
  apply Forall_cons in Hall as [Hivls Hall].
  apply count_Ok_iff in Hivls as [h Hh].
  rewrite for_each_cons. cbv beta. rewrite Hh, bind_Ok_l. cbv zeta.
  rewrite bind_Ok_l. by apply IH.
Qed.

Lemma optimise_weights_solver labels_lst ratings (label_set : gset Z) agg_method :
  length labels_lst = length ratings →
  Forall (Forall (.∈ list_of_set label_set)) labels_lst →
  ∃ A, optimise_weights list_of_set normal_equations labels_lst ratings label_set agg_method
         = normal_equations (size label_set) A ratings.
Proof.
  intros Hlen Hall. unfold optimise_weights. rewrite decide_False by (by intros ?).
  destruct (design_loop_Ok (list_of_set label_set) (size label_set) agg_method
              labels_lst [] Hall) as [A HA].
  cbv zeta in HA. cbv zeta. rewrite HA. by exists A.
Qed.

Lemma for_each_collect_cases {A B} (body : list B → A → result (list B))
    (f : A → result B) (Q : exn → Prop) l acc :
  (∀ acc x, body acc x = y ← f x; Ok (acc ++ [y])) →
  Forall (λ x, (∃ y, f x = Ok y) ∨ (∃ e, f x = Raise e ∧ Q e)) l →
  (∃ r, for_each body acc l = Ok r) ∨ (∃ e, for_each body acc l = Raise e ∧ Q e).
Proof.
  intros Hbody. revert acc. induction l as [|x l IH]; intros acc Hall.
  { left. by exists acc. }
  apply Forall_cons in Hall as [[[y Hy]|(e & He & HQ)] Hall];
    rewrite for_each_cons, Hbody.
  - rewrite Hy, !bind_Ok_l. by apply IH.
  - rewrite He. right. by exists e.
Qed.

Lemma fit_group_cases full_range labels_lst ratings (label_set : gset Z)
    exclusion_groups agg_method i ex :
  faithful_listing list_of_set → full_solution normal_equations →
  NoDup full_range → (∀ x, x ∈ label_set → x ∈ full_range) →
  length exclusion_groups = length labels_lst →
  length ratings = length labels_lst →
  (∀ i0 row, labels_lst !! i0 = Some row → exclusion_groups !! i0 = Some (Some i) →
     Forall (λ x, x ∈ label_set ∧ x ∉ ex) row) →
  (∃ table, fit_group list_of_set normal_equations full_range labels_lst
              (RatingsArray ratings) label_set exclusion_groups agg_method i ex
            = Ok table) ∨
  (∃ m A rs e, normal_equations m A rs = Raise e ∧
     fit_group list_of_set normal_equations full_range labels_lst
       (RatingsArray ratings) label_set exclusion_groups agg_method i ex = Raise e).
Proof.
  intros Hfaith Hfull Hnd Hsub Hgroups Hratings Hrows. unfold fit_group. cbv zeta.
  change (ratings_mask (RatingsArray ratings)) with (np_mask ratings).
  set (mask := (λ g, bool_decide (g = Some i)) <$> exclusion_groups).
  set (ex_set := filter (λ x, x ∉ ex) label_set).
  assert (length mask = length labels_lst) as Hmask
    by (unfold mask; by rewrite length_fmap).
  destruct (np_mask_Ok labels_lst mask) as [ls Hls]; [done|].
  destruct (np_mask_Ok ratings mask) as [rs Hrs]; [lia|].
  rewrite Hls, bind_Ok_l, Hrs, bind_Ok_l.
  destruct (optimise_weights_solver ls rs ex_set agg_method) as [A ->].
  { by rewrite (np_mask_length _ _ _ Hls), (np_mask_length _ _ _ Hrs). }
  { apply Forall_forall. intros row Hrow.
    destruct (elem_of_np_mask _ _ _ _ Hls Hrow) as (i0 & Hi0 & Hm).
    unfold mask in Hm. rewrite list_lookup_fmap in Hm.
    destruct (exclusion_groups !! i0) as [g0|] eqn:Hg0; [|done].
    injection Hm as Hm. apply bool_decide_eq_true in Hm as ->.
    eapply Forall_impl; [by eapply Hrows|].
    intros x [Hx Hex]. apply Hfaith. unfold ex_set. by apply elem_of_filter. }
  destruct (normal_equations (size ex_set) A rs) as [ws|e] eqn:Hsolve.
  - left. rewrite bind_Ok_l.
    destruct (include_missing_Ok ws ex_set full_range) as (table & -> & _);
      [|by eexists].
    rewrite present_labels_length; [by eapply Hfull|done|].
    intros x [_ Hx]%elem_of_filter. by apply Hsub.
  - right. by exists (size ex_set), A, rs, e.
Qed.

Lemma sorted_exclusions_length exclude :
  length (sorted_exclusions exclude) = 2 ^ length exclude.
Proof.
  unfold sorted_exclusions.
  by rewrite py_sort_length, exclusion_combinations_length.
Qed.

Lemma fit_labels_empty full_range (ratings : ratings_arg) exclude agg_method :
  fit_labels list_of_set normal_equations full_range [] ratings exclude agg_method
    = Raise ValueError.
Proof. done. Qed.

Lemma fit_labels_mismatch full_range labels_lst (ratings : ratings_arg) agg_method :
  labels_lst ≠ [] → length (ratings_values ratings) ≠ length labels_lst →
  fit_labels list_of_set normal_equations full_range labels_lst ratings [] agg_method
    = Raise (Exception "lists of chords and ratings must be same length").
Proof.
  intros Hne Hlen. unfold fit_labels. rewrite decide_False, decide_True by done.
  by rewrite optimise_weights_mismatch.
Qed.

Lemma sorted_exclusions_cons exclude :
  ∃ ex0 exclusions, sorted_exclusions exclude = ex0 :: exclusions.
Proof.
  pose proof (sorted_exclusions_length exclude) as Hlen.
  destruct (sorted_exclusions exclude) as [|ex0 exclusions]; [|by eauto].
  simpl in Hlen. pose proof (Nat.pow_nonzero 2 (length exclude)). lia.
Qed.

(** With exclusions the first group is the first to apply its mask, to the
    chords and then to the ratings. *)
Lemma fit_labels_chords_mask full_range labels_lst (ratings : ratings_arg)
    exclude agg_method :
  labels_lst ≠ [] → exclude ≠ [] → np_size labels_lst ≠ length labels_lst →
  fit_labels list_of_set normal_equations full_range labels_lst ratings exclude
    agg_method = Raise IndexError.
Proof.
  intros Hne Hex Hsize.
  destruct (sorted_exclusions_cons exclude) as (ex0 & exclusions & Hsorted).
  unfold fit_labels. rewrite !decide_False by done. cbv zeta.
  fold (sorted_exclusions exclude).
  destruct (get_exclusion_groups_cases labels_lst (sorted_exclusions exclude))
    as [(groups & -> & Hgroups)| ->]; [|done].
  rewrite bind_Ok_l, Hsorted, imap_cons, for_each_cons.
  cut (fit_group list_of_set normal_equations full_range labels_lst ratings
         (list_to_set (mjoin labels_lst)) groups agg_method 0 ex0 = Raise IndexError).
  { by intros ->. }
  unfold fit_group. cbv zeta.
  rewrite (np_mask_Raise labels_lst); [reflexivity|]. rewrite length_fmap. lia.
Qed.

Lemma fit_labels_ratings_mask full_range labels_lst (ratings : ratings_arg)
    exclude agg_method e :
  labels_lst ≠ [] → exclude ≠ [] → np_size labels_lst = length labels_lst →
  (∀ mask, length mask = length labels_lst → ratings_mask ratings mask = Raise e) →
  fit_labels list_of_set normal_equations full_range labels_lst ratings exclude
    agg_method = Raise e.
Proof.
  intros Hne Hex Hsize Hmask.
  destruct (sorted_exclusions_cons exclude) as (ex0 & exclusions & Hsorted).
  unfold fit_labels. rewrite !decide_False by done. cbv zeta.
  fold (sorted_exclusions exclude).
  destruct (get_exclusion_groups_Ok labels_lst (sorted_exclusions exclude))
    as (groups & -> & Hgroups & _); [lia|].
  rewrite bind_Ok_l, Hsorted, imap_cons, for_each_cons.
  cut (fit_group list_of_set normal_equations full_range labels_lst ratings
         (list_to_set (mjoin labels_lst)) groups agg_method 0 ex0 = Raise e).
  { by intros ->. }
  unfold fit_group. cbv zeta.
  destruct (np_mask_Ok labels_lst ((λ g, bool_decide (g = Some 0)) <$> groups))
    as [ls ->].
  { rewrite length_fmap. lia. }
  rewrite bind_Ok_l, Hmask; [reflexivity|]. rewrite length_fmap. lia.
Qed.

Lemma fit_labels_flat full_range labels_lst (ratings : ratings_arg) agg_method
    weights :
  fit_labels list_of_set normal_equations full_range labels_lst ratings [] agg_method
    = Ok weights →
  ∃ table ws,
    weights = Flat table ∧
    optimise_weights list_of_set normal_equations labels_lst (ratings_values ratings)
      (list_to_set (mjoin labels_lst)) agg_method = Ok ws ∧
    length table = length full_range ∧
    (∀ k label, full_range !! k = Some label →
       (table !! k = Some None ↔ label ∉ mjoin labels_lst)) ∧
    omap id table
      = take (length (filter (.∈ mjoin labels_lst) full_range)) ws.
Proof.
  unfold fit_labels. case_decide; [done|]. rewrite decide_True by done.
  intros (ws & Hws & (table & Htable & [= <-])%bind_Ok)%bind_Ok.
  exists table, ws. split; [done|]. split; [done|].
  destruct (include_missing_nulls _ _ _ _ Htable) as [Hlen Hnull].
  split; [done|]. split.
  - intros k label Hk. rewrite (Hnull k label Hk). by rewrite elem_of_list_to_set.
  - destruct (decide (length (filter (.∈ (list_to_set (mjoin labels_lst) : gset Z))
                                full_range) ≤ length ws)) as [Hle|Hgt].
    + destruct (include_missing_Ok ws (list_to_set (mjoin labels_lst)) full_range Hle)
        as (table' & Htable' & Hround).
      rewrite Htable in Htable'. injection Htable' as <-. rewrite Hround.
      f_equal. f_equal. apply list_filter_iff. intros x.
      by rewrite elem_of_list_to_set.
    + rewrite include_missing_Raise in Htable by lia. done.
Qed.

Lemma fit_labels_piecewise full_range labels_lst (ratings : ratings_arg) exclude
    agg_method weights :
  exclude ≠ [] →
  fit_labels list_of_set normal_equations full_range labels_lst ratings exclude agg_method
    = Ok weights →
  ∃ tables,
    weights = Piecewise tables ∧
    length tables = length (sorted_exclusions exclude) ∧
    ∀ i ex table,
      sorted_exclusions exclude !! i = Some ex → tables !! i = Some table →
      length table = length full_range ∧
      ∀ k label, full_range !! k = Some label →
        (table !! k = Some None ↔ label ∈ ex ∨ label ∉ mjoin labels_lst).
Proof.
  intros Hex. unfold fit_labels.
  case_decide; [done|]. rewrite decide_False by done.
  intros (exclusion_groups & _ & (tables & Htables & [= <-])%bind_Ok)%bind_Ok.
  exists tables. split; [done|].
  apply (for_each_collect _
    (λ iex, fit_group list_of_set normal_equations full_range labels_lst
              ratings (list_to_set (mjoin labels_lst))
              exclusion_groups agg_method iex.1 iex.2)) in Htables
    as (ys & -> & Hys); [|by intros acc [i ex]].
  fold (sorted_exclusions exclude) in Hys. simpl.
  split.
  { apply Forall2_length in Hys. by rewrite length_imap in Hys. }
  intros i ex table Hi Ht.
  assert (imap pair (sorted_exclusions exclude) !! i = Some (i, ex)) as Hi'
    by by rewrite list_lookup_imap, Hi.
  destruct (Forall2_lookup_l _ _ _ _ _ Hys Hi') as (table' & Ht' & Hgroup).
  simpl in Ht. rewrite Ht in Ht'. injection Ht' as <-.
  unfold fit_group in Hgroup. simpl in Hgroup.
  apply bind_Ok in Hgroup as (ls & _ & (rs & _ & (ws & _ & Hpad)%bind_Ok)%bind_Ok).
  apply include_missing_nulls in Hpad as [Hlen Hnull]. split; [done|].
  intros k label Hk. rewrite (Hnull k label Hk).
  rewrite elem_of_filter, elem_of_list_to_set.
  destruct (decide (label ∈ ex)); tauto.
Qed.

Lemma fit_labels_total full_range labels_lst (ratings : ratings_arg) exclude
    agg_method :
  faithful_listing list_of_set → full_solution normal_equations →
  NoDup full_range → Forall (Forall (.∈ full_range)) labels_lst →
  labels_lst ≠ [] → np_size labels_lst = length labels_lst →
  length (ratings_values ratings) = length labels_lst →
  exclude = [] ∨ (∃ rs, ratings = RatingsArray rs) →
  (∃ weights, fit_labels list_of_set normal_equations full_range labels_lst
                ratings exclude agg_method = Ok weights) ∨
  (∃ m A rs e, normal_equations m A rs = Raise e ∧
     fit_labels list_of_set normal_equations full_range labels_lst
       ratings exclude agg_method = Raise e).
Proof.
  intros Hfaith Hfull Hnd Hrange Hne Hsize Hratings Harray.
  assert (∀ x, x ∈ (list_to_set (mjoin labels_lst) : gset Z) → x ∈ full_range) as Hsub.
  { intros x (row & Hx & Hrow)%elem_of_list_to_set%list_elem_of_join.
    rewrite Forall_forall in Hrange. specialize (Hrange row Hrow).
    rewrite Forall_forall in Hrange. by apply Hrange. }
  unfold fit_labels. rewrite decide_False by done. cbv zeta.
  destruct (decide (exclude = [])) as [->|Hex].
  - destruct (optimise_weights_solver labels_lst (ratings_values ratings)
                (list_to_set (mjoin labels_lst)) agg_method) as [A ->]; [done| |].
    { apply Forall_forall. intros row Hrow. apply Forall_forall. intros x Hx.
      apply Hfaith, elem_of_list_to_set, list_elem_of_join. by exists row. }
    destruct (normal_equations _ A (ratings_values ratings)) as [ws|e] eqn:Hsolve.
    + left. rewrite bind_Ok_l.
      destruct (include_missing_Ok ws (list_to_set (mjoin labels_lst)) full_range)
        as (table & -> & _); [|by eexists].
      rewrite present_labels_length by done. by eapply Hfull.
    + right. by exists (size (list_to_set (mjoin labels_lst) : gset Z)), A,
        (ratings_values ratings), e.
  - destruct Harray as [?|[ratings0 ->]]; [done|]. simpl in Hratings.
    fold (sorted_exclusions exclude).
    destruct (get_exclusion_groups_Ok labels_lst (sorted_exclusions exclude))
      as (groups & -> & Hgroups & _ & Hfit); [lia|].
    rewrite bind_Ok_l.
    destruct (for_each_collect_cases
      (λ weights '(i, ex),
         ex_weights ← fit_group list_of_set normal_equations full_range labels_lst
                        (RatingsArray ratings0) (list_to_set (mjoin labels_lst))
                        groups agg_method i ex;
         Ok (weights ++ [ex_weights]))
      (λ iex, fit_group list_of_set normal_equations full_range labels_lst
                (RatingsArray ratings0) (list_to_set (mjoin labels_lst)) groups
                agg_method iex.1 iex.2)
      (λ e, ∃ m A rs, normal_equations m A rs = Raise e)
      (imap pair (sorted_exclusions exclude)) [])
      as [[tables ->]|(e & -> & m & A & rs & He)].
    + by intros acc [i ex].
    + apply Forall_forall. intros [i ex] (i' & ex' & [= <- <-] & Hi)%elem_of_lookup_imap.
      simpl.
      destruct (fit_group_cases full_range labels_lst ratings0
                  (list_to_set (mjoin labels_lst)) groups agg_method i ex)
        as [[table ->]|(m & A & rs & e & He & ->)]; try done.
      * lia.
      * intros i0 row Hrow Hg. specialize (Hfit i0 row Hrow).
        destruct (list_find (λ ex : list Z, Forall (λ ivl, ivl ∉ ex) row)
                    (sorted_exclusions exclude)) as [[j ex']|] eqn:Hfind;
          [|congruence].
        assert (j = i) as -> by congruence.
        apply list_find_Some in Hfind as (Hj & Hnot & _).
        assert (ex' = ex) as -> by congruence.
        apply Forall_forall. intros x Hx. split.
        -- apply elem_of_list_to_set, list_elem_of_join. exists row.
           split; [done|]. by eapply list_elem_of_lookup_2.
        -- rewrite Forall_forall in Hnot. by apply Hnot.
      * left. by exists table.
      * right. exists e. split; [done|]. by exists m, A, rs.
    + left. by eexists.
    + right. by exists m, A, rs, e.
Qed.
End fit_labels_facts.

Section batch_facts.
Implicit Types pitches_lst : list (list Z).

Lemma elem_of_chord_intervals pitches_lst label :
  label ∈ mjoin (chord_intervals pitches_lst) ↔ observed pitches_lst label.
Proof.
  rewrite list_elem_of_join. unfold observed, chord_intervals. split.
  - intros (ivls & Hlabel & (pitches & -> & Hp)%list_elem_of_fmap). by exists pitches.
  - intros (pitches & Hp & Hlabel). exists (get_octave_intervals pitches).
    split; [done|]. apply list_elem_of_fmap. by exists pitches.
Qed.

Lemma elem_of_chord_classes pitches_lst label :
  label ∈ mjoin (chord_classes pitches_lst) ↔ observed_class pitches_lst label.
Proof.
  rewrite list_elem_of_join. unfold observed_class, chord_classes. split.
  - intros (ivls & Hlabel & (pitches & -> & Hp)%list_elem_of_fmap). by exists pitches.
  - intros (pitches & Hp & Hlabel).
    exists (interval_class <$> get_octave_intervals pitches).
    split; [done|]. apply list_elem_of_fmap. by exists pitches.
Qed.

Lemma chord_intervals_range pitches_lst :
  Forall (Forall (.∈ range 1 13)) (chord_intervals pitches_lst).
Proof.
  apply Forall_fmap, Forall_forall. intros pitches _. simpl.
  eapply Forall_impl; [apply get_octave_intervals_bounds|].
  intros x ?. apply elem_of_range. simpl in *. lia.
Qed.

Lemma chord_classes_range pitches_lst :
  Forall (Forall (.∈ range 0 7)) (chord_classes pitches_lst).
Proof.
  apply Forall_fmap, Forall_forall. intros pitches _. simpl.
  eapply Forall_impl; [apply interval_classes_bounds|].
  intros x ?. apply elem_of_range. simpl in *. lia.
Qed.

Lemma chord_intervals_nil pitches_lst :
  chord_intervals pitches_lst = [] ↔ pitches_lst = [].
Proof. unfold chord_intervals. by destruct pitches_lst. Qed.

Lemma chord_classes_nil pitches_lst :
  chord_classes pitches_lst = [] ↔ pitches_lst = [].
Proof. unfold chord_classes. by destruct pitches_lst. Qed.

Lemma chord_intervals_length pitches_lst :
  length (chord_intervals pitches_lst) = length pitches_lst.
Proof. apply length_fmap. Qed.

Lemma chord_classes_length pitches_lst :
  length (chord_classes pitches_lst) = length pitches_lst.
Proof. apply length_fmap. Qed.

Lemma chord_classes_intervals pitches_lst :
  chord_classes pitches_lst
  = (λ ivls : list Z, interval_class <$> ivls) <$> chord_intervals pitches_lst.
Proof. unfold chord_classes, chord_intervals. by rewrite <-list_fmap_compose. Qed.

Lemma np_size_fmap (f : Z → Z) (rows : list (list Z)) :
  np_size ((λ row : list Z, f <$> row) <$> rows) = np_size rows.
Proof.
  destruct rows as [|row rows]; [done|]. unfold np_size. rewrite fmap_cons.
  rewrite !length_cons, !length_fmap.
  destruct (decide (Forall (λ row', length row' = length row) rows)) as [Hall|Hnot].
  - rewrite decide_True; [done|]. apply Forall_fmap.
    eapply Forall_impl; [done|]. intros row' ?. simpl. by rewrite length_fmap.
  - rewrite decide_False; [done|]. intros Hall. apply Hnot.
    apply Forall_fmap in Hall. eapply Forall_impl; [done|].
    intros row' ?. simpl in *. by rewrite length_fmap in *.
Qed.

Lemma chord_intervals_equal_sized pitches_lst p :
  pitches_lst ≠ [] → Forall (λ pitches, length pitches = p) pitches_lst → p ≠ 2 →
  np_size (chord_intervals pitches_lst) ≠ length (chord_intervals pitches_lst).
Proof.
  intros Hne Hall Hp.
  rewrite (np_size_equal _ (binomial p 2)).
  - assert (binomial p 2 ≠ 1) as Hk.
    { pose proof (choose_2 p) as H2. intros Hk. rewrite Hk in H2.
      destruct p as [|[|[|p]]]; [lia..|done|]. simpl in H2. nia. }
    rewrite chord_intervals_length.
    destruct pitches_lst; [done|]. simpl. nia.
  - by rewrite chord_intervals_nil.
  - apply Forall_fmap. eapply Forall_impl; [done|].
    intros pitches <-. simpl. apply get_octave_intervals_length.
Qed.

Lemma transposed_batch_intervals pitches_lst pitches_lst' :
  transposed_batch pitches_lst pitches_lst' →
  chord_intervals pitches_lst' = chord_intervals pitches_lst.
Proof.
  intros Ht. unfold chord_intervals. symmetry. apply fmap_Forall2_eq.
  eapply Forall2_impl; [done|]. intros pitches pitches' [t Hp]. simpl.
  symmetry. by eapply get_octave_intervals_congruent.
Qed.

Lemma ascending_list_faithful : faithful_listing ascending_list.
Proof.
  intros s x. unfold ascending_list. by rewrite elem_of_py_sort, elem_of_elements.
Qed.

Lemma exact_normal_equations_full : full_solution exact_normal_equations.
Proof.
  intros m A ratings weights. unfold exact_normal_equations.
  destruct (mapM (mapM to_Q) A) as [A'|].
  - cbv zeta. case_match; [done|].
    destruct (mapM to_Q ratings) as [rs|]; intros [= <-].
    + by rewrite length_fmap, length_seq.
    + by rewrite length_replicate.
  - intros [= <-]. by rewrite length_replicate.
Qed.
End batch_facts.

(** X16: without excluded intervals [optimise_interval_weights], when it
    returns, returns one flat table of twelve entries that is null exactly
    at the labels that occur in no chord of the batch; its other entries
    are the weights of the regression in their order, one for each interval
    that occurs, taken by ascending label. *)
Theorem optimise_interval_weights_flat (list_of_set : gset Z → list Z)
    (normal_equations : nat → list (list pyfloat) → list pyfloat → result (list pyfloat))
    (pitches_lst : list (list Z)) (ratings : ratings_arg)
    (agg_method : string) (weights : weights_arg) :
  optimise_interval_weights list_of_set normal_equations pitches_lst ratings [] agg_method
    = Ok weights →
  ∃ table ws,
    weights = Flat table ∧
    optimise_weights list_of_set normal_equations (chord_intervals pitches_lst)
      (ratings_values ratings)
      (list_to_set (mjoin (chord_intervals pitches_lst))) agg_method = Ok ws ∧
    length table = 12 ∧
    (∀ k, k < 12 →
       (table !! k = Some None ↔ ¬ observed pitches_lst (Z.of_nat (S k)))) ∧
    omap id table
      = take (size (list_to_set (mjoin (chord_intervals pitches_lst)) : gset Z)) ws.
Proof.
  rewrite optimise_interval_weights_fit.
  intros (table & ws & -> & Hws & Hlen & Hnull & Hround)%fit_labels_flat.
  exists table, ws. split_and!; [done..| |].
  - intros k Hk. rewrite (Hnull k (Z.of_nat (S k))).
    + by rewrite elem_of_chord_intervals.
    + rewrite range_lookup by lia. f_equal. lia.
  - rewrite Hround. f_equal.
    rewrite <-(present_labels_length _ (range 1 13)).
    + f_equal. apply list_filter_iff. intros x. by rewrite elem_of_list_to_set.
    + apply NoDup_range.
    + intros x (row & Hx & Hrow)%elem_of_list_to_set%list_elem_of_join.
      pose proof (chord_intervals_range pitches_lst) as Hrange.
      rewrite Forall_forall in Hrange. specialize (Hrange row Hrow).
      rewrite Forall_forall in Hrange. by apply Hrange.
Qed.

Lemma optimise_interval_weights_flat_witness :
  ∃ table ws,
    Flat (Some (Fin 7) :: Some (Fin 5) :: replicate 10 None) = Flat table ∧
    optimise_weights ascending_list exact_normal_equations (chord_intervals pair_batch)
      (ratings_values pair_batch_ratings)
      (list_to_set (mjoin (chord_intervals pair_batch))) "type" = Ok ws ∧
    length table = 12 ∧
    (∀ k, k < 12 →
       (table !! k = Some None ↔ ¬ observed pair_batch (Z.of_nat (S k)))) ∧
    omap id table
      = take (size (list_to_set (mjoin (chord_intervals pair_batch)) : gset Z)) ws.
Proof.
  apply (optimise_interval_weights_flat ascending_list exact_normal_equations
           pair_batch pair_batch_ratings "type").
  vm_compute. reflexivity.
Defined.

(** X17: [get_exclusion_groups] gives every chord the first exclusion that
    avoids all the intervals of the chord. When the array of the batch has
    an entry for every chord, the call returns one entry per element of the
    array; the entry of a chord is j exactly when exclusion j is the first
    one without an interval of the chord, it is left unassigned exactly
    when no exclusion avoids the chord, and never when the empty exclusion
    is in the list. A batch of chords without intervals is an empty array,
    and the first assignment fails. *)
Theorem get_exclusion_groups_first_fit (intervals_lst exclusions : list (list Z)) :
  (length intervals_lst ≤ np_size intervals_lst →
   ∃ groups, get_exclusion_groups intervals_lst exclusions = Ok groups ∧
     length groups = np_size intervals_lst ∧
     ∀ i ivls, intervals_lst !! i = Some ivls →
       (∀ j, groups !! i = Some (Some j) ↔
          ∃ ex, exclusions !! j = Some ex ∧ Forall (λ ivl, ivl ∉ ex) ivls ∧
            ∀ j' ex', j' < j → exclusions !! j' = Some ex' →
              ¬ Forall (λ ivl, ivl ∉ ex') ivls) ∧
       (groups !! i = Some None ↔
          ∀ ex, ex ∈ exclusions → ¬ Forall (λ ivl, ivl ∉ ex) ivls) ∧
       ([] ∈ exclusions → ∃ j, groups !! i = Some (Some j))) ∧
  (intervals_lst ≠ [] → Forall (λ ivls, ivls = []) intervals_lst → exclusions ≠ [] →
   get_exclusion_groups intervals_lst exclusions = Raise IndexError).
Proof.
  split; [|apply get_exclusion_groups_empty_rows].
  intros Hlen.
  destruct (get_exclusion_groups_Ok intervals_lst exclusions Hlen)
    as (groups & Hgroups & Hsize & _ & Hfit).
  exists groups. split; [done|]. split; [done|].
  intros i ivls Hi. specialize (Hfit i ivls Hi).
  destruct (list_find (λ ex : list Z, Forall (λ ivl, ivl ∉ ex) ivls) exclusions)
    as [[j0 ex0]|] eqn:Hfind.
  - apply list_find_Some in Hfind as (Hj0 & Hex0 & Hfirst). split_and!.
    + intros j. rewrite Hfit. split.
      * intros [= <-]. exists ex0. split_and!; [done..|].
        intros j' ex' Hj' Hex'. by eapply Hfirst.
      * intros (ex & Hj & Hex & Hbefore). do 2 f_equal.
        destruct (Nat.lt_trichotomy j0 j) as [Hlt|[->|Hlt]]; [|done|].
        -- destruct (Hbefore j0 ex0 Hlt Hj0 Hex0).
        -- destruct (Hfirst j ex Hj Hlt Hex).
    + rewrite Hfit. split; [done|]. intros Hnone.
      destruct (Hnone ex0); [|done]. by eapply list_elem_of_lookup_2.
    + intros _. by exists j0.
  - apply list_find_None in Hfind. rewrite Forall_forall in Hfind. split_and!.
    + intros j. rewrite Hfit. split; [done|].
      intros (ex & Hj & Hex & _). destruct (Hfind ex); [|done].
      by eapply list_elem_of_lookup_2.
    + by rewrite Hfit.
    + intros Hnil. destruct (Hfind [] Hnil).
      apply Forall_forall. intros ivl _. apply not_elem_of_nil.
Qed.

Lemma get_exclusion_groups_first_fit_witness :
  (∃ groups,
     get_exclusion_groups (chord_intervals ragged_batch) (sorted_exclusions [1; 2]%Z)
       = Ok groups ∧
     length groups = np_size (chord_intervals ragged_batch) ∧
     ∀ i ivls, chord_intervals ragged_batch !! i = Some ivls →
       (∀ j, groups !! i = Some (Some j) ↔
          ∃ ex, sorted_exclusions [1; 2]%Z !! j = Some ex ∧
            Forall (λ ivl, ivl ∉ ex) ivls ∧
            ∀ j' ex', j' < j → sorted_exclusions [1; 2]%Z !! j' = Some ex' →
              ¬ Forall (λ ivl, ivl ∉ ex') ivls) ∧
       (groups !! i = Some None ↔
          ∀ ex, ex ∈ sorted_exclusions [1; 2]%Z → ¬ Forall (λ ivl, ivl ∉ ex) ivls) ∧
       ([] ∈ sorted_exclusions [1; 2]%Z → ∃ j, groups !! i = Some (Some j))) ∧
  get_exclusion_groups (chord_intervals [[60]; [64]]%Z) (sorted_exclusions [1; 2]%Z)
    = Raise IndexError.
Proof.
  split.
  - apply (proj1 (get_exclusion_groups_first_fit
                    (chord_intervals ragged_batch) (sorted_exclusions [1; 2]%Z))).
    vm_compute. lia.
  - apply (proj2 (get_exclusion_groups_first_fit
                    (chord_intervals [[60]; [64]]%Z) (sorted_exclusions [1; 2]%Z)));
      [done|by repeat constructor|done].
Defined.

(** X18: with a non-empty list of exclusions both optimisers fail with
    [IndexError] on every batch whose chords all have the same number of
    pitches, unless that number is two: the array of the batch is then
    two-dimensional, and the masks built from the exclusion groups do not
    fit its rows. *)
Theorem equal_sized_chords_fail (list_of_set : gset Z → list Z)
    (normal_equations : nat → list (list pyfloat) → list pyfloat → result (list pyfloat))
    (pitches_lst : list (list Z)) (ratings : ratings_arg) (exclude : list Z)
    (agg_method : string) (p : nat) :
  pitches_lst ≠ [] → Forall (λ pitches, length pitches = p) pitches_lst → p ≠ 2 →
  exclude ≠ [] →
  optimise_interval_weights list_of_set normal_equations pitches_lst ratings
    exclude agg_method = Raise IndexError ∧
  optimise_interval_class_weights list_of_set normal_equations pitches_lst ratings
    exclude agg_method = Raise IndexError.
Proof.
  intros Hne Hall Hp Hex.
  pose proof (chord_intervals_equal_sized pitches_lst p Hne Hall Hp) as Hsize.
  rewrite optimise_interval_weights_fit, optimise_interval_class_weights_fit. split.
  - apply fit_labels_chords_mask; [by rewrite chord_intervals_nil|done..].
  - apply fit_labels_chords_mask; [by rewrite chord_classes_nil|done|].
    rewrite chord_classes_intervals, np_size_fmap, length_fmap. done.
Qed.

Lemma equal_sized_chords_fail_witness :
  optimise_interval_weights ascending_list exact_normal_equations
    [[60; 64; 67]; [60; 61; 62]]%Z (RatingsList [Fin 1; Fin 2]) [1]%Z "type"
    = Raise IndexError ∧
  optimise_interval_class_weights ascending_list exact_normal_equations
    [[60; 64; 67]; [60; 61; 62]]%Z (RatingsList [Fin 1; Fin 2]) [1]%Z "type"
    = Raise IndexError.
Proof.
  apply (equal_sized_chords_fail ascending_list exact_normal_equations
           [[60; 64; 67]; [60; 61; 62]]%Z (RatingsList [Fin 1; Fin 2]) [1]%Z "type" 3);
    [done|by repeat constructor|lia|done].
Defined.

(** X19: how the ratings are at fault. Without exclusions a number of
    ratings other than the number of chords raises the exception of
    [optimise_weights], for a list as for an array of ratings. With
    exclusions that test is never reached with a wrong number of ratings:
    an array of ratings of the wrong length fails with [IndexError], from
    [get_exclusion_groups] or from a mask; a Python list of ratings fails
    whatever its length, with [IndexError] when the array of the batch is
    not one-dimensional over the chords, and with [TypeError] at
    [ratings[mask]] otherwise. The batch is not empty. *)
Theorem ratings_errors (list_of_set : gset Z → list Z)
    (normal_equations : nat → list (list pyfloat) → list pyfloat → result (list pyfloat))
    (pitches_lst : list (list Z)) (ratings : list pyfloat) (exclude : list Z)
    (agg_method : string) :
  pitches_lst ≠ [] →
  (length ratings ≠ length pitches_lst →
   ∀ r, r = RatingsList ratings ∨ r = RatingsArray ratings →
     optimise_interval_weights list_of_set normal_equations pitches_lst r [] agg_method
       = Raise (Exception "lists of chords and ratings must be same length") ∧
     optimise_interval_class_weights list_of_set normal_equations pitches_lst r []
       agg_method
       = Raise (Exception "lists of chords and ratings must be same length")) ∧
  (exclude ≠ [] → length ratings ≠ length pitches_lst →
   optimise_interval_weights list_of_set normal_equations pitches_lst
     (RatingsArray ratings) exclude agg_method = Raise IndexError ∧
   optimise_interval_class_weights list_of_set normal_equations pitches_lst
     (RatingsArray ratings) exclude agg_method = Raise IndexError) ∧
  (exclude ≠ [] →
   np_size (chord_intervals pitches_lst) ≠ length pitches_lst →
   optimise_interval_weights list_of_set normal_equations pitches_lst
     (RatingsList ratings) exclude agg_method = Raise IndexError ∧
   optimise_interval_class_weights list_of_set normal_equations pitches_lst
     (RatingsList ratings) exclude agg_method = Raise IndexError) ∧
  (exclude ≠ [] →
   np_size (chord_intervals pitches_lst) = length pitches_lst →
   optimise_interval_weights list_of_set normal_equations pitches_lst
     (RatingsList ratings) exclude agg_method = Raise TypeError ∧
   optimise_interval_class_weights list_of_set normal_equations pitches_lst
     (RatingsList ratings) exclude agg_method = Raise TypeError).
Proof.
  intros Hne.
  assert (chord_intervals pitches_lst ≠ []) as Hne1 by by rewrite chord_intervals_nil.
  assert (chord_classes pitches_lst ≠ []) as Hne2 by by rewrite chord_classes_nil.
  assert (np_size (chord_classes pitches_lst) = np_size (chord_intervals pitches_lst))
    as Hsize by by rewrite chord_classes_intervals, np_size_fmap.
  split_and!.
  - intros Hlen r Hr.
    assert (ratings_values r = ratings) as Hvalues by by destruct Hr as [-> | ->].
    rewrite optimise_interval_weights_fit, optimise_interval_class_weights_fit.
    split; apply fit_labels_mismatch; try done.
    + by rewrite Hvalues, chord_intervals_length.
    + by rewrite Hvalues, chord_classes_length.
  - intros Hex Hlen.
    rewrite optimise_interval_weights_fit, optimise_interval_class_weights_fit.
    destruct (decide (np_size (chord_intervals pitches_lst) = length pitches_lst))
      as [Hn|Hn].
    + split.
      * apply fit_labels_ratings_mask; [done..| |].
        { by rewrite chord_intervals_length. }
        intros mask Hmask. apply np_mask_Raise.
        rewrite Hmask, chord_intervals_length. done.
      * apply fit_labels_ratings_mask; [done..| |].
        { by rewrite Hsize, chord_classes_length. }
        intros mask Hmask. apply np_mask_Raise.
        rewrite Hmask, chord_classes_length. done.
    + split.
      * apply fit_labels_chords_mask; [done..|]. by rewrite chord_intervals_length.
      * apply fit_labels_chords_mask; [done..|].
        by rewrite Hsize, chord_classes_length.
  - intros Hex Hn.
    rewrite optimise_interval_weights_fit, optimise_interval_class_weights_fit. split.
    + apply fit_labels_chords_mask; [done..|]. by rewrite chord_intervals_length.
    + apply fit_labels_chords_mask; [done..|]. by rewrite Hsize, chord_classes_length.
  - intros Hex Hn.
    rewrite optimise_interval_weights_fit, optimise_interval_class_weights_fit. split.
    + apply fit_labels_ratings_mask; [done..| |done].
      by rewrite chord_intervals_length.
    + apply fit_labels_ratings_mask; [done..| |done].
      by rewrite Hsize, chord_classes_length.
Qed.

Lemma ratings_errors_witness :
  (optimise_interval_weights ascending_list exact_normal_equations ragged_batch
     (RatingsList [Fin 5; Fin 7]) [] "type"
     = Raise (Exception "lists of chords and ratings must be same length") ∧
   optimise_interval_class_weights ascending_list exact_normal_equations ragged_batch
     (RatingsList [Fin 5; Fin 7]) [] "type"
     = Raise (Exception "lists of chords and ratings must be same length")) ∧
  (optimise_interval_weights ascending_list exact_normal_equations ragged_batch
     (RatingsArray [Fin 5; Fin 7]) [1]%Z "type" = Raise IndexError ∧
   optimise_interval_class_weights ascending_list exact_normal_equations ragged_batch
     (RatingsArray [Fin 5; Fin 7]) [1]%Z "type" = Raise IndexError) ∧
  (optimise_interval_weights ascending_list exact_normal_equations
     [[60; 64; 67]]%Z (RatingsList [Fin 5]) [1]%Z "type" = Raise IndexError ∧
   optimise_interval_class_weights ascending_list exact_normal_equations
     [[60; 64; 67]]%Z (RatingsList [Fin 5]) [1]%Z "type" = Raise IndexError) ∧
  (optimise_interval_weights ascending_list exact_normal_equations ragged_batch
     (RatingsList [Fin 5; Fin 7; Fin 7]) [1]%Z "type" = Raise TypeError ∧
   optimise_interval_class_weights ascending_list exact_normal_equations ragged_batch
     (RatingsList [Fin 5; Fin 7; Fin 7]) [1]%Z "type" = Raise TypeError).
Proof.
  split; [|split; [|split]].
  - apply (proj1 (ratings_errors ascending_list exact_normal_equations ragged_batch
                    [Fin 5; Fin 7] [1]%Z "type" ltac:(done)));
      [simpl; lia|by left].
  - apply (proj1 (proj2 (ratings_errors ascending_list exact_normal_equations
                           ragged_batch [Fin 5; Fin 7] [1]%Z "type" ltac:(done))));
      [done|simpl; lia].
  - apply (proj1 (proj2 (proj2 (ratings_errors ascending_list exact_normal_equations
                           [[60; 64; 67]]%Z [Fin 5] [1]%Z "type" ltac:(done)))));
      [done|vm_compute; lia].
  - apply (proj2 (proj2 (proj2 (ratings_errors ascending_list exact_normal_equations
                           ragged_batch [Fin 5; Fin 7; Fin 7] [1]%Z "type"
                           ltac:(done)))));
      [done|vm_compute; reflexivity].
Defined.

(** X20: [optimise_interval_class_weights], when it returns, returns tables
    of seven entries. Without excluded classes it is one flat table, null
    exactly at the classes that occur in no chord; with excluded classes
    there is one table per exclusion group, in the order of the groups, and
    the table of a group is null exactly at the classes that the group
    excludes or that occur in no chord of the whole batch. *)
Theorem optimise_interval_class_weights_nulls (list_of_set : gset Z → list Z)
    (normal_equations : nat → list (list pyfloat) → list pyfloat → result (list pyfloat))
    (pitches_lst : list (list Z)) (ratings : ratings_arg) (exclude_ivcs : list Z)
    (agg_method : string) (weights : weights_arg) :
  optimise_interval_class_weights list_of_set normal_equations pitches_lst ratings
    exclude_ivcs agg_method = Ok weights →
  (exclude_ivcs = [] →
   ∃ table, weights = Flat table ∧ length table = 7 ∧
     ∀ k, k < 7 →
       (table !! k = Some None ↔ ¬ observed_class pitches_lst (Z.of_nat k))) ∧
  (exclude_ivcs ≠ [] →
   ∃ tables, weights = Piecewise tables ∧
     length tables = length (sorted_exclusions exclude_ivcs) ∧
     ∀ i ex table,
       sorted_exclusions exclude_ivcs !! i = Some ex → tables !! i = Some table →
       length table = 7 ∧
       ∀ k, k < 7 →
         (table !! k = Some None ↔
          Z.of_nat k ∈ ex ∨ ¬ observed_class pitches_lst (Z.of_nat k))).
Proof.
  rewrite optimise_interval_class_weights_fit. intros Hfit. split.
  - intros ->.
    apply fit_labels_flat in Hfit as (table & ws & -> & _ & Hlen & Hnull & _).
    exists table. split_and!; [done..|].
    intros k Hk. rewrite (Hnull k (Z.of_nat k)).
    + by rewrite elem_of_chord_classes.
    + rewrite range_lookup by lia. f_equal.
  - intros Hex.
    apply fit_labels_piecewise in Hfit as (tables & -> & Hlen & Htables); [|done].
    exists tables. split_and!; [done..|].
    intros i ex table Hi Ht. destruct (Htables i ex table Hi Ht) as [Hl Hnull].
    split; [done|]. intros k Hk. rewrite (Hnull k (Z.of_nat k)).
    + by rewrite elem_of_chord_classes.
    + rewrite range_lookup by lia. f_equal.
Qed.

Lemma optimise_interval_class_weights_nulls_witness :
  ∃ tables, Piecewise full_batch_class_tables = Piecewise tables ∧
    length tables = length (sorted_exclusions [1]%Z) ∧
    ∀ i ex table,
      sorted_exclusions [1]%Z !! i = Some ex → tables !! i = Some table →
      length table = 7 ∧
      ∀ k, k < 7 →
        (table !! k = Some None ↔
         Z.of_nat k ∈ ex ∨ ¬ observed_class full_batch (Z.of_nat k)).
Proof.
  apply (proj2 (optimise_interval_class_weights_nulls ascending_list
                  exact_normal_equations full_batch full_batch_ratings [1]%Z "type"
                  (Piecewise full_batch_class_tables) ltac:(vm_compute; reflexivity))).
  done.
Defined.

(** X21: the optimisers only see a batch through the octave intervals of
    its chords: moving each chord by its own number of semitones, and any
    of its pitches by whole octaves, changes neither result. *)
Theorem optimisers_transposition (list_of_set : gset Z → list Z)
    (normal_equations : nat → list (list pyfloat) → list pyfloat → result (list pyfloat))
    (pitches_lst pitches_lst' : list (list Z)) (ratings : ratings_arg)
    (exclude : list Z) (agg_method : string) :
  transposed_batch pitches_lst pitches_lst' →
  optimise_interval_weights list_of_set normal_equations pitches_lst' ratings
    exclude agg_method
  = optimise_interval_weights list_of_set normal_equations pitches_lst ratings
      exclude agg_method ∧
  optimise_interval_class_weights list_of_set normal_equations pitches_lst' ratings
    exclude agg_method
  = optimise_interval_class_weights list_of_set normal_equations pitches_lst ratings
      exclude agg_method.
Proof.
  intros Ht%transposed_batch_intervals.
  rewrite !optimise_interval_weights_fit, !optimise_interval_class_weights_fit.
  by rewrite !chord_classes_intervals, Ht.
Qed.

Lemma optimisers_transposition_witness :
  optimise_interval_weights ascending_list exact_normal_equations
    [[65; 79]; [50; 63]]%Z pair_batch_ratings [] "type"
  = optimise_interval_weights ascending_list exact_normal_equations
      pair_batch pair_batch_ratings [] "type" ∧
  optimise_interval_class_weights ascending_list exact_normal_equations
    [[65; 79]; [50; 63]]%Z pair_batch_ratings [] "type"
  = optimise_interval_class_weights ascending_list exact_normal_equations
      pair_batch pair_batch_ratings [] "type".
Proof.
  apply (optimisers_transposition ascending_list exact_normal_equations
           pair_batch [[65; 79]; [50; 63]]%Z).
  repeat constructor.
  - exists 5%Z. by repeat constructor.
  - exists 2%Z. by repeat constructor.
Defined.

(** X22: when the array of the batch is one-dimensional over the chords
    (chords of different sizes, or pairs only), there is one rating per
    chord, and the ratings are a numpy array or there are no exclusions,
    the code around the regression cannot fail. With a listing that lists
    the elements of the set and a solver that returns a weight for every
    column, each optimiser returns, or fails with an exception raised by
    the solver: every chord is counted over labels that contain its own,
    every mask fits, and the padding finds a weight for every label. *)
Theorem optimisers_fail_only_in_solver (list_of_set : gset Z → list Z)
    (normal_equations : nat → list (list pyfloat) → list pyfloat → result (list pyfloat))
    (pitches_lst : list (list Z)) (ratings : ratings_arg) (exclude : list Z)
    (agg_method : string) :
  faithful_listing list_of_set → full_solution normal_equations →
  pitches_lst ≠ [] →
  np_size (chord_intervals pitches_lst) = length pitches_lst →
  length (ratings_values ratings) = length pitches_lst →
  exclude = [] ∨ (∃ rs, ratings = RatingsArray rs) →
  fails_only_in normal_equations
    (optimise_interval_weights list_of_set normal_equations pitches_lst ratings
       exclude agg_method) ∧
  fails_only_in normal_equations
    (optimise_interval_class_weights list_of_set normal_equations pitches_lst ratings
       exclude agg_method).
Proof.
  intros Hfaith Hfull Hne Hsize Hlen Harray.
  rewrite optimise_interval_weights_fit, optimise_interval_class_weights_fit. split.
  - apply fit_labels_total; try done.
    + apply NoDup_range.
    + apply chord_intervals_range.
    + by rewrite chord_intervals_nil.
    + by rewrite chord_intervals_length.
    + by rewrite chord_intervals_length.
  - apply fit_labels_total; try done.
    + apply NoDup_range.
    + apply chord_classes_range.
    + by rewrite chord_classes_nil.
    + by rewrite chord_classes_intervals, np_size_fmap, length_fmap,
        chord_intervals_length.
    + by rewrite chord_classes_length.
Qed.

Lemma optimisers_fail_only_in_solver_witness :
  fails_only_in exact_normal_equations
    (optimise_interval_weights ascending_list exact_normal_equations ragged_batch
       ragged_batch_ratings [1]%Z "type") ∧
  fails_only_in exact_normal_equations
    (optimise_interval_class_weights ascending_list exact_normal_equations ragged_batch
       ragged_batch_ratings [1]%Z "type").
Proof.
  apply (optimisers_fail_only_in_solver ascending_list exact_normal_equations
           ragged_batch ragged_batch_ratings [1]%Z "type").
  - apply ascending_list_faithful.
  - apply exact_normal_equations_full.
  - done.
  - vm_compute. reflexivity.
  - reflexivity.
  - right. by eexists.
Defined.

Section rank_facts.
Implicit Types (weights : list pyfloat) (interval_set : gset Z) (full_range : list Z).

Local Abbreviation padding_body weights interval_set :=
  (λ '(full_weights, j) i,
    if decide (i ∈ interval_set) then
      match weights !! j with
      | Some w => Ok (full_weights ++ [Some w], S j)
      | None => Raise IndexError
      end
    else Ok (full_weights ++ [None], j)).

Lemma include_missing_loop_lookup weights interval_set full_range
    (acc : list (option pyfloat)) j r :
  for_each (padding_body weights interval_set) (acc, j) full_range = Ok r →
  ∀ k label, full_range !! k = Some label → label ∈ interval_set →
    ∃ w, weights !! (j + length (filter (.∈ interval_set) (take k full_range))) = Some w ∧
         r.1 !! (length acc + k) = Some (Some w).
Proof.
  revert acc j. induction full_range as [|i full_range IH]; intros acc j Hloop k label Hk Hin.
  { done. }
  rewrite for_each_cons in Hloop. destruct (decide (i ∈ interval_set)) as [Hi|Hi].
  - destruct (weights !! j) as [w0|] eqn:Hw0; [|done]. rewrite bind_Ok_l in Hloop.
    destruct k as [|k].
    + injection Hk as <-. exists w0. rewrite take_0, filter_nil, !Nat.add_0_r.
      split; [done|].
      apply include_missing_loop in Hloop as (ys & -> & _). simpl.
      rewrite <-app_assoc. by apply list_lookup_middle.
    + change (full_range !! k = Some label) in Hk.
      destruct (IH _ _ Hloop k label Hk Hin) as (w & Hw & Hr).
      exists w. rewrite firstn_cons, filter_cons_True by done. simpl.
      rewrite length_app in Hr. simpl in Hr.
      replace (j + S (length (filter (.∈ interval_set) (take k full_range))))
        with (S j + length (filter (.∈ interval_set) (take k full_range))) by lia.
      replace (length acc + S k) with (length acc + 1 + k) by lia. done.
  - rewrite bind_Ok_l in Hloop. destruct k as [|k].
    + injection Hk as <-. done.
    + change (full_range !! k = Some label) in Hk.
      destruct (IH _ _ Hloop k label Hk Hin) as (w & Hw & Hr).
      exists w. rewrite firstn_cons, filter_cons_False by done.
      rewrite length_app in Hr. simpl in Hr.
      replace (length acc + S k) with (length acc + 1 + k) by lia. done.
Qed.

Lemma StronglySorted_filter {A} (R : relation A) (P : A → Prop)
    `{!∀ x, Decision (P x)} (l : list A) :
  StronglySorted R l → StronglySorted R (filter P l).
Proof.
  induction 1 as [|x l Hl IH Hx]; [constructor|].
  rewrite filter_cons. case_decide; [|done].
  constructor; [done|]. rewrite Forall_forall in Hx |- *.
  intros y [_ Hy]%list_elem_of_filter. by apply Hx.
Qed.

Lemma range_sorted a b : StronglySorted (le_of Z.ltb) (range a b).
Proof.
  unfold range. generalize (Z.to_nat (b - a)) as n. generalize 0 as s.
  intros s n. revert s. induction n as [|n IH]; intros s; [constructor|].
  simpl. constructor; [apply IH|].
  apply Forall_fmap, Forall_forall. intros i [? ?]%elem_of_seq.
  unfold le_of. simpl. apply Z.ltb_ge. lia.
Qed.

(** Within a range the ascending listing of a set is the range, filtered. *)
Lemma ascending_list_filter interval_set a b :
  (∀ x, x ∈ interval_set → (a ≤ x < b)%Z) →
  ascending_list interval_set = filter (.∈ interval_set) (range a b).
Proof.
  intros Hsub. unfold ascending_list.
  rewrite <-(py_sort_id Z.ltb (filter (.∈ interval_set) (range a b))).
  - apply (py_sort_unique Z.ltb).
    apply NoDup_Permutation;
      [apply NoDup_elements|apply NoDup_filter, NoDup_range|].
    intros x. rewrite list_elem_of_filter, elem_of_elements, elem_of_range.
    split; [|tauto]. intros Hx. split; [done|by apply Hsub].
  - apply StronglySorted_filter, range_sorted.
Qed.
End rank_facts.

(** X23: the padding hands out the weights by ascending label. For a set
    of labels within the range, the r-th weight is stored at the r-th
    smallest label of the set, whatever order of the labels the weights
    were computed in. *)
Theorem include_missing_by_rank (weights : list pyfloat) (interval_set : gset Z)
    (a b : Z) (table : list (option pyfloat)) :
  (∀ x, x ∈ interval_set → (a ≤ x < b)%Z) →
  include_missing weights interval_set (range a b) = Ok table →
  ∀ r label, ascending_list interval_set !! r = Some label →
    ∃ w, weights !! r = Some w ∧ table !! Z.to_nat (label - a) = Some (Some w).
Proof.
  intros Hsub Htable r label Hr.
  assert (label ∈ interval_set) as Hin.
  { apply list_elem_of_lookup_2 in Hr. unfold ascending_list in Hr.
    by rewrite elem_of_py_sort, elem_of_elements in Hr. }
  pose proof (Hsub label Hin) as Hlabel.
  assert (range a b !! Z.to_nat (label - a) = Some label) as Hk.
  { rewrite range_lookup by lia. f_equal. lia. }
  unfold include_missing in Htable.
  apply fmap_Ok in Htable as (res & Hloop & ->).
  destruct (include_missing_loop_lookup _ _ _ _ _ _ Hloop _ _ Hk Hin) as (w & Hw & Ht).
  exists w. split; [|done].
  replace r with (length (filter (.∈ interval_set)
                            (take (Z.to_nat (label - a)) (range a b)))); [done|].
  assert (NoDup (ascending_list interval_set)) as Hnd.
  { unfold ascending_list. rewrite py_sort_perm. apply NoDup_elements. }
  apply (NoDup_lookup _ _ _ label Hnd); [|done].
  rewrite (ascending_list_filter interval_set a b Hsub).
  set (k := Z.to_nat (label - a)) in *.
  assert (filter (.∈ interval_set) (range a b)
          = filter (.∈ interval_set) (take k (range a b))
            ++ label :: filter (.∈ interval_set) (drop (S k) (range a b))) as ->.
  { rewrite <-(take_drop k (range a b)) at 1.
    by rewrite (drop_S _ _ _ Hk), filter_app, filter_cons_True by done. }
  by apply list_lookup_middle.
Qed.

Lemma include_missing_by_rank_witness :
  ∃ w, [Fin 5; Fin 7] !! 1 = Some w ∧
       [Some (Fin 5); None; None; None; None; None; None; Some (Fin 7);
        None; None; None; None] !! Z.to_nat (8 - 1) = Some (Some w).
Proof.
  apply (include_missing_by_rank [Fin 5; Fin 7] {[8; 1]}%Z 1 13).
  - intros x [->%elem_of_singleton| ->%elem_of_singleton]%elem_of_union; lia.
  - vm_compute. reflexivity.
  - vm_compute. reflexivity.
Defined.

Section fit_labels_perm_facts.
Context (list_of_set : gset Z → list Z).
Context (normal_equations :
  nat → list (list pyfloat) → list pyfloat → result (list pyfloat)).
Implicit Types (labels_lst : list (list Z)) (ratings : list pyfloat).

Lemma for_each_ext {A S} (body body' : S → A → result S) s l :
  (∀ s x, x ∈ l → body s x = body' s x) → for_each body s l = for_each body' s l.
Proof.
  revert s. induction l as [|x l IH]; intros s Hbody; [done|].
  rewrite !for_each_cons, Hbody by left.
  destruct (body' s x) as [s'|e]; [|done]. rewrite !bind_Ok_l.
  apply IH. intros s0 y Hy. apply Hbody. by right.
Qed.

Lemma for_each_Forall2 {A S} (body : S → A → result S) s l l' :
  Forall2 (λ x y, ∀ s, body s x = body s y) l l' →
  for_each body s l = for_each body s l'.
Proof.
  intros Hl. revert s. induction Hl as [|x y l l' Hxy _ IH]; intros s; [done|].
  rewrite !for_each_cons, Hxy.
  destruct (body s y) as [s'|e]; [|done]. rewrite !bind_Ok_l. apply IH.
Qed.

Lemma mjoin_Forall2_perm labels_lst labels_lst' :
  Forall2 (≡ₚ) labels_lst labels_lst' → mjoin labels_lst ≡ₚ mjoin labels_lst'.
Proof. induction 1 as [|???? Hxy _ IH]; csimpl; [done|]. by rewrite Hxy, IH. Qed.

Lemma np_size_Forall2 labels_lst labels_lst' :
  Forall2 (λ row row', length row = length row') labels_lst labels_lst' →
  np_size labels_lst = np_size labels_lst'.
Proof.
  intros Hl. destruct Hl as [|row row' rows rows' Hrow Hrows]; [done|].
  assert (Forall (λ r, length r = length row) rows
          ↔ Forall (λ r, length r = length row') rows') as Hiff.
  { rewrite Hrow. clear Hrow.
    induction Hrows as [|x y l l' Hxy _ IH]; [done|].
    by rewrite !Forall_cons, IH, Hxy. }
  unfold np_size. rewrite !length_cons, (Forall2_length _ _ _ Hrows).
  destruct (decide (Forall (λ r, length r = length row) rows)) as [Hall|Hnot].
  - rewrite decide_True by (by apply Hiff). by rewrite Hrow.
  - rewrite decide_False by (by rewrite <-Hiff). done.
Qed.

Lemma np_mask_Forall2 {A} (R : A → A → Prop) (xs xs' : list A) mask :
  Forall2 R xs xs' →
  (np_mask xs mask = Raise IndexError ∧ np_mask xs' mask = Raise IndexError) ∨
  ∃ r r', np_mask xs mask = Ok r ∧ np_mask xs' mask = Ok r' ∧ Forall2 R r r'.
Proof.
  intros Hxs. pose proof (Forall2_length _ _ _ Hxs) as Hlen. unfold np_mask.
  destruct (decide (length xs = length mask)) as [Hm|Hm].
  - rewrite decide_True by lia. right. do 2 eexists. split_and!; [done..|].
    clear Hlen Hm. revert mask.
    induction Hxs as [|x y xs xs' Hxy _ IH]; intros [|[] mask];
      [constructor..| |].
    + change (zip (x :: xs) (true :: mask)) with ((x, true) :: zip xs mask).
      change (zip (y :: xs') (true :: mask)) with ((y, true) :: zip xs' mask).
      rewrite !filter_cons_True by done. csimpl. constructor; [done|apply IH].
    + change (zip (x :: xs) (false :: mask)) with ((x, false) :: zip xs mask).
      change (zip (y :: xs') (false :: mask)) with ((y, false) :: zip xs' mask).
      rewrite !filter_cons_False by done. apply IH.
  - rewrite decide_False by lia. by left.
Qed.

Context (Hlisting : ∀ s, NoDup (list_of_set s)).

Lemma optimise_weights_perm labels_lst labels_lst' ratings (label_set : gset Z)
    agg_method :
  Forall2 (≡ₚ) labels_lst labels_lst' →
  optimise_weights list_of_set normal_equations labels_lst ratings label_set agg_method
  = optimise_weights list_of_set normal_equations labels_lst' ratings label_set agg_method.
Proof.
  intros Hl. unfold optimise_weights.
  rewrite (Forall2_length _ _ _ Hl). case_decide; [done|]. cbv zeta.
  f_equal. apply for_each_Forall2.
  eapply Forall2_impl; [done|]. intros ivls ivls' Hp A. cbv beta.
  rewrite (count_perm _ _ _ (Hlisting label_set) Hp).
  assert (length ivls = length ivls') as -> by by rewrite Hp.
  done.
Qed.

Lemma exclusion_groups_loop_perm exclusions (l l' : list (list Z)) k
    (g : list (option nat)) :
  Forall2 (≡ₚ) l l' →
  for_each (λ exclusion_group '(i, ivls),
    match list_find (λ ex : list Z, Forall (λ ivl, ivl ∉ ex) ivls) exclusions with
    | Some (j, _) =>
        if decide (i < length exclusion_group)
        then Ok (<[i := Some j]> exclusion_group)
        else Raise IndexError
    | None => Ok exclusion_group
    end) g (imap (λ i, pair (k + i)) l)
  = for_each (λ exclusion_group '(i, ivls),
    match list_find (λ ex : list Z, Forall (λ ivl, ivl ∉ ex) ivls) exclusions with
    | Some (j, _) =>
        if decide (i < length exclusion_group)
        then Ok (<[i := Some j]> exclusion_group)
        else Raise IndexError
    | None => Ok exclusion_group
    end) g (imap (λ i, pair (k + i)) l').
Proof.
  intros Hl. revert k g. induction Hl as [|ivls ivls' l l' Hp _ IH]; intros k g; [done|].
  rewrite !imap_cons, !for_each_cons.
  rewrite (imap_ext _ (λ i, pair (S k + i)) l)
    by (intros i x _; simpl; f_equal; lia).
  rewrite (imap_ext _ (λ i, pair (S k + i)) l')
    by (intros i x _; simpl; f_equal; lia).
  rewrite (list_find_ext (λ ex : list Z, Forall (λ ivl, ivl ∉ ex) ivls)
             (λ ex : list Z, Forall (λ ivl, ivl ∉ ex) ivls'))
    by (intros ex; by rewrite Hp).
  destruct (list_find _ exclusions) as [[j ex]|].
  - case_decide; [|done]. rewrite !bind_Ok_l. apply IH.
  - rewrite !bind_Ok_l. apply IH.
Qed.

Lemma get_exclusion_groups_perm labels_lst labels_lst' exclusions :
  Forall2 (≡ₚ) labels_lst labels_lst' →
  get_exclusion_groups labels_lst exclusions
  = get_exclusion_groups labels_lst' exclusions.
Proof.
  intros Hl. unfold get_exclusion_groups.
  rewrite (np_size_Forall2 labels_lst labels_lst').
  2:{ eapply Forall2_impl; [done|]. by intros ?? ->. }
  apply (exclusion_groups_loop_perm exclusions labels_lst labels_lst' 0 _ Hl).
Qed.

Lemma fit_group_perm full_range labels_lst labels_lst' (ratings : ratings_arg)
    (label_set : gset Z)
    exclusion_groups agg_method i ex :
  Forall2 (≡ₚ) labels_lst labels_lst' →
  fit_group list_of_set normal_equations full_range labels_lst ratings label_set
    exclusion_groups agg_method i ex
  = fit_group list_of_set normal_equations full_range labels_lst' ratings label_set
      exclusion_groups agg_method i ex.
Proof.
  intros Hl. unfold fit_group. cbv zeta.
  destruct (np_mask_Forall2 (≡ₚ) labels_lst labels_lst'
              ((λ g, bool_decide (g = Some i)) <$> exclusion_groups) Hl)
    as [[-> ->]|(r & r' & -> & -> & Hr)]; [done|].
  rewrite !bind_Ok_l.
  destruct (ratings_mask ratings _) as [rs|e]; [|done]. rewrite !bind_Ok_l.
  by rewrite (optimise_weights_perm r r').
Qed.

Lemma fit_labels_perm full_range labels_lst labels_lst' (ratings : ratings_arg)
    exclude agg_method :
  Forall2 (≡ₚ) labels_lst labels_lst' →
  fit_labels list_of_set normal_equations full_range labels_lst ratings exclude agg_method
  = fit_labels list_of_set normal_equations full_range labels_lst' ratings exclude
      agg_method.
Proof.
  intros Hl. unfold fit_labels.
  destruct Hl as [|row row' rows rows' Hrow Hrows]; [done|].
  rewrite !decide_False by done. cbv zeta.
  assert (Forall2 (≡ₚ) (row :: rows) (row' :: rows')) as Hl by by constructor.
  assert ((list_to_set (mjoin (row :: rows)) : gset Z)
          = list_to_set (mjoin (row' :: rows'))) as ->.
  { apply list_to_set_perm_L. by apply mjoin_Forall2_perm. }
  case_decide.
  - by rewrite (optimise_weights_perm _ _ _ _ _ Hl).
  - rewrite (get_exclusion_groups_perm _ _ _ Hl).
    destruct (get_exclusion_groups _ _) as [groups|e]; [|done].
    rewrite !bind_Ok_l. f_equal. apply for_each_ext.
    intros weights [i ex] _. by rewrite (fit_group_perm _ _ _ _ _ _ _ _ _ Hl).
Qed.
End fit_labels_perm_facts.

(** X24: [optimise_interval_class_weights] does not depend on the order in
    which the pitches of each chord are listed: on a batch with reordered
    chords it returns the same tables, or fails in the same way. The
    listing of a set, like Python's, has no repeated element. *)
Theorem optimise_interval_class_weights_reorder (list_of_set : gset Z → list Z)
    (normal_equations : nat → list (list pyfloat) → list pyfloat → result (list pyfloat))
    (pitches_lst pitches_lst' : list (list Z)) (ratings : ratings_arg)
    (exclude_ivcs : list Z) (agg_method : string) :
  (∀ s, NoDup (list_of_set s)) →
  Forall2 (≡ₚ) pitches_lst pitches_lst' →
  optimise_interval_class_weights list_of_set normal_equations pitches_lst ratings
    exclude_ivcs agg_method
  = optimise_interval_class_weights list_of_set normal_equations pitches_lst' ratings
      exclude_ivcs agg_method.
Proof.
  intros Hlisting Hp. rewrite !optimise_interval_class_weights_fit.
  apply fit_labels_perm; [done|].
  unfold chord_classes. apply Forall2_fmap.
  eapply Forall2_impl; [done|]. intros pitches pitches' Hperm. simpl.
  by apply interval_classes_perm.
Qed.

Lemma optimise_interval_class_weights_reorder_witness :
  optimise_interval_class_weights ascending_list exact_normal_equations
    full_batch full_batch_ratings [1]%Z "type"
  = optimise_interval_class_weights ascending_list exact_normal_equations
      [[62; 60]; [61; 60]; [62; 60; 61]]%Z full_batch_ratings [1]%Z "type".
Proof.
  apply (optimise_interval_class_weights_reorder ascending_list exact_normal_equations
           full_batch [[62; 60]; [61; 60]; [62; 60; 61]]%Z).
  - intros s. unfold ascending_list. rewrite py_sort_perm. apply NoDup_elements.
  - unfold full_batch. repeat constructor.
    apply perm_trans with [60; 62; 61]%Z; repeat constructor.
Defined.

Section strictly_sorted_more_facts.
Context {A} (lt : A → A → bool) `{!TotalLt lt}.

Lemma strictly_sorted_unique (s1 s2 : list A) :
  strictly_sorted lt s1 → strictly_sorted lt s2 → (∀ x, x ∈ s1 ↔ x ∈ s2) → s1 = s2.
Proof.
  intros H1 H2 Heq.
  rewrite <-(py_sort_strictly_sorted_id lt s1 H1), <-(py_sort_strictly_sorted_id lt s2 H2).
  apply (py_sort_unique lt).
  apply strictly_sorted_iff in H1 as [_ Hnd1]; [|done].
  apply strictly_sorted_iff in H2 as [_ Hnd2]; [|done].
  by apply NoDup_Permutation.
Qed.
End strictly_sorted_more_facts.

Section sorted_exclusions_facts.
Implicit Types exclude : list Z.

Lemma elem_of_sorted_exclusions exclude s :
  NoDup exclude →
  s ∈ sorted_exclusions exclude ↔ strictly_sorted Z.ltb s ∧ s ⊆ exclude.
Proof.
  intros Hnd. unfold sorted_exclusions. rewrite elem_of_py_sort.
  by apply elem_of_exclusion_combinations; [apply _|].
Qed.

Lemma NoDup_sorted_exclusions exclude :
  NoDup exclude → NoDup (sorted_exclusions exclude).
Proof.
  intros Hnd. unfold sorted_exclusions. rewrite py_sort_perm.
  by apply NoDup_exclusion_combinations; [apply _|].
Qed.

Lemma strictly_sorted_labels (a : Z) (s : list nat) :
  strictly_sorted Nat.ltb s →
  strictly_sorted Z.ltb ((λ j, a + Z.of_nat j)%Z <$> s).
Proof.
  unfold strictly_sorted. induction 1 as [|j s Hs IH Hj]; csimpl; [constructor|].
  constructor; [done|]. apply Forall_fmap. eapply Forall_impl; [done|].
  intros j' Hlt. simpl. apply Nat.ltb_lt in Hlt. apply Z.ltb_lt. lia.
Qed.
End sorted_exclusions_facts.

(** The tables fitted for the exclusion groups, as the validation of the
    scoring functions sees them. Position [k] of a table stands for the
    label [a + k]. *)
Section fitted_tables_facts.
Context (a : Z) (n : nat) (obs : Z → Prop).
Context (exclude : list Z) (tables : list (list (option pyfloat))).
Context (Hnd : NoDup exclude).
Context (Hrange : ∀ x, x ∈ exclude → (a ≤ x < a + Z.of_nat n)%Z).
Context (Hlen : length tables = length (sorted_exclusions exclude)).
Context (Htables : ∀ i ex table,
  sorted_exclusions exclude !! i = Some ex → tables !! i = Some table →
  length table = n ∧
  ∀ k, k < n →
    (table !! k = Some None ↔
     (a + Z.of_nat k)%Z ∈ ex ∨ ¬ obs (a + Z.of_nat k)%Z)).

Lemma fitted_tables_exclusion i table :
  tables !! i = Some table → ∃ ex, sorted_exclusions exclude !! i = Some ex.
Proof.
  intros Hi. apply lookup_lt_is_Some_2. rewrite <-Hlen. by eapply lookup_lt_Some.
Qed.

Lemma fitted_tables_same_lengths : same_lengths tables.
Proof.
  intros w1 w2 [i1 H1]%list_elem_of_lookup [i2 H2]%list_elem_of_lookup.
  destruct (fitted_tables_exclusion _ _ H1) as [ex1 Hex1].
  destruct (fitted_tables_exclusion _ _ H2) as [ex2 Hex2].
  destruct (Htables _ _ _ Hex1 H1) as [-> _].
  by destruct (Htables _ _ _ Hex2 H2) as [-> _].
Qed.

Lemma fitted_tables_ne : tables ≠ [].
Proof.
  intros ->. simpl in Hlen. rewrite sorted_exclusions_length in Hlen.
  pose proof (Nat.pow_nonzero 2 (length exclude)). lia.
Qed.

Lemma fitted_tables_missing k :
  k < n → ¬ obs (a + Z.of_nat k)%Z → ¬ one_table_per_combination tables.
Proof.
  intros Hk Hnot Hone.
  destruct (Hone []) as (i & (table & Hi & Hsig) & _).
  { split; [constructor|]. by intros j ?%elem_of_nil. }
  destruct (fitted_tables_exclusion _ _ Hi) as [ex Hex].
  destruct (Htables _ _ _ Hex Hi) as [_ Hnull].
  assert (k ∈ null_ixs table) as Hin.
  { apply elem_of_null_ixs, Hnull; [done|by right]. }
  rewrite Hsig in Hin. by apply elem_of_nil in Hin.
Qed.

Lemma fitted_tables_complete :
  (∀ k, k < n → obs (a + Z.of_nat k)%Z) → one_table_per_combination tables.
Proof.
  intros Hobs.
  assert (∀ i ex table j,
    sorted_exclusions exclude !! i = Some ex → tables !! i = Some table →
    j ∈ null_ixs table ↔ j < n ∧ (a + Z.of_nat j)%Z ∈ ex) as Hsig.
  { intros i ex table j Hex Hi. rewrite elem_of_null_ixs.
    destruct (Htables _ _ _ Hex Hi) as [Hl Hnull]. split.
    - intros Hj. assert (j < n) as Hjn by (rewrite <-Hl; by eapply lookup_lt_Some).
      split; [done|]. apply Hnull in Hj as [?|Hnot]; [done| |done].
      destruct Hnot. by apply Hobs.
    - intros [Hjn Hin]. apply Hnull; [done|by left]. }
  intros s [Hs Hsub].
  assert (∀ j, j ∈ s → j < n ∧ (a + Z.of_nat j)%Z ∈ exclude) as Hs_in.
  { intros j Hj. destruct (Hsub j Hj) as (table & [i Hi]%list_elem_of_lookup & Hnull).
    destruct (fitted_tables_exclusion _ _ Hi) as [ex Hex].
    apply elem_of_null_ixs in Hnull.
    destruct (proj1 (Hsig _ _ _ j Hex Hi) Hnull) as [Hjn Hin]. split; [done|].
    apply list_elem_of_lookup_2 in Hex.
    apply elem_of_sorted_exclusions in Hex as [_ Hsubex]; [|done]. by apply Hsubex. }
  assert (strictly_sorted Z.ltb ((λ j, a + Z.of_nat j)%Z <$> s)) as Hsorted
    by by apply strictly_sorted_labels.
  assert (((λ j, a + Z.of_nat j)%Z <$> s) ∈ sorted_exclusions exclude) as Hex.
  { apply elem_of_sorted_exclusions; [done|]. split; [done|].
    intros x (j & -> & Hj)%list_elem_of_fmap. by apply Hs_in. }
  apply list_elem_of_lookup in Hex as [i Hi].
  destruct (lookup_lt_is_Some_2 tables i) as [table Ht].
  { rewrite Hlen. by eapply lookup_lt_Some. }
  exists i. split.
  - exists table. split; [done|].
    apply (strictly_sorted_unique Nat.ltb); [apply null_ixs_strictly_sorted|done|].
    intros j. rewrite (Hsig _ _ _ j Hi Ht), list_elem_of_fmap. split.
    + intros [_ (j' & Heq & Hj')]. by assert (j = j') as -> by lia.
    + intros Hj. split; [by apply Hs_in|]. by exists j.
  - intros i' (table' & Ht' & Hsig').
    destruct (fitted_tables_exclusion _ _ Ht') as [ex' Hex'].
    assert (ex' = (λ j, a + Z.of_nat j)%Z <$> s) as ->.
    { apply list_elem_of_lookup_2 in Hex' as Hin'.
      apply elem_of_sorted_exclusions in Hin' as [Hsorted' Hsub']; [|done].
      apply (strictly_sorted_unique Z.ltb); [done..|].
      intros x. rewrite list_elem_of_fmap. split.
      - intros Hx. pose proof (Hrange x (Hsub' x Hx)) as Hbounds.
        exists (Z.to_nat (x - a)). split; [lia|].
        rewrite <-Hsig'. apply (Hsig _ _ _ _ Hex' Ht'). split; [lia|].
        by replace (a + Z.of_nat (Z.to_nat (x - a)))%Z with x by lia.
      - intros (j & -> & Hj). rewrite <-Hsig' in Hj.
        by destruct (proj1 (Hsig _ _ _ j Hex' Ht') Hj) as [_ ?]. }
    by eapply NoDup_lookup; [apply NoDup_sorted_exclusions|..].
Qed.

Lemma fitted_tables_validation :
  ((∀ k, k < n → obs (a + Z.of_nat k)%Z) → check_weight_exclusions tables = Ok ()) ∧
  (∀ k, k < n → ¬ obs (a + Z.of_nat k)%Z →
     check_weight_exclusions tables
       = Raise (Exception "exclusion combinations are not complete")).
Proof.
  split.
  - intros Hobs. apply check_weight_exclusions_spec. split.
    + apply fitted_tables_same_lengths.
    + by apply fitted_tables_complete.
  - intros k Hk Hnot. apply (proj2 (check_weight_exclusions_cases tables)).
    + apply fitted_tables_ne.
    + apply fitted_tables_same_lengths.
    + by eapply fitted_tables_missing.
Qed.
End fitted_tables_facts.

Section scoring_of_fitted_facts.
Implicit Types (pitches : list Z) (tables : list (list (option pyfloat))).

Lemma interval_counts_Ok pitches :
  ∃ h, count (get_octave_intervals pitches) (range 1 13) = Ok h ∧ length h = 12.
Proof.
  destruct (count_loop_Ok (range 1 13) (get_octave_intervals pitches) (replicate 12 0))
    as [h Hh].
  { eapply Forall_impl; [apply get_octave_intervals_bounds|].
    intros x ?. apply elem_of_range. simpl in *. lia. }
  destruct (count_loop_sum (range 1 13) _ (replicate 12 0) h eq_refl Hh) as [Hlen _].
  by exists h.
Qed.

Lemma class_counts_Ok pitches :
  ∃ h, count (interval_class <$> get_octave_intervals pitches) (range 0 7) = Ok h ∧
       length h = 7.
Proof.
  destruct (count_loop_Ok (range 0 7) (interval_class <$> get_octave_intervals pitches)
              (replicate 7 0)) as [h Hh].
  { eapply Forall_impl; [apply interval_classes_bounds|].
    intros x ?. apply elem_of_range. simpl in *. lia. }
  destruct (count_loop_sum (range 0 7) _ (replicate 7 0) h eq_refl Hh) as [Hlen _].
  by exists h.
Qed.

Lemma consonance_score_invalid n_intervals counts n_labels msg tables agg_method e :
  tables ≠ [] → check_weight_exclusions tables = Raise e →
  consonance_score n_intervals counts n_labels msg (Piecewise tables) agg_method
    = Raise e.
Proof.
  intros Hne Hcheck. unfold consonance_score, resolve_weights.
  destruct tables as [|first rest]; [done|]. by rewrite Hcheck.
Qed.

Lemma interval_consonance_invalid pitches tables agg_method e :
  tables ≠ [] → check_weight_exclusions tables = Raise e →
  interval_consonance pitches (Piecewise tables) agg_method = Raise e.
Proof.
  intros Hne Hcheck. rewrite interval_consonance_score.
  destruct (interval_counts_Ok pitches) as (h & -> & _). rewrite bind_Ok_l.
  by apply consonance_score_invalid.
Qed.

Lemma interval_class_consonance_invalid pitches tables agg_method e :
  tables ≠ [] → check_weight_exclusions tables = Raise e →
  interval_class_consonance pitches (Piecewise tables) agg_method = Raise e.
Proof.
  intros Hne Hcheck. rewrite interval_class_consonance_score.
  destruct (class_counts_Ok pitches) as (h & -> & _). rewrite bind_Ok_l.
  by apply consonance_score_invalid.
Qed.

Lemma interval_consonance_None pitches (weights : list (option pyfloat)) agg_method :
  length weights = 12 → None ∈ weights → agg_method = "sum" ∨ agg_method = "type" →
  interval_consonance pitches (Flat weights) agg_method = Raise TypeError.
Proof.
  intros Hlen Hin Hagg. rewrite interval_consonance_score.
  destruct (interval_counts_Ok pitches) as (h & -> & Hh). rewrite bind_Ok_l.
  by apply consonance_score_flat_errors.
Qed.

Lemma interval_class_consonance_None pitches (weights : list (option pyfloat))
    agg_method :
  length weights = 7 → None ∈ weights → agg_method = "sum" ∨ agg_method = "type" →
  interval_class_consonance pitches (Flat weights) agg_method = Raise TypeError.
Proof.
  intros Hlen Hin Hagg. rewrite interval_class_consonance_score.
  destruct (class_counts_Ok pitches) as (h & -> & Hh). rewrite bind_Ok_l.
  by apply consonance_score_flat_errors.
Qed.

Lemma no_null_is_Some (table : list (option pyfloat)) n :
  length table = n → (∀ k, k < n → table !! k ≠ Some None) → Forall is_Some table.
Proof.
  intros Hlen Hnull. apply Forall_forall. intros [w|] Hw; [by eexists|].
  apply list_elem_of_lookup in Hw as [k Hk]. destruct (Hnull k); [|done].
  rewrite <-Hlen. by eapply lookup_lt_Some.
Qed.
End scoring_of_fitted_facts.

(** X25: a flat table fitted to a batch that misses a label cannot be used
    to score any chord. When [optimise_interval_weights] returns without
    exclusions and some interval from 1 to 12 occurs in no chord of the
    batch, [interval_consonance] with the returned table raises [TypeError]
    for every chord, under "sum" and under "type"; when every interval
    occurs the table has twelve weights and no null. The same holds of
    [optimise_interval_class_weights], [interval_class_consonance] and the
    classes 0 to 6. *)
Theorem fitted_flat_table_scoring (list_of_set : gset Z → list Z)
    (normal_equations : nat → list (list pyfloat) → list pyfloat → result (list pyfloat))
    (pitches_lst : list (list Z)) (ratings : ratings_arg) (agg_method : string)
    (weights : weights_arg) :
  (optimise_interval_weights list_of_set normal_equations pitches_lst ratings []
     agg_method = Ok weights →
   (∀ k pitches agg, k < 12 → ¬ observed pitches_lst (Z.of_nat (S k)) →
      agg = "sum" ∨ agg = "type" →
      interval_consonance pitches weights agg = Raise TypeError) ∧
   ((∀ k, k < 12 → observed pitches_lst (Z.of_nat (S k))) →
    ∃ table, weights = Flat table ∧ length table = 12 ∧ Forall is_Some table)) ∧
  (optimise_interval_class_weights list_of_set normal_equations pitches_lst ratings []
     agg_method = Ok weights →
   (∀ k pitches agg, k < 7 → ¬ observed_class pitches_lst (Z.of_nat k) →
      agg = "sum" ∨ agg = "type" →
      interval_class_consonance pitches weights agg = Raise TypeError) ∧
   ((∀ k, k < 7 → observed_class pitches_lst (Z.of_nat k)) →
    ∃ table, weights = Flat table ∧ length table = 7 ∧ Forall is_Some table)).
Proof.
  split.
  - rewrite optimise_interval_weights_fit.
    intros (table & ws & -> & _ & Hlen & Hnull & _)%fit_labels_flat.
    assert (∀ k, k < 12 →
      table !! k = Some None ↔ ¬ observed pitches_lst (Z.of_nat (S k))) as Hnull'.
    { intros k Hk. rewrite (Hnull k (Z.of_nat (S k))).
      - by rewrite elem_of_chord_intervals.
      - rewrite range_lookup by lia. f_equal. lia. }
    split.
    + intros k pitches agg Hk Hnot Hagg.
      apply interval_consonance_None; [done| |done].
      apply (list_elem_of_lookup_2 _ k). by apply Hnull'.
    + intros Hobs. exists table. split_and!; [done..|].
      apply (no_null_is_Some _ 12 Hlen). intros k Hk Hk'.
      apply Hnull' in Hk'; [|done]. destruct Hk'. by apply Hobs.
  - rewrite optimise_interval_class_weights_fit.
    intros (table & ws & -> & _ & Hlen & Hnull & _)%fit_labels_flat.
    assert (∀ k, k < 7 →
      table !! k = Some None ↔ ¬ observed_class pitches_lst (Z.of_nat k)) as Hnull'.
    { intros k Hk. rewrite (Hnull k (Z.of_nat k)).
      - by rewrite elem_of_chord_classes.
      - rewrite range_lookup by lia. f_equal. }
    split.
    + intros k pitches agg Hk Hnot Hagg.
      apply interval_class_consonance_None; [done| |done].
      apply (list_elem_of_lookup_2 _ k). by apply Hnull'.
    + intros Hobs. exists table. split_and!; [done..|].
      apply (no_null_is_Some _ 7 Hlen). intros k Hk Hk'.
      apply Hnull' in Hk'; [|done]. destruct Hk'. by apply Hobs.
Qed.

Lemma fitted_flat_table_scoring_witness :
  (∀ k pitches agg, k < 12 → ¬ observed pair_batch (Z.of_nat (S k)) →
     agg = "sum" ∨ agg = "type" →
     interval_consonance pitches
       (Flat (Some (Fin 7) :: Some (Fin 5) :: replicate 10 None)) agg
       = Raise TypeError) ∧
  ((∀ k, k < 12 → observed pair_batch (Z.of_nat (S k))) →
   ∃ table, Flat (Some (Fin 7) :: Some (Fin 5) :: replicate 10 None) = Flat table ∧
     length table = 12 ∧ Forall is_Some table).
Proof.
  apply (proj1 (fitted_flat_table_scoring ascending_list exact_normal_equations
                  pair_batch pair_batch_ratings "type"
                  (Flat (Some (Fin 7) :: Some (Fin 5) :: replicate 10 None)))).
  vm_compute. reflexivity.
Defined.

(** X26: the tables that [optimise_interval_weights] fits for a list of
    distinct excluded intervals from 1 to 12 pass the validation of the
    scoring function exactly when every interval occurs in the batch. If
    every interval from 1 to 12 occurs in some chord,
    [check_weight_exclusions] accepts the returned tables; if one occurs in
    no chord, every table is null at it, and [interval_consonance] with
    these tables raises the incomplete-coverage exception for every chord
    and every aggregation method. *)
Theorem fitted_interval_tables_validation (list_of_set : gset Z → list Z)
    (normal_equations : nat → list (list pyfloat) → list pyfloat → result (list pyfloat))
    (pitches_lst : list (list Z)) (ratings : ratings_arg) (exclude_ivls : list Z)
    (agg_method : string) (tables : list (list (option pyfloat))) :
  exclude_ivls ≠ [] → NoDup exclude_ivls →
  Forall (λ x, 1 ≤ x ≤ 12)%Z exclude_ivls →
  optimise_interval_weights list_of_set normal_equations pitches_lst ratings
    exclude_ivls agg_method = Ok (Piecewise tables) →
  ((∀ k, k < 12 → observed pitches_lst (Z.of_nat (S k))) →
   check_weight_exclusions tables = Ok ()) ∧
  (∀ k, k < 12 → ¬ observed pitches_lst (Z.of_nat (S k)) →
   ∀ pitches agg,
     interval_consonance pitches (Piecewise tables) agg
       = Raise (Exception "exclusion combinations are not complete")).
Proof.
  intros Hex Hnd Hrange. rewrite optimise_interval_weights_fit.
  intros (tables' & [= <-] & Hlen & Htables)%fit_labels_piecewise; [|done].
  rewrite Forall_forall in Hrange.
  destruct (fitted_tables_validation 1 12 (observed pitches_lst) exclude_ivls tables)
    as [Hcomplete Hmissing]; [done| |done| |].
  { intros x Hx. specialize (Hrange x Hx). simpl in Hrange. lia. }
  { intros i ex table Hi Ht. destruct (Htables i ex table Hi Ht) as [Hl Hnull].
    split; [done|]. intros k Hk. rewrite (Hnull k (1 + Z.of_nat k)%Z).
    - by rewrite elem_of_chord_intervals.
    - by rewrite range_lookup by lia. }
  split.
  - intros Hobs. apply Hcomplete. intros k Hk.
    replace (1 + Z.of_nat k)%Z with (Z.of_nat (S k)) by lia. by apply Hobs.
  - intros k Hk Hnot pitches agg. apply interval_consonance_invalid.
    + intros ->. simpl in Hlen. rewrite sorted_exclusions_length in Hlen.
      pose proof (Nat.pow_nonzero 2 (length exclude_ivls)). lia.
    + apply (Hmissing k Hk).
      by replace (1 + Z.of_nat k)%Z with (Z.of_nat (S k)) by lia.
Qed.

Lemma fitted_interval_tables_validation_witness :
  ((∀ k, k < 12 → observed full_batch (Z.of_nat (S k))) →
   check_weight_exclusions full_batch_tables = Ok ()) ∧
  (∀ k, k < 12 → ¬ observed full_batch (Z.of_nat (S k)) →
   ∀ pitches agg,
     interval_consonance pitches (Piecewise full_batch_tables) agg
       = Raise (Exception "exclusion combinations are not complete")).
Proof.
  apply (fitted_interval_tables_validation ascending_list exact_normal_equations
           full_batch full_batch_ratings [1]%Z "type").
  - done.
  - apply NoDup_singleton.
  - repeat constructor; lia.
  - vm_compute. reflexivity.
Defined.

(** X27: the same for the interval classes, with a batch on which the
    round trip succeeds. The tables that [optimise_interval_class_weights]
    fits for distinct excluded classes from 0 to 6 are accepted by
    [check_weight_exclusions] when every class occurs in the batch, and
    make [interval_class_consonance] raise the incomplete-coverage
    exception for every chord when a class occurs in no chord. *)
Theorem fitted_class_tables_validation (list_of_set : gset Z → list Z)
    (normal_equations : nat → list (list pyfloat) → list pyfloat → result (list pyfloat))
    (pitches_lst : list (list Z)) (ratings : ratings_arg) (exclude_ivcs : list Z)
    (agg_method : string) (tables : list (list (option pyfloat))) :
  exclude_ivcs ≠ [] → NoDup exclude_ivcs →
  Forall (λ x, 0 ≤ x ≤ 6)%Z exclude_ivcs →
  optimise_interval_class_weights list_of_set normal_equations pitches_lst ratings
    exclude_ivcs agg_method = Ok (Piecewise tables) →
  ((∀ k, k < 7 → observed_class pitches_lst (Z.of_nat k)) →
   check_weight_exclusions tables = Ok ()) ∧
  (∀ k, k < 7 → ¬ observed_class pitches_lst (Z.of_nat k) →
   ∀ pitches agg,
     interval_class_consonance pitches (Piecewise tables) agg
       = Raise (Exception "exclusion combinations are not complete")).
Proof.
  intros Hex Hnd Hrange. rewrite optimise_interval_class_weights_fit.
  intros (tables' & [= <-] & Hlen & Htables)%fit_labels_piecewise; [|done].
  rewrite Forall_forall in Hrange.
  destruct (fitted_tables_validation 0 7 (observed_class pitches_lst) exclude_ivcs tables)
    as [Hcomplete Hmissing]; [done| |done| |].
  { intros x Hx. specialize (Hrange x Hx). simpl in Hrange. lia. }
  { intros i ex table Hi Ht. destruct (Htables i ex table Hi Ht) as [Hl Hnull].
    split; [done|]. intros k Hk. rewrite (Hnull k (0 + Z.of_nat k)%Z).
    - by rewrite elem_of_chord_classes.
    - by rewrite range_lookup by lia. }
  split.
  - intros Hobs. apply Hcomplete. intros k Hk.
    rewrite Z.add_0_l. by apply Hobs.
  - intros k Hk Hnot pitches agg. apply interval_class_consonance_invalid.
    + intros ->. simpl in Hlen. rewrite sorted_exclusions_length in Hlen.
      pose proof (Nat.pow_nonzero 2 (length exclude_ivcs)). lia.
    + apply (Hmissing k Hk). by rewrite Z.add_0_l.
Qed.

Lemma fitted_class_tables_validation_witness :
  check_weight_exclusions class_batch_tables = Ok ().
Proof.
  apply (fitted_class_tables_validation ascending_list exact_normal_equations
           class_batch class_batch_ratings [1]%Z "sum" class_batch_tables).
  - done.
  - apply NoDup_singleton.
  - repeat constructor; lia.
  - vm_compute. reflexivity.
  - intros k Hk.
    destruct k as [|[|[|[|[|[|[|k]]]]]]]; [| | | | | | |lia].
    + exists [60; 72]%Z. split; [|by vm_compute; left]. unfold class_batch. left.
    + exists [60; 61]%Z. split; [|by vm_compute; left].
      unfold class_batch. do 6 right. left.
    + exists [60; 62]%Z. split; [|by vm_compute; left].
      unfold class_batch. do 1 right. left.
    + exists [60; 63]%Z. split; [|by vm_compute; left].
      unfold class_batch. do 2 right. left.
    + exists [60; 64]%Z. split; [|by vm_compute; left].
      unfold class_batch. do 3 right. left.
    + exists [60; 65]%Z. split; [|by vm_compute; left].
      unfold class_batch. do 4 right. left.
    + exists [60; 66]%Z. split; [|by vm_compute; left].
      unfold class_batch. do 5 right. left.
Defined.

Section design_matrix_facts.
Context (list_of_set : gset Z → list Z).
Context (normal_equations :
  nat → list (list pyfloat) → list pyfloat → result (list pyfloat)).
Implicit Types (labels_lst : list (list Z)) (ratings : list pyfloat).

Local Abbreviation design_body items m agg_method :=
  (λ (A : list (list pyfloat)) (ivls : list Z),
     counts ← count ivls items;
     let row := replicate m (Fin 0) in
     let row := if decide (agg_method = "sum")
                then num_of_count <$> counts else row in
     let row := if decide (agg_method = "type")
                then (λ c, count_div c (length ivls)) <$> counts else row in
     Ok (A ++ [row])).

Lemma design_loop_rows (items : list Z) m agg_method labels_lst acc :
  Forall (Forall (.∈ items)) labels_lst →
  ∃ A, for_each (design_body items m agg_method) acc labels_lst = Ok (acc ++ A) ∧
    Forall2 (λ ivls row, ∃ counts, count ivls items = Ok counts ∧
       row = design_row agg_method m (length ivls) counts) labels_lst A.
Proof.
  revert acc. induction labels_lst as [|ivls labels_lst IH]; intros acc Hall.
  { exists []. by rewrite app_nil_r. }
  apply Forall_cons in Hall as [Hivls Hall].
  apply count_Ok_iff in Hivls as [h Hh].
  rewrite for_each_cons. cbv beta. rewrite Hh, bind_Ok_l. cbv zeta.
  rewrite bind_Ok_l.
  destruct (IH (acc ++ [design_row agg_method m (length ivls) h]) Hall)
    as (A & HA & Hrows).
  exists (design_row agg_method m (length ivls) h :: A). split.
  - unfold design_row in HA. rewrite HA. by rewrite <-app_assoc.
  - constructor; [by exists h|done].
Qed.

Lemma design_loop_Raise (items : list Z) m agg_method labels_lst acc :
  ¬ Forall (Forall (.∈ items)) labels_lst →
  for_each (design_body items m agg_method) acc labels_lst = Raise ValueError.
Proof.
  revert acc. induction labels_lst as [|ivls labels_lst IH]; intros acc Hnot.
  { destruct Hnot. constructor. }
  rewrite for_each_cons. cbv beta.
  destruct (decide (Forall (.∈ items) ivls)) as [Hivls|Hivls].
  - apply count_Ok_iff in Hivls as Hcount. destruct Hcount as [h Hh].
    rewrite Hh, bind_Ok_l. cbv zeta. rewrite bind_Ok_l.
    apply IH. intros Hall. apply Hnot. by constructor.
  - unfold count. by rewrite count_loop_Raise.
Qed.
End design_matrix_facts.

(** X28: what [optimise_weights] does before the solver. Lists of
    different lengths raise the exception of line 79 before any chord is
    looked at; with lists of the same length a chord with a label that the
    listing of the set lacks raises [ValueError]; otherwise the result is
    the solver's, on a matrix with one row per chord: the counts of the
    chord under "sum", its proportions under "type", and zeros under any
    other aggregation method, which is not rejected. *)
Theorem optimise_weights_cases (list_of_set : gset Z → list Z)
    (normal_equations : nat → list (list pyfloat) → list pyfloat → result (list pyfloat))
    (intervals_lst : list (list Z)) (ratings : list pyfloat) (interval_set : gset Z)
    (agg_method : string) :
  (length intervals_lst ≠ length ratings →
   optimise_weights list_of_set normal_equations intervals_lst ratings interval_set
     agg_method
     = Raise (Exception "lists of chords and ratings must be same length")) ∧
  (length intervals_lst = length ratings →
   ¬ Forall (Forall (.∈ list_of_set interval_set)) intervals_lst →
   optimise_weights list_of_set normal_equations intervals_lst ratings interval_set
     agg_method = Raise ValueError) ∧
  (length intervals_lst = length ratings →
   Forall (Forall (.∈ list_of_set interval_set)) intervals_lst →
   ∃ A,
     optimise_weights list_of_set normal_equations intervals_lst ratings interval_set
       agg_method = normal_equations (size interval_set) A ratings ∧
     Forall2 (λ ivls row,
       ∃ counts, count ivls (list_of_set interval_set) = Ok counts ∧
         row = design_row agg_method (size interval_set) (length ivls) counts)
       intervals_lst A).
Proof.
  split_and!.
  - apply optimise_weights_mismatch.
  - intros Hlen Hnot. unfold optimise_weights. rewrite decide_False by (by intros ?).
    cbv zeta.
    pose proof (design_loop_Raise (list_of_set interval_set) (size interval_set)
                  agg_method intervals_lst [] Hnot) as Hloop.
    cbv zeta in Hloop. by rewrite Hloop.
  - intros Hlen Hall. unfold optimise_weights. rewrite decide_False by (by intros ?).
    destruct (design_loop_rows (list_of_set interval_set) (size interval_set)
                agg_method intervals_lst [] Hall) as (A & HA & Hrows).
    cbv zeta in HA. cbv zeta. rewrite HA. by exists A.
Qed.

Lemma optimise_weights_cases_witness :
  optimise_weights ascending_list exact_normal_equations [[2]; [1; 2]]%Z [Fin 1]
    {[1; 2]}%Z "type"
    = Raise (Exception "lists of chords and ratings must be same length") ∧
  optimise_weights ascending_list exact_normal_equations [[2]; [1; 3]]%Z [Fin 1; Fin 2]
    {[1; 2]}%Z "type" = Raise ValueError ∧
  ∃ A,
    optimise_weights ascending_list exact_normal_equations [[2]; [1; 2]]%Z
      [Fin 1; Fin 2] {[1; 2]}%Z "mean"
      = exact_normal_equations (size ({[1; 2]} : gset Z))%Z A [Fin 1; Fin 2] ∧
    Forall2 (λ ivls row,
      ∃ counts, count ivls (ascending_list {[1; 2]}%Z) = Ok counts ∧
        row = design_row "mean" (size ({[1; 2]} : gset Z))%Z (length ivls) counts)
      [[2]; [1; 2]]%Z A.
Proof.
  split_and!.
  - apply (proj1 (optimise_weights_cases ascending_list exact_normal_equations
                    [[2]; [1; 2]]%Z [Fin 1] {[1; 2]}%Z "type")).
    simpl. lia.
  - apply (proj1 (proj2 (optimise_weights_cases ascending_list exact_normal_equations
                    [[2]; [1; 3]]%Z [Fin 1; Fin 2] {[1; 2]}%Z "type"))); [done|].
    intros Hall. apply Forall_cons in Hall as [_ Hall].
    apply Forall_cons in Hall as [Hall _]. apply Forall_cons in Hall as [_ Hall].
    apply Forall_cons in Hall as [Hall _].
    apply ascending_list_faithful in Hall.
    apply elem_of_union in Hall as [Hall|Hall]; by apply elem_of_singleton in Hall.
  - apply (proj2 (proj2 (optimise_weights_cases ascending_list exact_normal_equations
                    [[2]; [1; 2]]%Z [Fin 1; Fin 2] {[1; 2]}%Z "mean"))); [done|].
    repeat constructor; apply ascending_list_faithful, elem_of_union;
      (by left; apply elem_of_singleton) || (by right; apply elem_of_singleton).
Defined.
